(** * Signal scoring and weekly trends of the money-radar pipeline

    A shallow embedding of the scoring and trend core of [ukmppr]:
    - [signal_scoring.py]: the rule scorer [score_text];
    - [llm_signal_scoring.py]: decoding and normalising a provider reply,
      [score_text_llm] with its fallback to the rule scorer;
    - [llm_extraction.py]: [call_groq], [call_ollama], [call_llm];
    - [score_signals.py]: [_score_text_with_method] and [_upsert_signal];
    - [trends.py]: [compute_weekly_trends] and [get_trending_themes].

    Conventions.
    - A Python [str] is a [string] whose characters are code points
      U+0000..U+00FF (one [ascii] per code point, so the pound sign is the
      single character 163); the classes of [str.strip], [\s], [\d], [\w]
      and the lower-casing of [re.IGNORECASE] are the Unicode ones restricted
      to that range. A text with a code point beyond U+00FF is outside the
      development: no statement here speaks of it.
    - A Python [float] and a PostgreSQL [DOUBLE PRECISION] are binary64
      values ([PrimFloat.float]). A PostgreSQL [numeric] is an exact rational:
      a quotient is not cut to the 16 or more significant digits PostgreSQL
      keeps, which decide the same one-decimal rounding for every count
      below 10^12.
    - An instant ([TIMESTAMPTZ]) is a number of microseconds since the epoch,
      a [DATE] a number of days since the epoch, the session time zone UTC.
    - [json.loads], [float] on a [str] and [str] on a decoded value are
      parameters ([runtime]); [json.loads] may decode, raise
      [JSONDecodeError] or raise another exception. The provider is reached
      through the events of [io], so that a statement holds for every
      behaviour of the network, and [time.sleep] may raise. *)

From Stdlib Require Import ZArith QArith Qcanon Ascii String List Lia.
From Stdlib Require Import Floats.PrimFloat Floats.SpecFloat Floats.FloatOps Floats.FloatAxioms.
From stdpp Require Import base tactics option list sorting gmap strings.

Close Scope Qc_scope.
Close Scope Q_scope.
Local Open Scope Z_scope.
Local Open Scope string_scope.
Local Open Scope list_scope.

(** ** Characters and strings *)

Module Text.

Definition code (c : ascii) : N := N_of_ascii c.

Definition between (lo hi : N) (c : ascii) : bool :=
  (N.leb lo (code c) && N.leb (code c) hi)%bool.

(** [str.isspace] on one character, also the class [\s]. *)
Definition isspace (c : ascii) : bool :=
  (between 9 13 c || between 28 32 c || N.eqb (code c) 133 || N.eqb (code c) 160)%bool.

(** [str.isdecimal] on one character, the class [\d]. *)
Definition isdecimal (c : ascii) : bool := between 48 57 c.

(** [str.isalnum] on one character. *)
Definition isalnum (c : ascii) : bool :=
  (between 48 57 c || between 65 90 c || between 97 122 c
   || N.eqb (code c) 170 || between 178 179 c || N.eqb (code c) 181
   || between 185 186 c || between 188 190 c
   || between 192 214 c || between 216 246 c || between 248 255 c)%bool.

(** The class [\w]. *)
Definition isword (c : ascii) : bool := (isalnum c || N.eqb (code c) 95)%bool.

(** Lower-casing of one character. *)
Definition lower (c : ascii) : ascii :=
  if (between 65 90 c || (between 192 222 c && negb (N.eqb (code c) 215)))%bool
  then ascii_of_N (code c + 32) else c.

Fixpoint map (f : ascii -> ascii) (s : string) : string :=
  match s with
  | EmptyString => EmptyString
  | String c s' => String (f c) (map f s')
  end.

(** [s.lower()]. *)
Definition str_lower (s : string) : string := map lower s.

Fixpoint lstrip (s : string) : string :=
  match s with
  | EmptyString => EmptyString
  | String c s' => if isspace c then lstrip s' else s
  end.

Fixpoint rstrip (s : string) : string :=
  match s with
  | EmptyString => EmptyString
  | String c s' =>
      match rstrip s' with
      | EmptyString => if isspace c then EmptyString else String c EmptyString
      | r => String c r
      end
  end.

(** [s.strip()]. *)
Definition strip (s : string) : string := rstrip (lstrip s).

(** [c in s] for a one-character [c]. *)
Fixpoint contains (c : ascii) (s : string) : bool :=
  match s with
  | EmptyString => false
  | String d s' => (Ascii.eqb c d || contains c s')%bool
  end.

Fixpoint all (p : ascii -> bool) (s : string) : bool :=
  match s with
  | EmptyString => true
  | String c s' => (p c && all p s')%bool
  end.

(** [s[:n]]. *)
Fixpoint take (n : nat) (s : string) : string :=
  match n, s with
  | O, _ => EmptyString
  | S n', EmptyString => EmptyString
  | S n', String c s' => String c (take n' s')
  end.

(** Truth value of a [str | None]: [None] and the empty string are false. *)
Definition truthy (t : option string) : bool :=
  match t with
  | None | Some EmptyString => false
  | Some _ => true
  end.

End Text.

(** ** Regular expressions

    The fragment of [re] the patterns of the program use, compiled with
    [re.IGNORECASE]. A position is the character before it (if any) and the
    text after it; [matches r] lists every position a match of [r] that
    starts at the given position can end at, so [search] is true exactly when
    the backtracking matcher of [re.search] finds a match. *)

Module Re.

Inductive regex : Type :=
| Lit (c : ascii)              (* a literal character, compared ignoring case *)
| Cls (p : ascii -> bool)      (* a character class: \d, \s *)
| Bnd                          (* \b *)
| Cat (r1 r2 : regex)
| Alt (r1 r2 : regex)
| Opt (r : regex)              (* r? *)
| Star (p : ascii -> bool).    (* p* for a character class p *)

Definition pos : Type := option ascii * string.

Definition word_before (prev : option ascii) : bool :=
  match prev with Some c => Text.isword c | None => false end.

Definition word_after (s : string) : bool :=
  match s with String c _ => Text.isword c | EmptyString => false end.

(** Every position reached from [(prev, s)] by consuming a run of
    characters of class [p], the empty run included. *)
Fixpoint runs (p : ascii -> bool) (prev : option ascii) (s : string) : list pos :=
  (prev, s) ::
  match s with
  | String c s' => if p c then runs p (Some c) s' else []
  | EmptyString => []
  end.

Fixpoint matches (r : regex) (prev : option ascii) (s : string) : list pos :=
  match r with
  | Lit c =>
      match s with
      | String d s' => if Ascii.eqb (Text.lower d) c then [(Some d, s')] else []
      | EmptyString => []
      end
  | Cls p =>
      match s with
      | String d s' => if p d then [(Some d, s')] else []
      | EmptyString => []
      end
  | Bnd => if xorb (word_before prev) (word_after s) then [(prev, s)] else []
  | Cat r1 r2 =>
      flat_map (fun q : pos => matches r2 (fst q) (snd q)) (matches r1 prev s)
  | Alt r1 r2 => matches r1 prev s ++ matches r2 prev s
  | Opt r1 => matches r1 prev s ++ [(prev, s)]
  | Star p => runs p prev s
  end.

Definition match_at (r : regex) (prev : option ascii) (s : string) : bool :=
  match matches r prev s with [] => false | _ :: _ => true end.

Fixpoint search_from (r : regex) (prev : option ascii) (s : string) : bool :=
  (match_at r prev s ||
   match s with
   | String c s' => search_from r (Some c) s'
   | EmptyString => false
   end)%bool.

(** [bool(re.search(r, s, re.IGNORECASE))]. *)
Definition search (r : regex) (s : string) : bool := search_from r None s.

(** A literal word of the pattern (written in lower case in the source). *)
Fixpoint str (w : string) : regex :=
  match w with
  | EmptyString => Opt (Cls (fun _ => false))
  | String c EmptyString => Lit c
  | String c w' => Cat (Lit c) (str w')
  end.

Fixpoint alts (rs : list regex) : regex :=
  match rs with
  | [] => Cls (fun _ => false)
  | [r] => r
  | r :: rs' => Alt r (alts rs')
  end.

Fixpoint cats (rs : list regex) : regex :=
  match rs with
  | [] => Opt (Cls (fun _ => false))
  | [r] => r
  | r :: rs' => Cat r (cats rs')
  end.

Definition plus (p : ascii -> bool) : regex := Cat (Cls p) (Star p).

End Re.

(** ** signal_scoring.py: the rule scorer *)

Set Warnings "-inexact-float,-register-all".

Record SignalResult : Type := mkSignalResult {
  is_question : bool;
  asks_recommendation : bool;
  mentions_cost : bool;
  mentions_platform : bool;
  signal_score : float;
  detected_keywords : list string
}.

Definition pound : ascii := ascii_of_N 163.

Definition words (ws : list string) : Re.regex := Re.alts (List.map Re.str ws).

(** [\b(how|what|why|which|can i|should i)\b], the pattern written inline in
    [score_text]. *)
Definition QUESTION_PAT : Re.regex :=
  Re.cats [Re.Bnd; words ["how"; "what"; "why"; "which"; "can i"; "should i"]; Re.Bnd].

Definition _RECOMMEND_PAT : Re.regex :=
  Re.cats
    [Re.Bnd;
     Re.alts
       [Re.str "anyone recommend";
        Re.Cat (Re.str "recommendation") (Re.Opt (Re.Lit "s"));
        Re.cats [Re.str "what "; words ["should"; "shall"]; Re.str " i "; words ["do"; "use"]];
        Re.Cat (Re.str "best ") (words ["platform"; "broker"; "bank"; "card"]);
        Re.Cat (Re.str "which ") (words ["bank"; "card"; "platform"; "broker"]);
        Re.str "worth it"];
     Re.Bnd].

Definition _COST_PAT : Re.regex :=
  Re.alts
    [Re.cats [Re.Lit pound; Re.Opt (Re.Cls Text.isspace); Re.plus Text.isdecimal];
     Re.cats [Re.Bnd; Re.plus Text.isdecimal;
              Re.Opt (Re.Cat (Re.Lit ".") (Re.plus Text.isdecimal)); Re.Lit "%"; Re.Bnd];
     Re.cats [Re.Bnd; Re.str "apr"; Re.Bnd];
     Re.cats [Re.Bnd; Re.str "interest"; Re.Bnd];
     Re.cats [Re.Bnd; Re.str "fee"; Re.Opt (Re.Lit "s"); Re.Bnd];
     Re.cats [Re.Bnd; Re.str "cost"; Re.Opt (Re.Lit "s"); Re.Bnd]].

Definition _PLATFORM_PAT : Re.regex :=
  Re.cats
    [Re.Bnd;
     Re.alts
       [Re.cats [Re.str "trading"; Re.Star Text.isspace; Re.str "212"];
        Re.str "vanguard";
        Re.str "hl";
        Re.str "hargreaves";
        Re.str "freetrade";
        Re.cats [Re.str "aj"; Re.Star Text.isspace; Re.str "bell"];
        Re.Cat (Re.str "ii") Re.Bnd;
        Re.cats [Re.str "interactive"; Re.Star Text.isspace; Re.str "investor"];
        Re.str "monzo";
        Re.str "starling";
        Re.str "revolut";
        Re.str "barclays";
        Re.str "lloyds";
        Re.str "natwest";
        Re.str "hsbc";
        Re.str "amex";
        Re.cats [Re.str "american"; Re.Star Text.isspace; Re.str "express"]];
     Re.Bnd].

(** [min(a, b)] on two floats: the first argument unless the second is
    smaller. *)
Definition py_min (a b : float) : float := if PrimFloat.ltb b a then b else a.

(** The [detected.append] sequence of [score_text]. *)
Definition append_if (b : bool) (label : string) (detected : list string) : list string :=
  if b then detected ++ [label] else detected.

Definition score_text (text : option string) : SignalResult :=
  match text with
  | None | Some EmptyString =>
      mkSignalResult false false false false 0%float []
  | Some text =>
      let norm := Text.strip text in
      let is_question := (Text.contains "?" norm || Re.search QUESTION_PAT norm)%bool in
      let asks_recommendation := Re.search _RECOMMEND_PAT norm in
      let mentions_cost := Re.search _COST_PAT norm in
      let mentions_platform := Re.search _PLATFORM_PAT norm in
      let detected := [] in
      let detected := append_if is_question "question" detected in
      let detected := append_if asks_recommendation "recommendation" detected in
      let detected := append_if mentions_cost "cost" detected in
      let detected := append_if mentions_platform "platform" detected in
      let score := 0%float in
      let score := (score + (if is_question then 0.35 else 0))%float in
      let score := (score + (if asks_recommendation then 0.35 else 0))%float in
      let score := (score + (if mentions_cost then 0.2 else 0))%float in
      let score := (score + (if mentions_platform then 0.2 else 0))%float in
      let score := py_min 1 score in
      mkSignalResult is_question asks_recommendation mentions_cost mentions_platform
        score detected
  end.

(** The result on no text: no flag, score 0.0, no keyword. *)
Definition blank_result : SignalResult := mkSignalResult false false false false 0%float [].

(** The score the specification describes: the weights of the flags that are
    true, added up in the order question, recommendation, cost, platform, and
    capped at 1.0. *)
Definition flag_weights (q r c p : bool) : list float :=
  (if q then [0.35%float] else []) ++ (if r then [0.35%float] else [])
  ++ (if c then [0.2%float] else []) ++ (if p then [0.2%float] else []).

Definition weighted_sum_capped (q r c p : bool) : float :=
  let total := fold_left PrimFloat.add (flag_weights q r c p) 0%float in
  if PrimFloat.ltb 1 total then 1%float else total.

(** [x] lies in the closed interval [0, 1]. *)
Definition in_unit_interval (x : float) : bool :=
  (PrimFloat.leb 0 x && PrimFloat.leb x 1)%bool.

(** ** Decoded JSON *)

Inductive json : Type :=
| JNull
| JBool (b : bool)
| JInt (z : Z)
| JFloat (f : float)
| JStr (s : string)
| JList (l : list json)
| JDict (d : list (string * json)).

(** A decoded object: its items, a key looked up from the front. *)
Definition dict : Type := list (string * json).

Fixpoint dict_get (k : string) (d : dict) : option json :=
  match d with
  | [] => None
  | (k', v) :: d' => if String.eqb k k' then Some v else dict_get k d'
  end.

(** ** Exceptions, results and provider effects *)

Inductive exn : Type :=
| TypeError
| ValueError
| OverflowError
| RecursionError
| AttributeError
| IntegrityError
| DataError.

(** What a pure computation that may raise ends with. *)
Inductive outcome (A : Type) : Type :=
| Ok (a : A)
| Err (e : exn).
Arguments Ok {A} a.
Arguments Err {A} e.

Inductive endpoint : Type := Groq | Ollama.

(** What [httpx.post] is called with. *)
Record request : Type := mkRequest {
  rq_endpoint : endpoint;
  rq_api_key : string;
  rq_model : string;
  rq_prompt : string;
  rq_timeout : float
}.

(** What a call of [httpx.post] yields. [Failed] is any exception of the
    call itself (timeout, transport error). In a [Response], [retry_after] is
    the header of that name and [content] is what reading the completion out
    of the body gives: [None] when that raises (body not JSON, a key
    missing), otherwise the value found there, which the provider is free to
    make a text, a null or anything else. *)
Inductive reply : Type :=
| Failed
| Response (status : Z) (retry_after : option string) (content : option json).

(** Computations that post to a provider and sleep between attempts. The
    continuation of [Sleep] is told whether [time.sleep] returned ([false]:
    it raised, as it does on a negative or non-finite duration). *)
Inductive io (A : Type) : Type :=
| Ret (a : A)
| Raise (e : exn)
| HttpPost (rq : request) (k : reply -> io A)
| Sleep (secs : float) (k : bool -> io A).
Arguments Ret {A} a.
Arguments Raise {A} e.
Arguments HttpPost {A} rq k.
Arguments Sleep {A} secs k.

Fixpoint bind {A B : Type} (m : io A) (f : A -> io B) : io B :=
  match m with
  | Ret a => f a
  | Raise e => Raise e
  | HttpPost rq k => HttpPost rq (fun r => bind (k r) f)
  | Sleep s k => Sleep s (fun b => bind (k b) f)
  end.

Notation "'let*' x ':=' m 'in' f" := (bind m (fun x => f))
  (at level 10, x name, m at level 100, f at level 200).

Definition lift {A : Type} (r : outcome A) : io A :=
  match r with Ok a => Ret a | Err e => Raise e end.

(** What a computation runs against. [net n rq] is the reply to the post
    number [n] (from 0). [can_wait net secs] tells whether the platform can
    wait for [secs] seconds: a duration of centuries is beyond what its clock
    counts. *)
Record network : Type := mkNetwork {
  reply_to :> nat -> request -> reply;
  can_wait : float -> bool
}.

(** Whether [time.sleep(secs)] returns: it raises on a negative duration,
    on NaN, and on a duration the platform cannot wait for. *)
Definition sleep_returns (net : network) (secs : float) : bool :=
  (PrimFloat.leb 0 secs && can_wait net secs)%bool.

(** Running a computation. The result comes with the number of posts
    made. *)
Fixpoint run {A : Type} (net : network) (n : nat) (m : io A) : outcome A * nat :=
  match m with
  | Ret a => (Ok a, n)
  | Raise e => (Err e, n)
  | HttpPost rq k => run net (S n) (k (net n rq))
  | Sleep secs k => run net n (k (sleep_returns net secs))
  end.

(** ** Numbers and the runtime *)

(** The binary64 nearest to an integer (ties to even), infinite beyond the
    range. *)
Definition float_of_Z (z : Z) : float := SF2Prim (binary_normalize 53 1024 z 0 false).

(** [float(n)] for an [int]: [OverflowError] when [n] is out of range. *)
Definition float_of_int (z : Z) : outcome float :=
  let f := float_of_Z z in
  if PrimFloat.eqb (PrimFloat.abs f) infinity then Err OverflowError else Ok f.

(** The truth value of a decoded value. *)
Definition json_truthy (v : json) : bool :=
  match v with
  | JNull => false
  | JBool b => b
  | JInt z => negb (Z.eqb z 0)
  | JFloat f => negb (PrimFloat.eqb f 0)
  | JStr s => negb (String.eqb s "")
  | JList l => match l with [] => false | _ => true end
  | JDict d => match d with [] => false | _ => true end
  end.

(** What [json.loads] ends with on a text that starts with a brace: the
    decoded object, [json.JSONDecodeError], or one of the exceptions that are
    no [JSONDecodeError]: [ValueError] for an integer of more digits than the
    interpreter converts (4300 by default), [RecursionError] for brackets
    nested too deep. *)
Inductive decoded : Type :=
| Decoded (data : dict)
| JSONDecodeError
| IntegerTooLong
| NestedTooDeep.

(** The functions of the Python runtime the development is parametric in. *)
Record runtime : Type := mkRuntime {
  (** [json.loads] on a text that starts with a brace. *)
  json_loads : string -> decoded;
  (** [float(s)] for a [str]: [None] for [ValueError]. *)
  float_of_str : string -> option float;
  (** [str(v)] for a decoded value that is not a [str]. *)
  repr : json -> string
}.

(** The configuration read from [settings]. *)
Record Settings : Type := mkSettings {
  llm_provider : string;
  groq_api_key : string;
  groq_model : string;
  ollama_model : string
}.

(** ** llm_signal_scoring.py and llm_extraction.py *)

Definition dq : string := String (ascii_of_N 34) "".
Definition nl : string := String (ascii_of_N 10) "".

Definition cat (parts : list string) : string := String.concat "" parts.
Definition quoted (s : string) : string := cat [dq; s; dq].

(** [SIGNAL_PROMPT.format(text=...)]. *)
Definition SIGNAL_PROMPT (text : string) : string :=
  String.concat nl
    ["You are classifying a UK personal finance Reddit post/comment for pain-point signals.";
     "";
     "TEXT:";
     text;
     "";
     "Respond with ONLY valid JSON in this exact format:";
     "{";
     cat ["  "; quoted "is_question"; ": true/false,"];
     cat ["  "; quoted "asks_recommendation"; ": true/false,"];
     cat ["  "; quoted "mentions_cost"; ": true/false,"];
     cat ["  "; quoted "mentions_platform"; ": true/false,"];
     cat ["  "; quoted "signal_score"; ": 0.0 to 1.0,"];
     cat ["  "; quoted "detected_keywords"; ": ["; quoted "short"; ", "; quoted "keywords"; "]"];
     "}";
     "";
     "Rules:";
     "- is_question: direct or implied question/seeking advice";
     "- asks_recommendation: asks for product/bank/broker/app recommendation or comparison";
     "- mentions_cost: mentions fees, interest rates, APR, prices, or costs";
     "- mentions_platform: names a bank/platform/broker/app/product";
     "- signal_score: higher for multiple signals (0.7+ for question+recommendation, ~0.5 for one strong signal)";
     "";
     "JSON response:"].

(** Removing every match of a fence, left to right: three backquotes, and with
    [with_json] also a following [json] in any case (the pattern of the
    [re.sub] call); [skip] counts the characters of the current match that
    are still to be dropped. *)
Fixpoint remove_fences (with_json : bool) (skip : nat) (s : string) : string :=
  match s with
  | EmptyString => EmptyString
  | String c s' =>
      match skip with
      | S k => remove_fences with_json k s'
      | O =>
          if String.prefix "```" s then
            if (with_json && String.prefix "```json" (Text.str_lower s))%bool
            then remove_fences with_json 6 s'
            else remove_fences with_json 2 s'
          else String c (remove_fences with_json 0 s')
      end
  end.

(** The text from the first opening brace on. *)
Fixpoint from_first_brace (s : string) : option string :=
  match s with
  | EmptyString => None
  | String c s' => if Ascii.eqb c "{" then Some s else from_first_brace s'
  end.

(** The longest prefix that ends with a closing brace. *)
Fixpoint upto_last_brace (s : string) : option string :=
  match s with
  | EmptyString => None
  | String c s' =>
      match upto_last_brace s' with
      | Some p => Some (String c p)
      | None => if Ascii.eqb c "}" then Some (String c EmptyString) else None
      end
  end.

(** [re.search(r"\{.*\}", s, re.DOTALL)], the text of the match. *)
Definition search_object (s : string) : option string :=
  match from_first_brace s with
  | Some t => upto_last_brace t
  | None => None
  end.

(** [re.split(r"[,\n]", s)]. *)
Fixpoint split_keywords (s : string) : list string :=
  match s with
  | EmptyString => [EmptyString]
  | String c s' =>
      if (Ascii.eqb c "," || Ascii.eqb c (ascii_of_N 10))%bool
      then EmptyString :: split_keywords s'
      else match split_keywords s' with
           | w :: ws => String c w :: ws
           | [] => [String c EmptyString]
           end
  end.

Definition _coerce_bool (value : json) : bool :=
  match value with
  | JBool b => b
  | JInt z => negb (Z.eqb z 0)
  | JFloat f => negb (PrimFloat.eqb f 0)
  | JStr s =>
      existsb (String.eqb (Text.str_lower (Text.strip s))) ["true"; "yes"; "y"; "1"]
  | _ => false
  end.

Definition _keywords_from_flags
  (is_question asks_recommendation mentions_cost mentions_platform : bool) : list string :=
  let detected := [] in
  let detected := append_if is_question "question" detected in
  let detected := append_if asks_recommendation "recommendation" detected in
  let detected := append_if mentions_cost "cost" detected in
  let detected := append_if mentions_platform "platform" detected in
  detected.

(** Modelled from the spec: [score_from_flags], which [llm_signal_scoring.py]
    imports from [signal_scoring.py] and that file does not define. The
    specification has it recompute the score from the flags with the additive
    weights of the rule scorer: 0.35, 0.35, 0.2, 0.2, capped at 1.0. *)
Definition score_from_flags
  (is_question asks_recommendation mentions_cost mentions_platform : bool) : float :=
  let score := 0%float in
  let score := (score + (if is_question then 0.35 else 0))%float in
  let score := (score + (if asks_recommendation then 0.35 else 0))%float in
  let score := (score + (if mentions_cost then 0.2 else 0))%float in
  let score := (score + (if mentions_platform then 0.2 else 0))%float in
  py_min 1 score.

(** [data.get(key)]: a missing key reads as [None]. *)
Definition get (data : dict) (key : string) : json :=
  match dict_get key data with Some v => v | None => JNull end.

(** The score recomputed from the coerced flags of a payload. *)
Definition coerced_score (data : dict) : float :=
  score_from_flags (_coerce_bool (get data "is_question"))
    (_coerce_bool (get data "asks_recommendation"))
    (_coerce_bool (get data "mentions_cost"))
    (_coerce_bool (get data "mentions_platform")).

(** The validation of the pydantic model [LLMSignalResponse] on a normalised
    payload, whose flags are [bool], whose score is a [float] and whose
    keywords are [str]: what is left to check is [ge=0.0, le=1.0] on the
    score, taken as documented ([0 <= score <= 1], which a NaN does not
    satisfy). [None] is [ValidationError]. *)
Definition LLMSignalResponse (normalized : SignalResult) : option SignalResult :=
  if in_unit_interval (signal_score normalized) then Some normalized else None.

Section Classifier.

Variable rt : runtime.
Variable settings : Settings.

(** [_extract_json] on a text: [except json.JSONDecodeError] turns a
    decoding error into [None] and lets the other exceptions of [json.loads]
    through. *)
Definition _extract_json (response : string) : outcome (option dict) :=
  match response with
  | EmptyString => Ok None
  | _ =>
      let cleaned := Text.strip response in
      let cleaned := remove_fences true 0 cleaned in
      let cleaned := remove_fences false 0 cleaned in
      match search_object cleaned with
      | None => Ok None
      | Some text =>
          match json_loads rt text with
          | Decoded data => Ok (Some data)
          | JSONDecodeError => Ok None
          | IntegerTooLong => Err ValueError
          | NestedTooDeep => Err RecursionError
          end
      end
  end.

(** [str(k)]. *)
Definition py_str (k : json) : string :=
  match k with JStr s => s | _ => repr rt k end.

(** [float(v)]. *)
Definition py_float (v : json) : outcome float :=
  match v with
  | JNull | JList _ | JDict _ => Err TypeError
  | JBool b => Ok (if b then 1%float else 0%float)
  | JInt z => float_of_int z
  | JFloat f => Ok f
  | JStr s =>
      match float_of_str rt s with
      | Some f => Ok f
      | None => Err ValueError
      end
  end.

(** The dict [_normalize_payload] returns has the six keys of a
    [SignalResult] and is kept as one. *)
Definition _normalize_payload (data : dict) : outcome SignalResult :=
  let is_question := _coerce_bool (get data "is_question") in
  let asks_recommendation := _coerce_bool (get data "asks_recommendation") in
  let mentions_cost := _coerce_bool (get data "mentions_cost") in
  let mentions_platform := _coerce_bool (get data "mentions_platform") in
  let keywords : list json :=
    match dict_get "detected_keywords" data with
    | None => []
    | Some (JStr s) =>
        List.map JStr
          (List.map Text.strip
             (List.filter (fun k => negb (String.eqb (Text.strip k) ""))
                (split_keywords s)))
    | Some (JList l) => l
    | Some _ => []
    end in
  let keywords := List.map py_str (List.filter json_truthy keywords) in
  let computed_score :=
    score_from_flags is_question asks_recommendation mentions_cost mentions_platform in
  let converted :=
    match py_float (get data "signal_score") with
    | Ok f => Ok f
    | Err TypeError | Err ValueError => Ok computed_score
    | Err e => Err e
    end in
  match converted with
  | Err e => Err e
  | Ok signal_score =>
      let signal_score :=
        if (PrimFloat.ltb signal_score 0 || PrimFloat.ltb 1 signal_score)%bool
        then computed_score else signal_score in
      let keywords :=
        match keywords with
        | [] => _keywords_from_flags is_question asks_recommendation
                  mentions_cost mentions_platform
        | _ => keywords
        end in
      Ok (mkSignalResult is_question asks_recommendation mentions_cost
            mentions_platform signal_score keywords)
  end.

Definition parse_llm_signal_response (response : string) : outcome (option SignalResult) :=
  match _extract_json response with
  | Err e => Err e
  | Ok None | Ok (Some []) => Ok None
  | Ok (Some payload) =>
      match _normalize_payload payload with
      | Err e => Err e
      | Ok normalized => Ok (LLMSignalResponse normalized)
      end
  end.

Definition is_success (status : Z) : bool := (Z.leb 200 status && Z.leb status 299)%bool.

(** What the two calls return is a decoded value: [JNull] is [None], and
    nothing makes the completion of a reply a text. *)
Definition call_ollama (prompt model : string) (timeout : float) : io json :=
  HttpPost (mkRequest Ollama "" model prompt timeout)
    (fun r =>
       match r with
       | Failed => Ret JNull
       | Response status _ content =>
           if is_success status then
             match content with
             | Some c => Ret c
             | None => Ret JNull
             end
           else Ret JNull
       end).

(** The loop [for attempt in range(max_retries)] of [call_groq], with
    [remaining] iterations to go. *)
Fixpoint groq_attempts (remaining : nat) (attempt : Z) (prompt model : string)
  (timeout : float) : io json :=
  match remaining with
  | O => Ret JNull
  | S rest =>
      HttpPost (mkRequest Groq (groq_api_key settings) model prompt timeout)
        (fun r =>
           match r with
           | Failed => Ret JNull
           | Response status retry_after content =>
               if Z.eqb status 429 then
                 let wait_time :=
                   match retry_after with
                   | Some (String _ _ as h) => float_of_str rt h
                   | _ => Some (float_of_Z (Z.min (2 ^ attempt * 2) 60))
                   end in
                 match wait_time with
                 | None => Ret JNull
                 | Some w =>
                     Sleep w (fun returned =>
                       if returned
                       then groq_attempts rest (attempt + 1) prompt model timeout
                       else Ret JNull)
                 end
               else if is_success status then
                 match content with
                 | Some c => Ret c
                 | None => Ret JNull
                 end
               else Ret JNull
           end)
  end.

Definition call_groq (prompt : string) (model : option string) (timeout : float)
  (max_retries : nat) : io json :=
  let model :=
    match model with
    | None | Some EmptyString => groq_model settings
    | Some m => m
    end in
  match groq_api_key settings with
  | EmptyString => call_ollama prompt (ollama_model settings) timeout
  | _ => groq_attempts max_retries 0 prompt model timeout
  end.

Definition call_llm (prompt : string) (timeout : float) : io json :=
  if String.eqb (llm_provider settings) "groq"
  then call_groq prompt None timeout 5
  else call_ollama prompt (ollama_model settings) timeout.

(** The text sent to the provider: [text.strip()], cut to [max_chars]
    characters and marked with an ellipsis when it is longer. *)
Definition snippet_of (text : string) (max_chars : nat) : string :=
  let snippet := Text.strip text in
  if Nat.ltb max_chars (String.length snippet)
  then String.append (Text.take max_chars snippet) "..."
  else snippet.

(** The text of a [str | None], [None] read as the empty text. *)
Definition or_empty (response : option string) : string :=
  match response with Some s => s | None => EmptyString end.

(** [response or ""]. *)
Definition or_empty_text (response : json) : json :=
  if json_truthy response then response else JStr EmptyString.

(** [parse_llm_signal_response] on what [call_llm] returned: a value that is
    no text has no method [strip], which [_extract_json] calls first. *)
Definition parse_response (response : json) : outcome (option SignalResult) :=
  match or_empty_text response with
  | JStr s => parse_llm_signal_response s
  | _ => Err AttributeError
  end.

Definition score_text_llm (text : option string) (max_chars : nat) : io SignalResult :=
  match text with
  | None | Some EmptyString => Ret (score_text text)
  | Some t =>
      match Text.strip t with
      | EmptyString => Ret (score_text text)
      | _ =>
          let snippet := snippet_of t max_chars in
          let* response := call_llm (SIGNAL_PROMPT snippet) 30 in
          let* parsed := lift (parse_response response) in
          match parsed with
          | Some r => Ret r
          | None => Ret (score_text text)
          end
      end
  end.

(** The reply does not carry, as its [signal_score], an integer too large
    for a float. *)
Definition score_converts (response : string) : bool :=
  match _extract_json response with
  | Ok (Some data) =>
      match py_float (get data "signal_score") with
      | Err OverflowError => false
      | _ => true
      end
  | _ => true
  end.

(** [json.loads] returns, or raises [JSONDecodeError], on the object found
    in the reply. *)
Definition decodes (response : string) : bool :=
  match _extract_json response with
  | Ok _ => true
  | Err _ => false
  end.

(** ** score_signals.py: the scoring policy *)

Definition _score_text_with_method (text_body : option string) (method : string)
  (hybrid_min_score : float) : io SignalResult :=
  if String.eqb method "rules" then Ret (score_text text_body)
  else if String.eqb method "llm" then score_text_llm text_body 1000
  else if String.eqb method "hybrid" then
    let rule_result := score_text text_body in
    if (PrimFloat.leb hybrid_min_score (signal_score rule_result)
        || is_question rule_result || asks_recommendation rule_result)%bool
    then Ret rule_result
    else score_text_llm text_body 1000
  else Raise ValueError.

End Classifier.

(** ** Sample runtime, settings and provider replies for the examples *)

Definition demo_settings : Settings :=
  mkSettings "groq" "gsk_demo" "llama-3.3-70b-versatile" "llama3.2:1b".

(** The text of an object with the one key [signal_score]. *)
Definition score_only (n : string) : string :=
  cat ["{"; quoted "signal_score"; ": "; n; "}"].

Fixpoint zeros (n : nat) : string :=
  match n with O => EmptyString | S n' => String "0" (zeros n') end.

(** The decimal digits of [10 ^ 400]. *)
Definition big_int_digits : string := String "1" (zeros 400).

(** A complete reply: a question, score 0.5, one keyword. *)
Definition full_reply : string :=
  cat ["{"; quoted "is_question"; ": true, "; quoted "asks_recommendation"; ": false, ";
       quoted "mentions_cost"; ": false, "; quoted "mentions_platform"; ": false, ";
       quoted "signal_score"; ": 0.5, "; quoted "detected_keywords"; ": [";
       quoted "isa"; "]}"].

(** A decoder defined on the texts the examples use, where it agrees with
    [json.loads]; every other text is a decoding error. *)
Definition demo_loads (s : string) : decoded :=
  if String.eqb s (score_only "5") then Decoded [("signal_score", JInt 5)]
  else if String.eqb s (score_only big_int_digits)
  then Decoded [("signal_score", JInt (10 ^ 400))]
  else if String.eqb s (score_only "NaN") then Decoded [("signal_score", JFloat nan)]
  else if String.eqb s full_reply then
    Decoded [("is_question", JBool true); ("asks_recommendation", JBool false);
             ("mentions_cost", JBool false); ("mentions_platform", JBool false);
             ("signal_score", JFloat 0.5); ("detected_keywords", JList [JStr "isa"])]
  else if String.eqb s "{}" then Decoded []
  else JSONDecodeError.

Definition demo_runtime : runtime :=
  mkRuntime demo_loads (fun _ => None) (fun _ => EmptyString).

(** A platform that can wait for up to nine billion seconds. *)
Definition waits (secs : float) : bool := PrimFloat.ltb secs 9000000000.

(** A provider that answers every post with status 200 and the given
    completion. *)
Definition answering_value (content : json) : network :=
  mkNetwork (fun _ _ => Response 200 None (Some content)) waits.

Definition answering (content : string) : network := answering_value (JStr content).

(** A runtime whose [json.loads] finds an integer of too many digits in
    every text. *)
Definition long_integer_runtime : runtime :=
  mkRuntime (fun _ => IntegerTooLong) (fun _ => None) (fun _ => EmptyString).

(** A provider whose every call fails (timeout, transport error). *)
Definition unreachable : network := mkNetwork (fun _ _ => Failed) waits.

(** ** The database *)

Record Post : Type := mkPost {
  p_subreddit : string;
  p_title : option string;
  p_body : option string;
  p_created_utc : option Z;
  p_score : option Z
}.

Record Cluster : Type := mkCluster {
  c_label : option string
}.

Record Membership : Type := mkMembership {
  cm_content_type : string;
  cm_content_id : string;
  cm_cluster_id : Z;
  cm_probability : option float
}.

Record SignalRow : Type := mkSignalRow {
  s_post_id : string;
  s_is_question : bool;
  s_asks_recommendation : bool;
  s_mentions_cost : bool;
  s_mentions_platform : bool;
  s_signal_score : float;
  s_detected_keywords : list string;
  s_collected_at : Z
}.

Record WeeklyThemeStat : Type := mkWeeklyThemeStat {
  week_start : Z;
  cluster_id : Z;
  cluster_label : option string;
  doc_count : Z;
  signal_sum : float;
  avg_score : option float;
  growth_pct : option float;
  computed_at : Z
}.

(** The tables of [schema.py] the core reads and writes. A table that is
    only read through its primary key is the map from the key to the rest of
    the row: [posts] by [post_id], [clusters] by [cluster_id], [signals] by
    [(content_type, content_id)]. [cluster_membership] and
    [weekly_theme_stats] are scanned and are the lists of their rows, in the
    order in which a scan delivers them. PostgreSQL leaves that order open:
    two lists with the same rows in another order are the same table, scanned
    differently. *)
Record DB : Type := mkDB {
  posts : gmap string Post;
  clusters : gmap Z Cluster;
  cluster_membership : list Membership;
  signals : gmap (string * string) SignalRow;
  weekly_theme_stats : list WeeklyThemeStat
}.

(** ** score_signals.py: the signal store *)

Definition set_signals (db : DB) (s : gmap (string * string) SignalRow) : DB :=
  mkDB (posts db) (clusters db) (cluster_membership db) s (weekly_theme_stats db).

(** [INSERT INTO signals ... ON CONFLICT (content_type, content_id) DO UPDATE],
    run in a transaction started at [now]. The statement violates a
    constraint of the table ([IntegrityError]) when [content_type] is neither
    [post] nor [comment], and when a new row names a post that does not
    exist. *)
Definition _upsert_signal (now : Z) (db : DB)
  (content_type content_id post_id : string) (result : SignalResult) : outcome DB :=
  if negb (String.eqb content_type "post" || String.eqb content_type "comment")%bool
  then Err IntegrityError
  else
    match signals db !! (content_type, content_id) with
    | Some old =>
        Ok (set_signals db
              (<[(content_type, content_id) :=
                   mkSignalRow (s_post_id old)
                     (is_question result) (asks_recommendation result)
                     (mentions_cost result) (mentions_platform result)
                     (signal_score result) (detected_keywords result) now]>
                 (signals db)))
    | None =>
        match posts db !! post_id with
        | None => Err IntegrityError
        | Some _ =>
            Ok (set_signals db
                  (<[(content_type, content_id) :=
                       mkSignalRow post_id
                         (is_question result) (asks_recommendation result)
                         (mentions_cost result) (mentions_platform result)
                         (signal_score result) (detected_keywords result) now]>
                     (signals db)))
        end
    end.

(** ** trends.py: PostgreSQL arithmetic and dates *)

(** The binary64 nearest to the fraction [n / d] (ties to even). *)
Definition float_of_frac (n : Z) (d : positive) : float :=
  match n with
  | Z0 => 0%float
  | Zpos p => SF2Prim (SFdiv 53 1024 (S754_finite false p 0) (S754_finite false d 0))
  | Zneg p => SF2Prim (SFdiv 53 1024 (S754_finite true p 0) (S754_finite false d 0))
  end.

(** The cast of a [numeric] to [DOUBLE PRECISION]. *)
Definition float8_of_numeric (x : Q) : float := float_of_frac (Qnum x) (Qden x).

(** The integer nearest to [x], halves away from zero. *)
Definition round_half_away (x : Q) : Z :=
  let n := Qnum x in
  let d := Zpos (Qden x) in
  if Z.leb 0 n then (2 * n + d) / (2 * d) else - ((2 * (- n) + d) / (2 * d)).

(** [ROUND(x, digits)] on a [numeric]. *)
Definition sql_round (x : Q) (digits : nat) : Q :=
  let scale := Pos.pow 10 (Pos.of_nat digits) in
  match digits with
  | O => inject_Z (round_half_away x)
  | S _ => Qmake (round_half_away (Qmult x (inject_Z (Zpos scale)))) scale
  end.

Definition usec_per_day : Z := 86400000000.

(** [date_trunc('week', ts)::date]: the Monday of the week of [ts]. Day 0 of
    the epoch is a Thursday. *)
Definition week_of (ts : Z) : Z :=
  let day := ts / usec_per_day in
  day - (day + 3) mod 7.

(** [NOW() - INTERVAL 'n weeks']. *)
Definition weeks_before (now n : Z) : Z := now - n * 7 * usec_per_day.

(** [SUM] over [DOUBLE PRECISION] values, in the order of the scan: [None]
    over no value. *)
Definition float8_sum (xs : list float) : option float :=
  match xs with
  | [] => None
  | x :: xs' => Some (fold_left PrimFloat.add xs' x)
  end.

(** [AVG] over [DOUBLE PRECISION] values: the running sum, from 0, divided by
    the number of values. *)
Definition float8_avg (xs : list float) : option float :=
  match xs with
  | [] => None
  | _ =>
      Some (fold_left PrimFloat.add xs 0 / float_of_Z (Z.of_nat (List.length xs)))%float
  end.

(** [AVG] over [INTEGER] values, a [numeric], as stored in a
    [DOUBLE PRECISION] column. *)
Definition int_avg (xs : list Z) : option float :=
  match xs with
  | [] => None
  | _ =>
      Some (float8_of_numeric
              (Qmake (fold_left Z.add xs 0) (Pos.of_nat (List.length xs))))
  end.

(** ** trends.py: the weekly aggregation *)

Record TrendsResult : Type := mkTrendsResult {
  weeks_computed : Z;
  rows_inserted : Z
}.

(** A row of the join of [cluster_membership], [posts], [clusters] and
    (left) [signals]: the grouping columns and the aggregated ones. *)
Record Joined : Type := mkJoined {
  j_week : Z;
  j_cluster : Z;
  j_label : option string;
  j_signal : option float;
  j_score : option Z
}.

(** The joined row a membership row gives rise to, if it passes the join
    conditions and the [WHERE] clause. *)
Definition join_row (now lookback_weeks : Z) (db : DB) (cm : Membership) : option Joined :=
  if String.eqb (cm_content_type cm) "post" then
    match posts db !! cm_content_id cm with
    | None => None
    | Some p =>
        match clusters db !! cm_cluster_id cm with
        | None => None
        | Some c =>
            match p_created_utc p with
            | None => None
            | Some created_utc =>
                if (Z.leb (weeks_before now lookback_weeks) created_utc
                    && Z.leb 0 (cm_cluster_id cm))%bool
                then Some (mkJoined (week_of created_utc) (cm_cluster_id cm) (c_label c)
                             (s_signal_score <$> signals db !! ("post", cm_content_id cm))
                             (p_score p))
                else None
            end
        end
    end
  else None.

Definition joined (now lookback_weeks : Z) (db : DB) : list Joined :=
  omap (join_row now lookback_weeks db) (cluster_membership db).

(** A row of the CTE [weekly_docs]. *)
Record WeeklyDoc : Type := mkWeeklyDoc {
  wd_week_start : Z;
  wd_cluster_id : Z;
  wd_cluster_label : option string;
  wd_doc_count : Z;
  wd_signal_sum : float;
  wd_avg_score : option float
}.

Definition group_key (j : Joined) : Z * Z * option string :=
  (j_week j, j_cluster j, j_label j).

(** The aggregates of one group of [GROUP BY 1, 2, 3]. *)
Definition aggregate (rows : list Joined) (k : Z * Z * option string) : WeeklyDoc :=
  let members := filter (fun j => group_key j = k) rows in
  mkWeeklyDoc k.1.1 k.1.2 k.2
    (Z.of_nat (length members))
    (default 0%float (float8_sum (omap j_signal members)))
    (int_avg (omap j_score members)).

Definition weekly_docs (now lookback_weeks : Z) (db : DB) : list WeeklyDoc :=
  let rows := joined now lookback_weeks db in
  aggregate rows <$> remove_dups (group_key <$> rows).

(** [ORDER BY week_start] within a partition. *)
Fixpoint insert_by_week (x : WeeklyDoc) (l : list WeeklyDoc) : list WeeklyDoc :=
  match l with
  | [] => [x]
  | y :: l' =>
      if Z.ltb (wd_week_start x) (wd_week_start y) then x :: l
      else y :: insert_by_week x l'
  end.

Definition sort_by_week (l : list WeeklyDoc) : list WeeklyDoc :=
  List.fold_right insert_by_week [] l.

(** [LAG(doc_count)] along an ordered partition: every row with the
    [doc_count] of the row before it. *)
Fixpoint lag (prior_count : option Z) (l : list WeeklyDoc) : list (WeeklyDoc * option Z) :=
  match l with
  | [] => []
  | x :: l' => (x, prior_count) :: lag (Some (wd_doc_count x)) l'
  end.

(** The order of the rows of a partition. *)
Definition week_lt (a b : WeeklyDoc) : Prop := wd_week_start a < wd_week_start b.

(** The partition of cluster [c], ordered: [PARTITION BY cluster_id ORDER BY
    week_start]. *)
Definition partition_of (wd : list WeeklyDoc) (c : Z) : list WeeklyDoc :=
  sort_by_week (filter (fun r => wd_cluster_id r = c) wd).

(** The CTE [with_prior]. *)
Definition with_prior (wd : list WeeklyDoc) : list (WeeklyDoc * option Z) :=
  flat_map (fun c => lag None (partition_of wd c)) (remove_dups (wd_cluster_id <$> wd)).

(** The label the table [clusters] has for a cluster. *)
Definition label_of (db : DB) (c : Z) : option string :=
  match clusters db !! c with
  | Some cl => c_label cl
  | None => None
  end.

(** The [CASE] expression of [growth_pct]. *)
Definition growth (doc_count : Z) (prior_count : option Z) : option float :=
  match prior_count with
  | None => None
  | Some prior_count =>
      if Z.eqb prior_count 0 then None
      else Some (float8_of_numeric
                   (sql_round
                      (Qmult (Qdiv (inject_Z (doc_count - prior_count)) (inject_Z prior_count))
                         (inject_Z 100)) 1))
  end.

Definition stat_of (now : Z) (row : WeeklyDoc * option Z) : WeeklyThemeStat :=
  let (wd, prior_count) := row in
  mkWeeklyThemeStat (wd_week_start wd) (wd_cluster_id wd) (wd_cluster_label wd)
    (wd_doc_count wd) (wd_signal_sum wd) (wd_avg_score wd)
    (growth (wd_doc_count wd) prior_count) now.

Definition set_weekly_theme_stats (db : DB) (t : list WeeklyThemeStat) : DB :=
  mkDB (posts db) (clusters db) (cluster_membership db) (signals db) t.

(** [compute_weekly_trends], run at [now]: the table is emptied and filled
    with the rows computed from the other tables. *)
Definition compute_weekly_trends (now : Z) (db : DB) (lookback_weeks : Z)
  : DB * TrendsResult :=
  let db := set_weekly_theme_stats db [] in
  let rows := stat_of now <$> with_prior (weekly_docs now lookback_weeks db) in
  let db := set_weekly_theme_stats db (weekly_theme_stats db ++ rows) in
  let rows_inserted := Z.of_nat (length rows) in
  let weeks := Z.of_nat (length (remove_dups (week_start <$> weekly_theme_stats db))) in
  (db, mkTrendsResult weeks rows_inserted).

(** ** The statement of week-over-week growth *)

(** [p] is the row of the week that immediately precedes the week of [r]
    among the rows of [table] for the cluster of [r]. *)
Definition preceding_week (table : list WeeklyThemeStat) (r p : WeeklyThemeStat) : Prop :=
  p ∈ table /\ cluster_id p = cluster_id r /\ week_start p < week_start r /\
  forall q, q ∈ table -> cluster_id q = cluster_id r -> week_start q < week_start r ->
            week_start q <= week_start p.

(** [round(((doc_count - prior_count) / prior_count) * 100, 1)], as the
    column stores it. *)
Definition growth_formula (doc_count prior_count : Z) : float :=
  float8_of_numeric
    (sql_round
       (Qmult (Qdiv (inject_Z (doc_count - prior_count)) (inject_Z prior_count))
          (inject_Z 100)) 1).

(** The rows of [cluster_membership] and of [signals] that are about posts. *)
Definition is_post_membership (cm : Membership) : Prop := cm_content_type cm = "post".

Definition is_post_signal (kv : string * string * SignalRow) : Prop := kv.1.1 = "post".

(** ** trends.py: trending themes *)

(** The order of [DOUBLE PRECISION] values in [ORDER BY]: NaN is above every
    other value. *)
Definition float8_lt (a b : float) : bool :=
  if PrimFloat.is_nan a then false
  else if PrimFloat.is_nan b then true
  else PrimFloat.ltb a b.

(** The integer nearest to [n / d] for [n >= 0], halves to even. *)
Definition round_half_even (n : Z) (d : positive) : Z :=
  let q := n / Zpos d in
  let r := n mod Zpos d in
  match Z.compare (2 * r) (Zpos d) with
  | Lt => q
  | Gt => q + 1
  | Eq => if Z.even q then q else q + 1
  end.

(** [round(x, ndigits)] on a float: the float nearest to the decimal with
    [ndigits] places nearest to [x]. *)
Definition py_round (x : float) (ndigits : nat) : float :=
  match Prim2SF x with
  | S754_finite s m e =>
      let scale := Pos.pow 10 (Pos.of_nat ndigits) in
      let scale := match ndigits with O => 1%positive | S _ => scale end in
      let k :=
        match e with
        | Zneg p => round_half_even (Zpos m * Zpos scale) (Pos.pow 2 p)
        | _ => Zpos m * 2 ^ e * Zpos scale
        end in
      if Z.eqb k 0 then (if s then (- 0)%float else 0%float)
      else float_of_frac (if s then - k else k) scale
  | _ => x
  end.

(** The truth value of a float. *)
Definition float_truthy (x : float) : bool := negb (PrimFloat.eqb x 0).

(** A row of the CTE [recent] with its [trend_score]. *)
Record RecentRow : Type := mkRecentRow {
  r_cluster_id : Z;
  r_cluster_label : option string;
  r_total_docs : Z;
  r_avg_signal : option float;
  r_avg_growth : option float;
  r_trend_score : float
}.

Definition theme_key (s : WeeklyThemeStat) : Z * option string :=
  (cluster_id s, cluster_label s).

Definition recent_row (rows : list WeeklyThemeStat) (k : Z * option string) : RecentRow :=
  let members := filter (fun s => theme_key s = k) rows in
  let total_docs := fold_left Z.add (doc_count <$> members) 0 in
  let avg_signal := float8_avg (signal_sum <$> members) in
  let avg_growth := float8_avg (omap growth_pct members) in
  mkRecentRow k.1 k.2 total_docs avg_signal avg_growth
    (default 0%float avg_growth + float8_of_numeric (Qmult (inject_Z total_docs) (1 # 2)))%float.

(** [ORDER BY trend_score DESC]; rows of equal score keep their order. *)
Fixpoint insert_by_score (x : RecentRow) (l : list RecentRow) : list RecentRow :=
  match l with
  | [] => [x]
  | y :: l' =>
      if float8_lt (r_trend_score y) (r_trend_score x) then x :: l
      else y :: insert_by_score x l'
  end.

Definition sort_by_score (l : list RecentRow) : list RecentRow :=
  List.fold_right insert_by_score [] l.

(** [a] ranks at least as high as [b]: its score is not below that of [b]. *)
Definition ranks_above (a b : RecentRow) : Prop :=
  float8_lt (r_trend_score a) (r_trend_score b) = false.

(** The rows the query of [get_trending_themes] returns, before [LIMIT]. *)
Definition trending_rows (now : Z) (db : DB) (weeks min_docs : Z) : list RecentRow :=
  let rows :=
    filter (fun s => weeks_before now weeks <= week_start s * usec_per_day)
      (weekly_theme_stats db) in
  let recent := recent_row rows <$> remove_dups (theme_key <$> rows) in
  let recent := filter (fun r => min_docs <= r_total_docs r) recent in
  sort_by_score recent.

(** An entry of the list [get_trending_themes] returns. *)
Record TrendingTheme : Type := mkTrendingTheme {
  t_cluster_id : Z;
  t_label : option string;
  t_total_docs : Z;
  t_avg_signal : float;
  t_avg_growth : option float;
  t_trend_score : float
}.

Definition or_zero (x : option float) : float :=
  match x with
  | Some v => if float_truthy v then v else 0%float
  | None => 0%float
  end.

Definition trending_theme (r : RecentRow) : TrendingTheme :=
  mkTrendingTheme (r_cluster_id r) (r_cluster_label r) (r_total_docs r)
    (py_round (or_zero (r_avg_signal r)) 2)
    (match r_avg_growth r with
     | Some g => if float_truthy g then Some (py_round (or_zero (r_avg_growth r)) 1) else None
     | None => None
     end)
    (py_round (or_zero (Some (r_trend_score r))) 2).

(** [get_trending_themes], run at [now]. A negative [limit] is rejected by
    the database ([DataError]). *)
Definition get_trending_themes (now : Z) (db : DB) (weeks min_docs limit : Z)
  : outcome (list TrendingTheme) :=
  if Z.ltb limit 0 then Err DataError
  else Ok (trending_theme <$> firstn (Z.to_nat limit) (trending_rows now db weeks min_docs)).

(** ** Sample data for the examples *)

(** A Monday (2024-09-30), as a day number. *)
Definition first_monday : Z := 19996.

Definition post_id_of (week index : nat) : string :=
  String (ascii_of_nat (65 + week)) (String (ascii_of_nat (97 + index)) EmptyString).

(** [count] posts created in the week number [week] after [first_monday]. *)
Definition week_posts (week count : nat) : list (string * Post) :=
  (fun i =>
     (post_id_of week i,
      mkPost "UKPersonalFinance" None None
        (Some ((first_monday + 7 * Z.of_nat week) * usec_per_day + 1)) (Some 1)))
  <$> seq 0 count.

(** A database with one cluster whose posts number [counts] over consecutive
    weeks, every post a member of the cluster, and nothing scored. *)
Definition counts_db (counts : list nat) : DB :=
  let ps := concat (imap week_posts counts) in
  mkDB (list_to_map ps) {[ 1 := mkCluster (Some "isa") ]}
    ((fun kv => mkMembership "post" kv.1 1 None) <$> ps) ∅ [].

(** Three weeks after [first_monday]. *)
Definition demo_now : Z := (first_monday + 21) * usec_per_day.

Definition comment_row : SignalRow :=
  mkSignalRow "Aa" true true true true 1%float ["question"] 0.

(** [counts_db [2; 3]] with a comment added as a member of the cluster and
    scored. *)
Definition commented_db : DB :=
  let db := counts_db [2%nat; 3%nat] in
  mkDB (posts db) (clusters db)
    (mkMembership "comment" "c1" 1 None :: mkMembership "comment" "Aa" 1 None
       :: cluster_membership db)
    (<[("comment", "Aa") := comment_row]> (<[("comment", "c1") := comment_row]> (signals db)))
    [].

(** Three posts of one week and one cluster, scored 0.1, 0.2 and 0.3, their
    memberships scanned in the order [ids]. *)
Definition scan_db (ids : list string) : DB :=
  let db := counts_db [3%nat] in
  mkDB (posts db) (clusters db)
    ((fun id => mkMembership "post" id 1 None) <$> ids)
    (list_to_map
       [(("post", "Aa"), mkSignalRow "Aa" false false false false 0.1 [] 0);
        (("post", "Ab"), mkSignalRow "Ab" false false false false 0.2 [] 0);
        (("post", "Ac"), mkSignalRow "Ac" false false false false 0.3 [] 0)])
    [].

(** [s] ends with the character [c]. *)
Fixpoint ends_with (c : ascii) (s : string) : bool :=
  match s with
  | EmptyString => false
  | String d EmptyString => Ascii.eqb c d
  | String _ s' => ends_with c s'
  end.

(** ** What a computation does on the network *)

Inductive event : Type :=
| Posted (rq : request)
| Slept (secs : float).

(** The posts and the calls of [time.sleep] of a computation run against
    [net], in order. *)
Fixpoint trace {A : Type} (net : network) (n : nat) (m : io A) : list event :=
  match m with
  | Ret _ | Raise _ => []
  | HttpPost rq k => Posted rq :: trace net (S n) (k (net n rq))
  | Sleep secs k => Slept secs :: trace net n (k (sleep_returns net secs))
  end.

Definition sleeps (t : list event) : list float :=
  omap (fun e => match e with Slept secs => Some secs | Posted _ => None end) t.

Definition posted (t : list event) : list request :=
  omap (fun e => match e with Posted rq => Some rq | Slept _ => None end) t.

(** The waits [min(2 ** attempt * 2, 60)] of [count] attempts from
    [attempt] on. *)
Fixpoint backoff_schedule (attempt : Z) (count : nat) : list float :=
  match count with
  | O => []
  | S count' =>
      float_of_Z (Z.min (2 ^ attempt * 2) 60) :: backoff_schedule (attempt + 1) count'
  end.

(** A provider that answers every post with a rate limit and no header. *)
Definition rate_limited : network := mkNetwork (fun _ _ => Response 429 None None) waits.

(** The reply carries no usable [retry-after] header. *)
Definition no_retry_after (r : reply) : Prop :=
  match r with
  | Response _ (Some (String _ _)) _ => False
  | _ => True
  end.

(** The reply is neither a success nor a rate limit: the call failed, or the
    status is an error other than 429. *)
Definition hard_failure (r : reply) : Prop :=
  match r with
  | Failed => True
  | Response status _ _ => status <> 429 /\ is_success status = false
  end.

(** ** Keys and dates of the weekly table *)

(** The primary key of a row of [weekly_theme_stats]. *)
Definition stat_key (r : WeeklyThemeStat) : Z * Z := (week_start r, cluster_id r).

(** The sum of a column of integers. *)
Definition sum_Z (l : list Z) : Z := fold_left Z.add l 0.

(** [date.min] and [date.max], as day numbers: 0001-01-01 and 9999-12-31. *)
Definition date_min : Z := -719162.
Definition date_max : Z := 2932896.

(** [d.weekday()]: 0 for a Monday. Day 0 of the epoch is a Thursday. *)
Definition weekday (d : Z) : Z := (d + 3) mod 7.

(** [d - timedelta(days=n)]: a result out of the range of [date] raises
    [OverflowError]. *)
Definition date_sub_days (d n : Z) : outcome Z :=
  if (Z.leb date_min (d - n) && Z.leb (d - n) date_max)%bool then Ok (d - n)
  else Err OverflowError.

(** [_monday_of_week]. *)
Definition _monday_of_week (d : Z) : outcome Z := date_sub_days d (weekday d).

(** ** The constraints of the signal store *)

(** The constraints of the table [signals]: the [CHECK] on [content_type]
    and the reference of [post_id] to [posts]. *)
Definition signals_consistent (db : DB) : Prop :=
  forall content_type content_id row,
    signals db !! (content_type, content_id) = Some row ->
    (content_type = "post" \/ content_type = "comment") /\
    is_Some (posts db !! s_post_id row).

(** ** score_signals.py: the batch *)

(** The columns of [comments] that [score_signals] reads, by [comment_id]. *)
Record Comment : Type := mkComment {
  cmt_post_id : string;
  cmt_body : option string;
  cmt_created_utc : option Z
}.

Record ScoreSignalsResult : Type := mkScoreSignalsResult {
  posts_scored : Z;
  comments_scored : Z
}.

(** A row of one of the two [SELECT]s of [score_signals]: the id of the
    content, the post it belongs to, the text to score, and the column the
    rows are ordered by. *)
Record ToScore : Type := mkToScore {
  ts_content_id : string;
  ts_post_id : string;
  ts_text : option string;
  ts_created_utc : option Z
}.

(** [ORDER BY created_utc DESC NULLS LAST]: a row created at [a] goes before
    one created at [b]. *)
Definition newer (a b : option Z) : bool :=
  match a, b with
  | Some x, Some y => Z.ltb y x
  | Some _, None => true
  | None, _ => false
  end.

(** Rows created at the same instant keep the order of the scan;
    PostgreSQL leaves their order open. *)
Fixpoint insert_by_created (x : ToScore) (l : list ToScore) : list ToScore :=
  match l with
  | [] => [x]
  | y :: l' =>
      if newer (ts_created_utc x) (ts_created_utc y) then x :: l
      else y :: insert_by_created x l'
  end.

Definition sort_by_created (l : list ToScore) : list ToScore :=
  List.fold_right insert_by_created [] l.

(** [NOT EXISTS (SELECT 1 FROM signals s WHERE s.content_type = ... AND
    s.content_id = ...)]. *)
Definition unscored (db : DB) (content_type content_id : string) : bool :=
  match signals db !! (content_type, content_id) with
  | Some _ => false
  | None => true
  end.

(** The posts to score, before [LIMIT]. *)
Definition post_to_score (db : DB) (subreddit : string) (force : bool) (kv : string * Post)
  : option ToScore :=
  if (String.eqb (p_subreddit kv.2) subreddit && (force || unscored db "post" kv.1))%bool
  then Some (mkToScore kv.1 kv.1
               (Some (cat [or_empty (p_title kv.2); nl; nl; or_empty (p_body kv.2)]))
               (p_created_utc kv.2))
  else None.

Definition post_rows (db : DB) (subreddit : string) (force : bool) : list ToScore :=
  sort_by_created (omap (post_to_score db subreddit force) (map_to_list (posts db))).

(** The comments to score, before [LIMIT]: those of a post of the subreddit. *)
Definition comment_to_score (db : DB) (subreddit : string) (force : bool) (kv : string * Comment)
  : option ToScore :=
  match posts db !! cmt_post_id kv.2 with
  | Some p =>
      if (String.eqb (p_subreddit p) subreddit && (force || unscored db "comment" kv.1))%bool
      then Some (mkToScore kv.1 (cmt_post_id kv.2) (cmt_body kv.2) (cmt_created_utc kv.2))
      else None
  | None => None
  end.

Definition comment_rows (db : DB) (comments : gmap string Comment) (subreddit : string)
  (force : bool) : list ToScore :=
  sort_by_created (omap (comment_to_score db subreddit force) (map_to_list comments)).

(** The largest [bigint], the type of [LIMIT]. *)
Definition bigint_max : Z := 9223372036854775807.

(** [LIMIT :limit]: a negative limit, and one that is no [bigint], is
    rejected by the database ([DataError]). *)
Definition limit_rejected (limit : Z) : bool :=
  (Z.ltb limit 0 || Z.ltb bigint_max limit)%bool.

Definition limited (limit : Z) (rows : list ToScore) : io (list ToScore) :=
  if limit_rejected limit then Raise DataError
  else Ret (firstn (Z.to_nat limit) rows).

(** The key under which the signal of a fetched row is stored. *)
Definition signal_key (content_type : string) (row : ToScore) : string * string :=
  (content_type, ts_content_id row).

Section Batch.

Variable rt : runtime.
Variable settings : Settings.

(** The loop over the fetched rows: each is scored and stored. *)
Fixpoint score_rows (now : Z) (content_type method : string) (hybrid_min_score : float)
  (rows : list ToScore) (db : DB) : io DB :=
  match rows with
  | [] => Ret db
  | row :: rows' =>
      let* result :=
        _score_text_with_method rt settings (ts_text row) method hybrid_min_score in
      let* db :=
        lift (_upsert_signal now db content_type (ts_content_id row) (ts_post_id row)
                result) in
      score_rows now content_type method hybrid_min_score rows' db
  end.

(** [score_signals], in a transaction started at [now]; an exception leaves
    the database as it was. *)
Definition score_signals (now : Z) (db : DB) (comments : gmap string Comment)
  (subreddit scope : string) (limit_posts limit_comments : Z) (force : bool)
  (method : string) (hybrid_min_score : float) : io (DB * ScoreSignalsResult) :=
  let* after_posts :=
    if (String.eqb scope "posts" || String.eqb scope "both")%bool then
      let* rows := limited limit_posts (post_rows db subreddit force) in
      let* db := score_rows now "post" method hybrid_min_score rows db in
      Ret (db, Z.of_nat (length rows))
    else Ret (db, 0) in
  let* after_comments :=
    if (String.eqb scope "comments" || String.eqb scope "both")%bool then
      let* rows :=
        limited limit_comments (comment_rows after_posts.1 comments subreddit force) in
      let* db := score_rows now "comment" method hybrid_min_score rows after_posts.1 in
      Ret (db, Z.of_nat (length rows))
    else Ret (after_posts.1, 0) in
  Ret (after_comments.1, mkScoreSignalsResult after_posts.2 after_comments.2).

End Batch.

(** The result a row of [signals] stores. *)
Definition stored_result (row : SignalRow) : SignalResult :=
  mkSignalResult (s_is_question row) (s_asks_recommendation row) (s_mentions_cost row)
    (s_mentions_platform row) (s_signal_score row) (s_detected_keywords row).

(** The rows the two loops of [score_signals] go through. *)
Definition posts_to_score (db : DB) (subreddit scope : string) (limit_posts : Z)
  (force : bool) : list ToScore :=
  if (String.eqb scope "posts" || String.eqb scope "both")%bool
  then firstn (Z.to_nat limit_posts) (post_rows db subreddit force)
  else [].

Definition comments_to_score (db : DB) (comments : gmap string Comment)
  (subreddit scope : string) (limit_comments : Z) (force : bool) : list ToScore :=
  if (String.eqb scope "comments" || String.eqb scope "both")%bool
  then firstn (Z.to_nat limit_comments) (comment_rows db comments subreddit force)
  else [].

(** A limit the database accepts. *)
Definition valid_limit (limit : Z) : Prop := 0 <= limit <= bigint_max.

Definition has_posts (scope : string) : bool :=
  (String.eqb scope "posts" || String.eqb scope "both")%bool.

Definition has_comments (scope : string) : bool :=
  (String.eqb scope "comments" || String.eqb scope "both")%bool.

(** Two posts of one subreddit, one of another, and two comments, nothing
    scored. *)
Definition forum_db : DB :=
  mkDB
    (list_to_map
       [("p1", mkPost "UKPersonalFinance" (Some "Which ISA?") (Some "Fees matter.")
                 (Some 200) (Some 3));
        ("p2", mkPost "UKPersonalFinance" (Some "Payday") None (Some 100) (Some 1));
        ("p3", mkPost "FIREUK" (Some "Any advice?") None (Some 300) (Some 2))])
    ∅ [] ∅ [].

Definition forum_comments : gmap string Comment :=
  list_to_map
    [("c1", mkComment "p1" (Some "Try Monzo") (Some 250));
     ("c2", mkComment "p3" (Some "Why?") None)].

(** * Properties *)

(** ** The rule scorer *)

(** Two floats that a comparison tells apart are different. *)
Ltac float_neq :=
  let H := fresh in
  intro H;
  first
    [ apply (f_equal (fun x => PrimFloat.ltb 0 x)) in H; vm_compute in H; discriminate H
    | apply (f_equal (fun x => PrimFloat.ltb x 1)) in H; vm_compute in H; discriminate H ].

Lemma lstrip_blank (s : string) :
  Text.all Text.isspace s = true -> Text.lstrip s = "".
Proof.
  induction s as [|c s IH]; simpl; [reflexivity|].
  intros H. apply andb_prop in H as [Hc Hs]. rewrite Hc. auto.
Qed.

Lemma strip_blank (s : string) :
  Text.all Text.isspace s = true -> Text.strip s = "".
Proof. intros H. unfold Text.strip. rewrite (lstrip_blank s H). reflexivity. Qed.

(** C9. The rule scorer is a total function; on [None] and on every string
    made of whitespace only (the empty string included) it returns all four
    flags false, the score 0.0 and no keyword. *)
Theorem score_text_blank :
  score_text None = blank_result /\
  forall s : string, Text.all Text.isspace s = true -> score_text (Some s) = blank_result.
Proof.
  split; [reflexivity|].
  intros s H. destruct s as [|c s]; [reflexivity|].
  unfold score_text. rewrite (strip_blank _ H). vm_compute. reflexivity.
Qed.

Lemma score_text_blank_witness :
  Text.all Text.isspace (String " " (String (ascii_of_N 9) (String (ascii_of_N 160) ""))) = true /\
  score_text (Some (String " " (String (ascii_of_N 9) (String (ascii_of_N 160) "")))) = blank_result.
Proof.
  split; [reflexivity|].
  apply (proj2 score_text_blank). reflexivity.
Defined.

(** The arithmetic of the scorer on the sixteen flag combinations. *)
Lemma rule_score_cases (q r c p : bool) :
  let s := py_min 1 (0 + (if q then 0.35 else 0) + (if r then 0.35 else 0)
                       + (if c then 0.2 else 0) + (if p then 0.2 else 0))%float in
  s = weighted_sum_capped q r c p /\
  in_unit_interval s = true /\
  (s = 0%float <-> q = false /\ r = false /\ c = false /\ p = false) /\
  (s = 1%float <-> q = true /\ r = true /\ c = true /\ p = true).
Proof.
  destruct q, r, c, p; vm_compute;
    (split; [reflexivity | split; [reflexivity | split; split]]);
    try (intros (? & ? & ? & ?); discriminate);
    try (intros _; repeat split; reflexivity);
    try float_neq.
Qed.

(** The result of the rule scorer carries the score of its own flags. *)
Lemma score_text_flags (text : option string) :
  let r := score_text text in
  signal_score r =
    py_min 1 (0 + (if is_question r then 0.35 else 0)
                + (if asks_recommendation r then 0.35 else 0)
                + (if mentions_cost r then 0.2 else 0)
                + (if mentions_platform r then 0.2 else 0))%float.
Proof. destruct text as [[|ch s]|]; reflexivity. Qed.

(** C2. The score of the rule scorer is the sum of the weights 0.35, 0.35,
    0.2, 0.2 of the flags that hold, capped at 1.0; it lies in [0, 1], is 0.0
    exactly when no flag holds and 1.0 exactly when all four hold. *)
Theorem score_text_weighted_sum (text : option string) :
  let r := score_text text in
  signal_score r =
    weighted_sum_capped (is_question r) (asks_recommendation r)
      (mentions_cost r) (mentions_platform r) /\
  in_unit_interval (signal_score r) = true /\
  (signal_score r = 0%float <->
     is_question r = false /\ asks_recommendation r = false /\
     mentions_cost r = false /\ mentions_platform r = false) /\
  (signal_score r = 1%float <->
     is_question r = true /\ asks_recommendation r = true /\
     mentions_cost r = true /\ mentions_platform r = true).
Proof.
  intros r. subst r. rewrite (score_text_flags text). apply rule_score_cases.
Qed.

(** ** The provider call *)

Lemma run_bind {A B : Type} (net : network) (m : io A) (f : A -> io B) :
  forall n : nat,
    run net n (bind m f) =
      match run net n m with
      | (Ok a, n') => run net n' (f a)
      | (Err e, n') => (Err e, n')
      end.
Proof.
  induction m as [a|e|rq k IH|secs k IH]; intros n; simpl.
  - reflexivity.
  - reflexivity.
  - apply IH.
  - apply IH.
Qed.

Section ProviderCall.

Variable rt : runtime.
Variable settings : Settings.
Variable net : network.

Lemma call_ollama_returns (prompt model : string) (timeout : float) (n : nat) :
  exists response n', run net n (call_ollama prompt model timeout) = (Ok response, n').
Proof.
  unfold call_ollama. simpl.
  destruct (net n _) as [|status ra [c|]]; simpl; eauto.
  - destruct (is_success status); simpl; eauto.
  - destruct (is_success status); simpl; eauto.
Qed.

Lemma groq_attempts_returns (prompt model : string) (timeout : float) (remaining : nat) :
  forall (attempt : Z) (n : nat),
  exists response n',
    run net n (groq_attempts rt settings remaining attempt prompt model timeout)
    = (Ok response, n').
Proof.
  induction remaining as [|rest IH]; intros attempt n; simpl; eauto.
  destruct (net n _) as [|status ra content]; simpl; eauto.
  destruct (Z.eqb status 429).
  - destruct ra as [[|c h]|]; simpl; try (destruct (sleep_returns net _); simpl; eauto).
    destruct (float_of_str rt (String c h)); simpl; eauto.
    destruct (sleep_returns net _); simpl; eauto.
  - destruct (is_success status); simpl; eauto.
    destruct content; simpl; eauto.
Qed.

(** Whatever the provider does, [call_llm] returns: the completion of a
    reply or [None]. *)
Lemma call_llm_returns (prompt : string) (timeout : float) (n : nat) :
  exists response n', run net n (call_llm rt settings prompt timeout) = (Ok response, n').
Proof.
  unfold call_llm, call_groq.
  destruct (String.eqb (llm_provider settings) "groq").
  - destruct (groq_api_key settings).
    + apply call_ollama_returns.
    + apply groq_attempts_returns.
  - apply call_ollama_returns.
Qed.

End ProviderCall.

(** ** Normalising a reply *)

Lemma score_from_flags_unit (q r c p : bool) :
  in_unit_interval (score_from_flags q r c p) = true.
Proof. destruct q, r, c, p; reflexivity. Qed.

(** The helper modelled from the specification computes the score of the
    rule scorer. *)
Lemma score_from_flags_weighted (q r c p : bool) :
  score_from_flags q r c p = weighted_sum_capped q r c p.
Proof. destruct q, r, c, p; reflexivity. Qed.

Section Normalize.

Variable rt : runtime.

(** What the conversion of the score can raise. *)
Lemma py_float_errors (v : json) (e : exn) :
  py_float rt v = Err e -> e = TypeError \/ e = ValueError \/ e = OverflowError.
Proof.
  destruct v as [|b|z|f|s|l|d]; simpl; try (intros [= <-]; auto); try discriminate.
  - unfold float_of_int. destruct (PrimFloat.eqb _ _); [intros [= <-]; auto | discriminate].
  - destruct (float_of_str rt s); [discriminate | intros [= <-]; auto].
Qed.

(** [_normalize_payload] on every payload whose score converts: the score is
    recomputed from the flags when the conversion raises [TypeError] or
    [ValueError] and when the converted score is below 0 or above 1, and is
    the converted score otherwise. *)
Lemma normalize_payload_score (data : dict) :
  match py_float rt (get data "signal_score") with
  | Err OverflowError =>
      _normalize_payload rt data = Err OverflowError
  | Err _ =>
      exists r, _normalize_payload rt data = Ok r /\ signal_score r = coerced_score data
  | Ok f =>
      exists r, _normalize_payload rt data = Ok r /\
        signal_score r =
          if (PrimFloat.ltb f 0 || PrimFloat.ltb 1 f)%bool then coerced_score data else f
  end.
Proof.
  unfold _normalize_payload, coerced_score.
  destruct (py_float rt (get data "signal_score")) as [f|e] eqn:E.
  - eexists; split; [reflexivity|]. reflexivity.
  - destruct (py_float_errors _ _ E) as [-> | [-> | ->]].
    + eexists; split; [reflexivity|]. simpl.
      destruct (_ || _)%bool; reflexivity.
    + eexists; split; [reflexivity|]. simpl. destruct (_ || _)%bool; reflexivity.
    + reflexivity.
Qed.

Lemma normalize_payload_err (data : dict) (e : exn) :
  _normalize_payload rt data = Err e ->
  e = OverflowError /\ py_float rt (get data "signal_score") = Err OverflowError.
Proof.
  intros H. pose proof (normalize_payload_score data) as S.
  destruct (py_float rt (get data "signal_score")) as [f|e'] eqn:F.
  - destruct S as (r & Hr & _). congruence.
  - destruct (py_float_errors _ _ F) as [-> | [-> | ->]].
    + destruct S as (r & Hr & _). congruence.
    + destruct S as (r & Hr & _). congruence.
    + rewrite S in H. injection H as <-. auto.
Qed.

(** What [_extract_json] raises is what [json.loads] raises and
    [except json.JSONDecodeError] does not name. *)
Lemma extract_json_err (response : string) (e : exn) :
  _extract_json rt response = Err e -> e = ValueError \/ e = RecursionError.
Proof.
  unfold _extract_json. destruct response as [|c s]; [discriminate|].
  destruct (search_object _) as [text|]; [|discriminate].
  destruct (json_loads rt text); try discriminate; intros [= <-]; auto.
Qed.

Lemma parse_some_unit (response : string) (p : SignalResult) :
  parse_llm_signal_response rt response = Ok (Some p) ->
  in_unit_interval (signal_score p) = true.
Proof.
  unfold parse_llm_signal_response.
  destruct (_extract_json rt response) as [[[|kv d]|]|e]; try discriminate.
  destruct (_normalize_payload rt (kv :: d)) as [n|e]; try discriminate.
  unfold LLMSignalResponse. destruct (in_unit_interval (signal_score n)) eqn:U; try discriminate.
  intros [= <-]. exact U.
Qed.

(** When [parse_llm_signal_response] raises: [json.loads] raised, or the
    score is an integer too large for a float. *)
Lemma parse_err_cases (response : string) (e : exn) :
  parse_llm_signal_response rt response = Err e ->
  (decodes rt response = false /\ (e = ValueError \/ e = RecursionError)) \/
  (score_converts rt response = false /\ e = OverflowError).
Proof.
  unfold parse_llm_signal_response, decodes, score_converts.
  destruct (_extract_json rt response) as [[[|kv d]|]|e0] eqn:X; try discriminate.
  - destruct (_normalize_payload rt (kv :: d)) as [n|e'] eqn:N; try discriminate.
    intros [= <-]. right. destruct (normalize_payload_err _ _ N) as [-> F].
    rewrite F. auto.
  - intros [= <-]. left. split; [reflexivity | apply (extract_json_err _ _ X)].
Qed.

(** When no payload comes out of a reply. *)
Lemma parse_none_cases (response : string) :
  parse_llm_signal_response rt response = Ok None <->
  _extract_json rt response = Ok None \/
  _extract_json rt response = Ok (Some []) \/
  exists data normalized,
    _extract_json rt response = Ok (Some data) /\
    _normalize_payload rt data = Ok normalized /\
    in_unit_interval (signal_score normalized) = false.
Proof.
  unfold parse_llm_signal_response, LLMSignalResponse.
  destruct (_extract_json rt response) as [[[|kv d]|]|e].
  - split; auto.
  - split.
    + destruct (_normalize_payload rt (kv :: d)) as [n|e] eqn:N; [|discriminate].
      destruct (in_unit_interval (signal_score n)) eqn:U; [discriminate|].
      intros _. right. right. exists (kv :: d), n. auto.
    + intros [H|[H|(data & n & [= <-] & N & U)]]; try discriminate.
      rewrite N, U. reflexivity.
  - split; auto.
  - split; [discriminate|].
    intros [H|[H|(data & n & H & _)]]; discriminate.
Qed.

End Normalize.

Lemma normalize_payload_keywords (rt : runtime) (data : dict) (r : SignalResult) :
  _normalize_payload rt data = Ok r ->
  dict_get "detected_keywords" data = None \/
  dict_get "detected_keywords" data = Some (JList []) ->
  detected_keywords r =
    _keywords_from_flags (is_question r) (asks_recommendation r)
      (mentions_cost r) (mentions_platform r).
Proof.
  unfold _normalize_payload. intros H K.
  destruct (match py_float rt (get data "signal_score") with
            | Ok f => Ok f
            | Err TypeError | Err ValueError => Ok _
            | Err e => Err e
            end) as [f|e]; [|discriminate].
  assert (E : List.map (py_str rt) (List.filter json_truthy
                match dict_get "detected_keywords" data with
                | None => []
                | Some (JStr s) =>
                    List.map JStr (List.map Text.strip
                      (List.filter (fun k => negb (String.eqb (Text.strip k) ""))
                         (split_keywords s)))
                | Some (JList l) => l
                | Some _ => []
                end) = []) by (destruct K as [-> | ->]; reflexivity).
  rewrite E in H. injection H as <-. reflexivity.
Qed.

(** C5. A reply whose [signal_score] is the integer [10 ^ 400], a number
    outside [0, 1], is not normalised to the score recomputed from the flags:
    the conversion [float(signal_score)] raises [OverflowError], which the
    [except (TypeError, ValueError)] clause does not catch. (For every payload
    whose score converts, [normalize_payload_score] and
    [normalize_payload_keywords] give the replacement and the synthesis.) *)
Theorem normalize_payload_overflow (rt : runtime) :
  _normalize_payload rt [("signal_score", JInt (10 ^ 400))] = Err OverflowError.
Proof. vm_compute. reflexivity. Qed.

(** A NaN score is neither below 0 nor above 1: the normalisation keeps it,
    and the validation that follows rejects the payload. *)
Lemma normalize_payload_nan (rt : runtime) :
  exists r, _normalize_payload rt [("signal_score", JFloat nan)] = Ok r /\
    PrimFloat.eqb (signal_score r) (signal_score r) = false /\
    LLMSignalResponse r = None.
Proof. eexists; split; [vm_compute; reflexivity|]. split; reflexivity. Qed.

(** ** The classifier and its fallback *)

Section Fallback.

Variable rt : runtime.
Variable settings : Settings.
Variable net : network.

Lemma score_text_unit (text : option string) :
  in_unit_interval (signal_score (score_text text)) = true.
Proof. rewrite (score_text_flags text). apply rule_score_cases. Qed.

(** C4 (amended). Whatever the provider does, [call_llm] returns: the
    completion of a reply or [None]. If that completion is a text, or there
    is none, if [json.loads] decodes the object found in it or rejects it
    with [JSONDecodeError], and if the reply does not carry an integer too
    large for a float as its [signal_score], then [score_text_llm] returns a
    result whose score lies in [0, 1]; the result is the rule scorer's for the
    same text whenever no payload comes out of the reply (the provider failed,
    no object is found, decoding fails, the object is empty, or validation
    rejects the score), and is the normalised payload otherwise. *)
Theorem score_text_llm_fallback (text : option string) (max_chars : nat) :
  let t := or_empty text in
  let prompt := SIGNAL_PROMPT (snippet_of t max_chars) in
  (forall n, exists response n',
      run net n (call_llm rt settings prompt 30) = (Ok response, n')) /\
  (forall n response reply n',
      run net n (call_llm rt settings prompt 30) = (Ok response, n') ->
      or_empty_text response = JStr reply ->
      decodes rt reply = true ->
      score_converts rt reply = true ->
      exists r n'',
        run net n (score_text_llm rt settings text max_chars) = (Ok r, n'') /\
        in_unit_interval (signal_score r) = true /\
        (parse_llm_signal_response rt reply = Ok None -> r = score_text text) /\
        (forall p, Text.strip t <> "" ->
           parse_llm_signal_response rt reply = Ok (Some p) -> r = p)).
Proof.
  intros t prompt. split; [intros n; apply call_llm_returns|].
  intros n response reply n' Hcall Htext Hdec Hconv.
  assert (Hblank : exists r n'', (@Ok SignalResult (score_text text), n) = (Ok r, n'') /\
              in_unit_interval (signal_score r) = true /\
              (parse_llm_signal_response rt reply = Ok None -> r = score_text text)).
  { exists (score_text text), n. repeat split. apply score_text_unit. }
  unfold score_text_llm.
  destruct text as [[|c s]|]; simpl in t.
  - destruct Hblank as (r & k & E & U & F). exists r, k. repeat split; auto.
    intros p Hne. exfalso. apply Hne. reflexivity.
  - destruct (Text.strip (String c s)) as [|c' s'] eqn:St.
    + simpl. destruct Hblank as (r & k & E & U & F). exists r, k.
      repeat split; auto. intros p Hne. exfalso. apply Hne. subst t. exact St.
    + rewrite run_bind. subst prompt t. rewrite Hcall. rewrite run_bind.
      unfold parse_response. rewrite Htext.
      destruct (parse_llm_signal_response rt reply) as [[p|]|e] eqn:P; simpl.
      * exists p, n'. repeat split.
        -- eapply parse_some_unit; eauto.
        -- discriminate.
        -- intros p' _ [= <-]. reflexivity.
      * exists (score_text (Some (String c s))), n'. repeat split.
        -- apply score_text_unit.
        -- intros p' _ [=].
      * destruct (parse_err_cases _ _ _ P) as [[D _]|[C _]]; congruence.
  - destruct Hblank as (r & k & E & U & F). exists r, k. repeat split; auto.
    intros p Hne. exfalso. apply Hne. reflexivity.
Qed.

End Fallback.

Lemma score_text_llm_fallback_witness :
  run (answering full_reply) 0
    (call_llm demo_runtime demo_settings (SIGNAL_PROMPT (snippet_of "why" 1000)) 30)
    = (Ok (JStr full_reply), 1%nat) /\
  decodes demo_runtime full_reply = true /\
  score_converts demo_runtime full_reply = true /\
  exists r n,
    run (answering full_reply) 0
      (score_text_llm demo_runtime demo_settings (Some "why") 1000) = (Ok r, n) /\
    in_unit_interval (signal_score r) = true.
Proof.
  split; [vm_compute; reflexivity|]. split; [vm_compute; reflexivity|].
  split; [vm_compute; reflexivity|].
  destruct (proj2 (score_text_llm_fallback demo_runtime demo_settings
                     (answering full_reply) (Some "why") 1000)
              0%nat (JStr full_reply) full_reply 1%nat)
    as (r & n & E & U & _).
  - vm_compute. reflexivity.
  - vm_compute. reflexivity.
  - vm_compute. reflexivity.
  - vm_compute. reflexivity.
  - exists r, n. split; assumption.
Defined.

(** C4 (as stated) fails: on the reply [{"signal_score": 5}], which lacks
    every flag, the classifier does not fall back to the rule scorer; it
    returns the payload normalised in place, all flags false and score 0.0,
    although the rule scorer finds a question in the text. *)
Lemma score_text_llm_missing_fields_no_fallback :
  run (answering (score_only "5")) 0
    (score_text_llm demo_runtime demo_settings (Some "why?") 1000)
    = (Ok (mkSignalResult false false false false 0%float []), 1%nat) /\
  score_text (Some "why?") = mkSignalResult true false false false 0.35%float ["question"] /\
  mkSignalResult false false false false 0%float [] <> score_text (Some "why?").
Proof.
  split; [vm_compute; reflexivity|]. split; [vm_compute; reflexivity|].
  intros H. apply (f_equal is_question) in H. vm_compute in H. discriminate H.
Qed.

(** The same classifier raises on the reply [{"signal_score": 10^400}]. *)
Lemma score_text_llm_overflow_raises :
  run (answering (score_only big_int_digits)) 0
    (score_text_llm demo_runtime demo_settings (Some "why?") 1000)
    = (Err OverflowError, 1%nat).
Proof. vm_compute. reflexivity. Qed.

(** It raises as well when [json.loads] raises something else than
    [JSONDecodeError], and when the completion is no text. *)
Lemma score_text_llm_loads_raises :
  run (answering "{}") 0 (score_text_llm long_integer_runtime demo_settings (Some "why?") 1000)
  = (Err ValueError, 1%nat).
Proof. vm_compute. reflexivity. Qed.

Lemma score_text_llm_non_text_raises :
  run (answering_value (JInt 5)) 0
    (score_text_llm demo_runtime demo_settings (Some "why?") 1000)
  = (Err AttributeError, 1%nat).
Proof. vm_compute. reflexivity. Qed.

(** A provider that cannot be reached gives the rule scorer's result. *)
Lemma score_text_llm_unreachable (rt : runtime) (settings : Settings)
  (text : option string) (max_chars : nat) :
  fst (run unreachable 0 (score_text_llm rt settings text max_chars)) = Ok (score_text text).
Proof.
  unfold score_text_llm.
  destruct text as [[|c s]|]; try reflexivity.
  destruct (Text.strip (String c s)) as [|c' s']; try reflexivity.
  rewrite run_bind. unfold call_llm, call_groq, call_ollama.
  destruct (String.eqb (llm_provider settings) "groq");
    [destruct (groq_api_key settings)|]; reflexivity.
Qed.

(** ** The hybrid policy *)

(** The decision of the method [hybrid]: the rule scorer runs first. When
    its score reaches [hybrid_min_score], or it finds a question or a request
    for a recommendation, its result is returned as it is; otherwise the
    outcome is that of the LLM classifier on the same text. *)
Lemma hybrid_policy (rt : runtime) (settings : Settings) (text_body : option string)
  (hybrid_min_score : float) :
  let rule_result := score_text text_body in
  let confident :=
    (PrimFloat.leb hybrid_min_score (signal_score rule_result)
     || is_question rule_result || asks_recommendation rule_result)%bool in
  _score_text_with_method rt settings text_body "hybrid" hybrid_min_score =
    (if confident then Ret rule_result else score_text_llm rt settings text_body 1000) /\
  (confident = true ->
     forall net n,
       run net n (_score_text_with_method rt settings text_body "hybrid" hybrid_min_score)
       = (Ok rule_result, n)) /\
  (confident = false ->
     forall net n,
       run net n (_score_text_with_method rt settings text_body "hybrid" hybrid_min_score)
       = run net n (score_text_llm rt settings text_body 1000)).
Proof.
  intros rule_result confident.
  assert (E : _score_text_with_method rt settings text_body "hybrid" hybrid_min_score =
              if confident then Ret rule_result
              else score_text_llm rt settings text_body 1000) by reflexivity.
  split; [exact E|]. rewrite E.
  split; intros -> net n; reflexivity.
Qed.

(** ** The signal store *)

(** C8. Two successive upserts under one key: the second succeeds when the
    first did, and then the stored row carries the flags, the score and the
    keywords of the second call and the time of the second write; the rows
    under every other key, and every other table, are as before the two
    calls. *)
Theorem upsert_last_write_wins (now1 now2 : Z) (db db1 : DB)
  (content_type content_id post_id1 post_id2 : string) (result1 result2 : SignalResult) :
  _upsert_signal now1 db content_type content_id post_id1 result1 = Ok db1 ->
  exists db2 row,
    _upsert_signal now2 db1 content_type content_id post_id2 result2 = Ok db2 /\
    signals db2 !! (content_type, content_id) = Some row /\
    mkSignalResult (s_is_question row) (s_asks_recommendation row) (s_mentions_cost row)
      (s_mentions_platform row) (s_signal_score row) (s_detected_keywords row) = result2 /\
    s_collected_at row = now2 /\
    (forall k, k <> (content_type, content_id) -> signals db2 !! k = signals db !! k) /\
    posts db2 = posts db /\ clusters db2 = clusters db /\
    cluster_membership db2 = cluster_membership db /\
    weekly_theme_stats db2 = weekly_theme_stats db.
Proof.
  unfold _upsert_signal. intros H1.
  destruct (negb _) eqn:Hck; [discriminate|].
  assert (Hstored : exists old,
            signals db1 !! (content_type, content_id) = Some old /\
            (forall k, k <> (content_type, content_id) ->
                       signals db1 !! k = signals db !! k) /\
            posts db1 = posts db /\ clusters db1 = clusters db /\
            cluster_membership db1 = cluster_membership db /\
            weekly_theme_stats db1 = weekly_theme_stats db).
  { destruct (signals db !! (content_type, content_id)) as [old|].
    - injection H1 as <-. eexists. simpl. split; [apply lookup_insert_eq|].
      repeat split. intros k Hk. apply lookup_insert_ne. congruence.
    - destruct (posts db !! post_id1); [|discriminate].
      injection H1 as <-. eexists. simpl. split; [apply lookup_insert_eq|].
      repeat split. intros k Hk. apply lookup_insert_ne. congruence. }
  destruct Hstored as (old & Hold & Hother & Hp & Hc & Hm & Hw).
  rewrite Hold. eexists. eexists. split; [reflexivity|]. simpl.
  split; [apply lookup_insert_eq|]. simpl.
  split; [destruct result2; reflexivity|].
  split; [reflexivity|].
  split; [|auto].
  intros k Hk. rewrite lookup_insert_ne by congruence. auto.
Qed.

Lemma upsert_last_write_wins_witness :
  let db := counts_db [1%nat] in
  let r1 := score_text (Some "why?") in
  let r2 := score_text (Some "monzo fees") in
  exists db1 db2 row,
    _upsert_signal 100 db "post" "Aa" "Aa" r1 = Ok db1 /\
    _upsert_signal 200 db1 "post" "Aa" "Aa" r2 = Ok db2 /\
    signals db2 !! ("post", "Aa") = Some row /\
    s_signal_score row = signal_score r2 /\ s_collected_at row = 200.
Proof.
  intros db r1 r2.
  destruct (_upsert_signal 100 db "post" "Aa" "Aa" r1) as [db1|e] eqn:E1;
    [|vm_compute in E1; discriminate E1].
  destruct (upsert_last_write_wins 100 200 db db1 "post" "Aa" "Aa" "Aa" r1 r2 E1)
    as (db2 & row & E2 & L & F & T & _).
  exists db1, db2, row. repeat split; try assumption.
  apply (f_equal signal_score) in F. exact F.
Defined.

(** ** Weekly trends: inputs *)

(** C7 (amended). A run deletes the table and recomputes it from the
    inputs: whatever rows [weekly_theme_stats] held, the table and the counts
    after a run at [now] are those that [posts], [clusters],
    [cluster_membership] and [signals] determine, and the run changes none of
    these. So a second run at the same instant, which finds the same inputs
    scanned in the same order, leaves the table of the first. *)
Theorem compute_weekly_trends_idempotent (now : Z) (db db' : DB) (lookback_weeks : Z) :
  posts db' = posts db ->
  clusters db' = clusters db ->
  cluster_membership db' = cluster_membership db ->
  signals db' = signals db ->
  let first := compute_weekly_trends now db lookback_weeks in
  let second := compute_weekly_trends now first.1 lookback_weeks in
  compute_weekly_trends now db' lookback_weeks = first /\
  weekly_theme_stats second.1 = weekly_theme_stats first.1 /\
  second = first /\
  posts first.1 = posts db /\ clusters first.1 = clusters db /\
  cluster_membership first.1 = cluster_membership db /\ signals first.1 = signals db.
Proof.
  intros Hp Hc Hm Hs first second.
  split; [|repeat split].
  subst first. destruct db as [p c m s t], db' as [p' c' m' s' t'].
  cbn [posts clusters cluster_membership signals] in Hp, Hc, Hm, Hs. subst.
  reflexivity.
Qed.

Lemma compute_weekly_trends_idempotent_witness :
  let db := counts_db [10; 5; 20]%nat in
  let stale := [mkWeeklyThemeStat 0 7 None 99 0%float None None 0] in
  let first := compute_weekly_trends demo_now db 12 in
  weekly_theme_stats (set_weekly_theme_stats db stale) <> weekly_theme_stats db /\
  compute_weekly_trends demo_now (set_weekly_theme_stats db stale) 12 = first /\
  compute_weekly_trends demo_now first.1 12 = first /\
  doc_count <$> weekly_theme_stats first.1 = [10; 5; 20].
Proof.
  intros db stale first.
  split; [discriminate|].
  destruct (compute_weekly_trends_idempotent demo_now db (set_weekly_theme_stats db stale) 12
              eq_refl eq_refl eq_refl eq_refl) as (R & _ & I & _).
  split; [exact R|]. split; [exact I|]. vm_compute. reflexivity.
Defined.

(** C7 (as stated) fails when the second run scans the memberships in
    another order: the table holds the same rows, and [signal_sum], a sum of
    floats taken in the order of the scan, differs in its last bit. *)
Lemma weekly_trends_scan_order :
  let db1 := scan_db ["Aa"; "Ab"; "Ac"] in
  let db2 := scan_db ["Ac"; "Ab"; "Aa"] in
  posts db2 = posts db1 /\ clusters db2 = clusters db1 /\ signals db2 = signals db1 /\
  cluster_membership db2 = reverse (cluster_membership db1) /\
  signal_sum <$> weekly_theme_stats (compute_weekly_trends demo_now db1 12).1
    = [0.6000000000000001%float] /\
  signal_sum <$> weekly_theme_stats (compute_weekly_trends demo_now db2 12).1
    = [0.6%float] /\
  weekly_theme_stats (compute_weekly_trends demo_now db2 12).1
    <> weekly_theme_stats (compute_weekly_trends demo_now db1 12).1.
Proof.
  intros db1 db2.
  assert (S1 : signal_sum <$> weekly_theme_stats (compute_weekly_trends demo_now db1 12).1
               = [0.6000000000000001%float]) by (vm_compute; reflexivity).
  assert (S2 : signal_sum <$> weekly_theme_stats (compute_weekly_trends demo_now db2 12).1
               = [0.6%float]) by (vm_compute; reflexivity).
  do 4 (split; [reflexivity|]). split; [exact S1|]. split; [exact S2|].
  intros E.
  pose proof (eq_trans (eq_sym S2) (eq_trans (f_equal (fmap signal_sum) E) S1)) as F.
  apply (f_equal (fun l => match l with x :: _ => PrimFloat.eqb x 0.6 | [] => false end)) in F.
  vm_compute in F. discriminate F.
Qed.

Lemma omap_filter_None {A B : Type} (f : A -> option B) (P : A -> Prop)
  `{!forall x, Decision (P x)} (l : list A) :
  (forall x, ~ P x -> f x = None) -> omap f (filter P l) = omap f l.
Proof.
  intros Hf. induction l as [|x l IH]; [reflexivity|].
  destruct (decide (P x)) as [Hx|Hx].
  - rewrite filter_cons_True by exact Hx. simpl. destruct (f x); [f_equal|]; exact IH.
  - rewrite filter_cons_False by exact Hx. simpl. rewrite (Hf x Hx). exact IH.
Qed.

Lemma join_row_not_post (now lookback_weeks : Z) (db : DB) (cm : Membership) :
  cm_content_type cm <> "post" -> join_row now lookback_weeks db cm = None.
Proof.
  intros H. unfold join_row.
  destruct (String.eqb (cm_content_type cm) "post") eqn:E; [|reflexivity].
  apply String.eqb_eq in E. contradiction.
Qed.

Lemma lookup_post_signal (m : gmap (string * string) SignalRow) (content_id : string) :
  filter is_post_signal m !! ("post", content_id) = m !! ("post", content_id).
Proof.
  destruct (m !! ("post", content_id)) as [row|] eqn:E.
  - apply map_lookup_filter_Some_2; [exact E | reflexivity].
  - apply map_lookup_filter_None_2. left. exact E.
Qed.

Lemma joined_post_rows (now lookback_weeks : Z) (db db' : DB) :
  posts db = posts db' ->
  clusters db = clusters db' ->
  filter is_post_membership (cluster_membership db)
    = filter is_post_membership (cluster_membership db') ->
  filter is_post_signal (signals db) = filter is_post_signal (signals db') ->
  joined now lookback_weeks db = joined now lookback_weeks db'.
Proof.
  intros Hp Hc Hm Hs. unfold joined.
  rewrite <- (omap_filter_None (join_row now lookback_weeks db) is_post_membership
                (cluster_membership db))
    by (intros cm; apply join_row_not_post).
  rewrite <- (omap_filter_None (join_row now lookback_weeks db') is_post_membership
                (cluster_membership db'))
    by (intros cm; apply join_row_not_post).
  rewrite Hm. apply list_omap_ext, Forall_Forall2_diag, Forall_true.
  intros cm. unfold join_row. rewrite Hp, Hc.
  rewrite <- (lookup_post_signal (signals db)), <- (lookup_post_signal (signals db')), Hs.
  reflexivity.
Qed.

(** C10. The rows of a run are determined by the posts, the clusters, the
    memberships of content type [post] and the signals of content type
    [post]: two databases that agree on these (and differ in their comments,
    in the memberships of comments and in the signals of comments) get the
    same table and the same counts. *)
Theorem comments_never_contribute (now lookback_weeks : Z) (db db' : DB) :
  posts db = posts db' ->
  clusters db = clusters db' ->
  filter is_post_membership (cluster_membership db)
    = filter is_post_membership (cluster_membership db') ->
  filter is_post_signal (signals db) = filter is_post_signal (signals db') ->
  weekly_theme_stats (compute_weekly_trends now db lookback_weeks).1
    = weekly_theme_stats (compute_weekly_trends now db' lookback_weeks).1 /\
  (compute_weekly_trends now db lookback_weeks).2
    = (compute_weekly_trends now db' lookback_weeks).2.
Proof.
  intros Hp Hc Hm Hs.
  assert (J : joined now lookback_weeks (set_weekly_theme_stats db [])
              = joined now lookback_weeks (set_weekly_theme_stats db' []))
    by (apply joined_post_rows; assumption).
  unfold compute_weekly_trends, weekly_docs. cbn zeta. rewrite J. split; reflexivity.
Qed.

Lemma comments_never_contribute_witness :
  cluster_membership commented_db <> cluster_membership (counts_db [2%nat; 3%nat]) /\
  weekly_theme_stats (compute_weekly_trends demo_now commented_db 12).1
    = weekly_theme_stats (compute_weekly_trends demo_now (counts_db [2%nat; 3%nat]) 12).1.
Proof.
  split; [discriminate|].
  apply (comments_never_contribute demo_now 12 commented_db (counts_db [2%nat; 3%nat])).
  - reflexivity.
  - reflexivity.
  - vm_compute. reflexivity.
  - vm_compute. reflexivity.
Defined.

(** ** Trending themes *)

(** C6. A cluster with five posts in each of two weeks has one week with a
    computable growth, 0.0; the mean of its growth values is 0.0, and
    [get_trending_themes] reports its [avg_growth] as null: the test
    [if r.avg_growth] takes the mean 0.0 for a missing one. *)
Theorem trending_zero_growth_reported_null :
  let db := (compute_weekly_trends demo_now (counts_db [5%nat; 5%nat]) 12).1 in
  growth_pct <$> weekly_theme_stats db = [None; Some 0%float] /\
  r_avg_growth <$> trending_rows demo_now db 4 2 = [Some 0%float] /\
  get_trending_themes demo_now db 4 2 10
    = Ok [mkTrendingTheme 1 (Some "isa") 10 0%float None 5%float].
Proof. vm_compute. repeat split. Qed.

(** The other parts of the ranking: a cluster below [min_docs] is left out,
    and at most [limit] entries are returned. *)
Lemma trending_rows_min_docs (now : Z) (db : DB) (weeks min_docs : Z) (r : RecentRow) :
  r ∈ trending_rows now db weeks min_docs -> min_docs <= r_total_docs r.
Proof.
  unfold trending_rows.
  set (recent := filter (fun r => min_docs <= r_total_docs r) _).
  assert (S : forall l x, x ∈ sort_by_score l -> x ∈ l).
  { induction l as [|y l IH]; simpl; intros x Hx; [exact Hx|].
    assert (I : forall l' a x, x ∈ insert_by_score a l' -> x = a \/ x ∈ l').
    { clear. induction l' as [|z l' IH]; simpl; intros a x Hx.
      - apply list_elem_of_singleton in Hx. auto.
      - destruct (float8_lt (r_trend_score z) (r_trend_score a)).
        + apply elem_of_cons in Hx. exact Hx.
        + apply elem_of_cons in Hx as [->|Hx]; [right; left|].
          destruct (IH _ _ Hx) as [->|Hin]; [auto | right; right; exact Hin]. }
    destruct (I _ _ _ Hx) as [->|Hin]; [left | right; auto]. }
  intros Hr. apply S in Hr. subst recent.
  apply list_elem_of_filter in Hr. apply Hr.
Qed.

Lemma get_trending_themes_limit (now : Z) (db : DB) (weeks min_docs limit : Z)
  (themes : list TrendingTheme) :
  get_trending_themes now db weeks min_docs limit = Ok themes ->
  Z.of_nat (length themes) <= limit.
Proof.
  unfold get_trending_themes. destruct (Z.ltb limit 0) eqn:L; [discriminate|].
  intros [= <-]. rewrite length_fmap, length_firstn. apply Z.ltb_ge in L. lia.
Qed.

(** The order of [ORDER BY] is asymmetric, so the rows come out with no row
    above one that ranks strictly higher. *)
Lemma SFltb_asym (x y : spec_float) : SFltb x y = true -> SFltb y x = false.
Proof.
  unfold SFltb, SFcompare.
  destruct x as [sx|sx| |sx mx ex], y as [sy|sy| |sy my ey];
    try destruct sx; try destruct sy; try discriminate; try reflexivity.
  all: rewrite (Z.compare_antisym ex ey);
    destruct (Z.compare ex ey); simpl; try discriminate; try reflexivity;
    pose proof (Pos.compare_cont_antisym mx my Eq) as A; simpl in A; rewrite <- A;
    destruct (Pos.compare_cont Eq mx my); simpl; try discriminate; reflexivity.
Qed.

Lemma float8_lt_asym (a b : float) : float8_lt a b = true -> float8_lt b a = false.
Proof.
  unfold float8_lt.
  destruct (PrimFloat.is_nan a) eqn:Na; [discriminate|].
  destruct (PrimFloat.is_nan b) eqn:Nb; [reflexivity|].
  rewrite !ltb_spec. apply SFltb_asym.
Qed.

Lemma insert_by_score_sorted (x : RecentRow) (l : list RecentRow) :
  Sorted ranks_above l -> Sorted ranks_above (insert_by_score x l).
Proof.
  induction 1 as [|y l Hs IH Hy]; simpl.
  - repeat constructor.
  - destruct (float8_lt (r_trend_score y) (r_trend_score x)) eqn:E.
    + constructor; [constructor; assumption|].
      constructor. unfold ranks_above. apply float8_lt_asym. exact E.
    + constructor; [exact IH|].
      destruct l as [|z l]; simpl.
      * constructor. exact E.
      * destruct (float8_lt (r_trend_score z) (r_trend_score x)).
        -- constructor. exact E.
        -- constructor. inversion Hy; assumption.
Qed.

Lemma trending_rows_sorted (now : Z) (db : DB) (weeks min_docs : Z) :
  Sorted ranks_above (trending_rows now db weeks min_docs).
Proof.
  unfold trending_rows, sort_by_score.
  generalize (filter (fun r => min_docs <= r_total_docs r)
                (recent_row
                   (filter (fun s => weeks_before now weeks <= week_start s * usec_per_day)
                      (weekly_theme_stats db)) <$>
                 remove_dups
                   (theme_key <$>
                    filter (fun s => weeks_before now weeks <= week_start s * usec_per_day)
                      (weekly_theme_stats db)))).
  intros l. induction l as [|x l IH]; simpl; [constructor|].
  apply insert_by_score_sorted. exact IH.
Qed.


(** ** Weekly trends: the lag over a partition *)

Lemma elem_of_insert_by_week (x y : WeeklyDoc) (l : list WeeklyDoc) :
  y ∈ insert_by_week x l <-> y = x \/ y ∈ l.
Proof.
  induction l as [|z l IH]; simpl.
  - rewrite list_elem_of_singleton. rewrite elem_of_nil. tauto.
  - destruct (Z.ltb (wd_week_start x) (wd_week_start z)).
    + rewrite elem_of_cons. tauto.
    + rewrite !elem_of_cons, IH. tauto.
Qed.

Lemma elem_of_sort_by_week (y : WeeklyDoc) (l : list WeeklyDoc) :
  y ∈ sort_by_week l <-> y ∈ l.
Proof.
  induction l as [|x l IH]; simpl; [tauto|].
  rewrite elem_of_insert_by_week, elem_of_cons, IH. tauto.
Qed.

Lemma insert_by_week_sorted (x : WeeklyDoc) (l : list WeeklyDoc) :
  StronglySorted week_lt l ->
  (forall y, y ∈ l -> wd_week_start y <> wd_week_start x) ->
  StronglySorted week_lt (insert_by_week x l).
Proof.
  induction 1 as [|z l Hs IH Hz]; intros Hne; simpl.
  - repeat constructor.
  - rewrite Forall_forall in Hz.
    destruct (Z.ltb (wd_week_start x) (wd_week_start z)) eqn:E.
    + apply Z.ltb_lt in E. constructor.
      * constructor; [exact Hs | apply Forall_forall; exact Hz].
      * apply Forall_forall. intros y Hy. apply elem_of_cons in Hy as [->|Hy]; [exact E|].
        specialize (Hz y Hy). unfold week_lt in *. lia.
    + apply Z.ltb_ge in E.
      assert (wd_week_start z <> wd_week_start x) by (apply Hne; left).
      constructor.
      * apply IH. intros y Hy. apply Hne. right. exact Hy.
      * apply Forall_forall. intros y Hy. apply elem_of_insert_by_week in Hy as [->|Hy].
        -- unfold week_lt. lia.
        -- apply Hz. exact Hy.
Qed.

Lemma sort_by_week_sorted (l : list WeeklyDoc) :
  NoDup (wd_week_start <$> l) -> StronglySorted week_lt (sort_by_week l).
Proof.
  induction l as [|x l IH]; simpl; intros Hnd.
  - constructor.
  - apply NoDup_cons in Hnd as [Hx Hnd].
    apply insert_by_week_sorted; [apply IH; exact Hnd|].
    intros y Hy Heq. apply Hx. rewrite elem_of_sort_by_week in Hy.
    rewrite <- Heq. apply list_elem_of_fmap_2. exact Hy.
Qed.

(** Along a partition in strictly increasing order of weeks, [lag] gives a
    row no prior count when it is the first of the partition, and otherwise
    the count of the latest row before it. *)
Lemma lag_preceding (l : list WeeklyDoc) :
  forall prev : option WeeklyDoc,
    StronglySorted week_lt l ->
    (forall p y, prev = Some p -> y ∈ l -> week_lt p y) ->
    forall x prior, (x, prior) ∈ lag (wd_doc_count <$> prev) l ->
      x ∈ l /\
      match prior with
      | None => prev = None /\ forall y, y ∈ l -> wd_week_start x <= wd_week_start y
      | Some d =>
          exists p, (prev = Some p \/ p ∈ l) /\ d = wd_doc_count p /\ week_lt p x /\
            forall q, q ∈ l -> week_lt q x -> wd_week_start q <= wd_week_start p
      end.
Proof.
  induction l as [|h t IH]; intros prev Hs Hprev x prior Hin; simpl in Hin.
  - apply elem_of_nil in Hin. contradiction.
  - apply StronglySorted_inv in Hs as [Hst Hh]. rewrite Forall_forall in Hh.
    apply elem_of_cons in Hin as [Heq|Hin].
    + injection Heq as -> ->. split; [left|].
      destruct prev as [p|]; simpl.
      * exists p. split; [left; reflexivity|]. split; [reflexivity|].
        split; [apply (Hprev p h); [reflexivity | left]|].
        intros q Hq Hlt. exfalso. apply elem_of_cons in Hq as [->|Hq].
        -- unfold week_lt in Hlt. lia.
        -- specialize (Hh q Hq). unfold week_lt in *. lia.
      * split; [reflexivity|]. intros y Hy. apply elem_of_cons in Hy as [->|Hy]; [lia|].
        specialize (Hh y Hy). unfold week_lt in Hh. lia.
    + destruct (IH (Some h) Hst) with (x := x) (prior := prior) as [Hx Hp].
      * intros p y [= <-] Hy. apply Hh. exact Hy.
      * exact Hin.
      * split; [right; exact Hx|].
        destruct prior as [d|].
        -- destruct Hp as (p & Hp & Hd & Hlt & Hmax).
           exists p. split; [right; destruct Hp as [[= <-]|Hp]; [left | right; exact Hp]|].
           split; [exact Hd|]. split; [exact Hlt|].
           intros q Hq Hqx. apply elem_of_cons in Hq as [->|Hq]; [|apply Hmax; assumption].
           destruct Hp as [[= <-]|Hp]; [lia|].
           specialize (Hh p Hp). unfold week_lt in Hh. lia.
        -- destruct Hp as [Hp _]. discriminate Hp.
Qed.

(** Every row of a partition appears in its lag. *)
Lemma lag_covers (l : list WeeklyDoc) :
  forall (prior_count : option Z) (x : WeeklyDoc),
    x ∈ l -> exists prior, (x, prior) ∈ lag prior_count l.
Proof.
  induction l as [|h t IH]; intros prior_count x Hx.
  - apply elem_of_nil in Hx. contradiction.
  - apply elem_of_cons in Hx as [->|Hx]; simpl.
    + exists prior_count. left.
    + destruct (IH (Some (wd_doc_count h)) x Hx) as [prior Hp].
      exists prior. right. exact Hp.
Qed.

Lemma lag_elem (l : list WeeklyDoc) :
  forall (prior_count : option Z) (x : WeeklyDoc) (prior : option Z),
    (x, prior) ∈ lag prior_count l -> x ∈ l.
Proof.
  induction l as [|h t IH]; simpl; intros o x prior Hin.
  - apply elem_of_nil in Hin. contradiction.
  - apply elem_of_cons in Hin as [[= -> _]|Hin]; [left | right; eauto].
Qed.

Lemma elem_of_with_prior (wd : list WeeklyDoc) (x : WeeklyDoc) (prior : option Z) :
  (x, prior) ∈ with_prior wd <->
  x ∈ wd /\ (x, prior) ∈ lag None (partition_of wd (wd_cluster_id x)).
Proof.
  unfold with_prior. rewrite list_elem_of_In, in_flat_map. split.
  - intros (c & Hc & Hin). apply list_elem_of_In in Hin.
    pose proof (lag_elem _ _ _ _ Hin) as Hx.
    unfold partition_of in Hx. rewrite elem_of_sort_by_week, list_elem_of_filter in Hx.
    destruct Hx as [Hcx Hx].
    rewrite Hcx. split; assumption.
  - intros [Hx Hin]. exists (wd_cluster_id x). split; [|apply list_elem_of_In; exact Hin].
    apply list_elem_of_In, elem_of_remove_dups, list_elem_of_fmap_2. exact Hx.
Qed.

(** ** Weekly trends: one row per cluster and week *)

Section WeeklyRows.

Variable now : Z.
Variable db : DB.
Variable lookback_weeks : Z.

Lemma joined_label (j : Joined) :
  j ∈ joined now lookback_weeks db -> j_label j = label_of db (j_cluster j).
Proof.
  unfold joined. rewrite list_elem_of_omap. intros (cm & _ & Hj).
  unfold join_row, label_of in *.
  destruct (String.eqb _ _); [|discriminate].
  destruct (posts db !! _) as [p|]; [|discriminate].
  destruct (clusters db !! cm_cluster_id cm) as [c|] eqn:Hc; [|discriminate].
  destruct (p_created_utc p); [|discriminate].
  destruct (_ && _)%bool; [|discriminate].
  injection Hj as <-. simpl. rewrite Hc. reflexivity.
Qed.

Lemma weekly_docs_label (a : WeeklyDoc) :
  a ∈ weekly_docs now lookback_weeks db ->
  wd_cluster_label a = label_of db (wd_cluster_id a).
Proof.
  unfold weekly_docs. rewrite list_elem_of_fmap. intros (k & -> & Hk).
  apply elem_of_remove_dups, list_elem_of_fmap in Hk as (j & -> & Hj).
  simpl. apply joined_label. exact Hj.
Qed.

(** The rows of [weekly_docs] of one cluster and one week are one row. *)
Lemma weekly_docs_unique (a b : WeeklyDoc) :
  a ∈ weekly_docs now lookback_weeks db ->
  b ∈ weekly_docs now lookback_weeks db ->
  wd_week_start a = wd_week_start b ->
  wd_cluster_id a = wd_cluster_id b ->
  a = b.
Proof.
  intros Ha Hb Hw Hc.
  pose proof (weekly_docs_label a Ha) as La. pose proof (weekly_docs_label b Hb) as Lb.
  unfold weekly_docs in Ha, Hb.
  apply list_elem_of_fmap in Ha as (ka & -> & _).
  apply list_elem_of_fmap in Hb as (kb & -> & _).
  destruct ka as [[wa ca] la], kb as [[wb cb] lb]. simpl in *.
  subst. reflexivity.
Qed.

Lemma weekly_docs_NoDup : NoDup (weekly_docs now lookback_weeks db).
Proof.
  unfold weekly_docs. apply NoDup_fmap_2_strong; [|apply NoDup_remove_dups].
  intros [[wa ca] la] [[wb cb] lb] _ _ H.
  injection H as -> -> -> _ _ _. reflexivity.
Qed.

Lemma partition_weeks_NoDup (c : Z) :
  NoDup (wd_week_start <$>
           filter (fun r => wd_cluster_id r = c) (weekly_docs now lookback_weeks db)).
Proof.
  apply NoDup_fmap_2_strong; [|apply NoDup_filter, weekly_docs_NoDup].
  intros x y Hx Hy Hw.
  apply list_elem_of_filter in Hx as [Hcx Hx]. apply list_elem_of_filter in Hy as [Hcy Hy].
  apply weekly_docs_unique; congruence.
Qed.

End WeeklyRows.

(** ** Weekly trends: growth *)

Section Growth.

Variable now : Z.
Variable db : DB.
Variable lookback_weeks : Z.

Let wd : list WeeklyDoc := weekly_docs now lookback_weeks db.
Let table : list WeeklyThemeStat := stat_of now <$> with_prior wd.

Lemma computed_table :
  weekly_theme_stats (compute_weekly_trends now db lookback_weeks).1 = table.
Proof. reflexivity. Qed.

Lemma elem_of_table (r : WeeklyThemeStat) :
  r ∈ table <->
  exists x prior, r = stat_of now (x, prior) /\ x ∈ wd /\
    (x, prior) ∈ lag None (partition_of wd (wd_cluster_id x)).
Proof.
  unfold table. rewrite list_elem_of_fmap. split.
  - intros ([x prior] & -> & Hin). apply elem_of_with_prior in Hin. eauto.
  - intros (x & prior & -> & Hx & Hin). exists (x, prior). split; [reflexivity|].
    apply elem_of_with_prior. auto.
Qed.

(** Every row of [weekly_docs] has its row in the table. *)
Lemma table_covers (y : WeeklyDoc) :
  y ∈ wd -> exists prior, stat_of now (y, prior) ∈ table.
Proof.
  intros Hy.
  destruct (lag_covers (partition_of wd (wd_cluster_id y)) None y) as [prior Hp].
  - unfold partition_of. rewrite elem_of_sort_by_week, list_elem_of_filter. auto.
  - exists prior. apply elem_of_table. eauto.
Qed.

(** The prior count of a row is the count of the week that precedes it. *)
Lemma prior_is_preceding (x : WeeklyDoc) (prior : option Z) :
  x ∈ wd ->
  (x, prior) ∈ lag None (partition_of wd (wd_cluster_id x)) ->
  match prior with
  | None => forall p, ~ preceding_week table (stat_of now (x, prior)) p
  | Some d =>
      (exists p, preceding_week table (stat_of now (x, prior)) p) /\
      forall p, preceding_week table (stat_of now (x, prior)) p -> doc_count p = d
  end.
Proof.
  intros Hx Hin.
  assert (Hpart : forall y, y ∈ partition_of wd (wd_cluster_id x) <->
                            wd_cluster_id y = wd_cluster_id x /\ y ∈ wd).
  { intros y. unfold partition_of. rewrite elem_of_sort_by_week, list_elem_of_filter. tauto. }
  assert (Hrow : forall p, p ∈ table -> cluster_id p = wd_cluster_id x ->
            exists y, y ∈ partition_of wd (wd_cluster_id x) /\
                      week_start p = wd_week_start y /\ doc_count p = wd_doc_count y).
  { intros p Hp Hc. apply elem_of_table in Hp as (y & o & -> & Hy & _).
    exists y. simpl in *. rewrite Hpart. auto. }
  destruct (lag_preceding (partition_of wd (wd_cluster_id x)) None) with (x := x) (prior := prior)
    as [_ Hlag].
  - apply sort_by_week_sorted, partition_weeks_NoDup.
  - intros p y [=].
  - exact Hin.
  - destruct prior as [d|].
    + destruct Hlag as (p & Hp & -> & Hlt & Hmax).
      destruct Hp as [[=]|Hp].
      pose proof (proj1 (Hpart p) Hp) as [Hpc Hpw].
      destruct (table_covers p Hpw) as [o Ho].
      assert (Hprec : preceding_week table (stat_of now (x, Some (wd_doc_count p)))
                        (stat_of now (p, o))).
      { split; [exact Ho|]. split; [exact Hpc|]. split; [exact Hlt|].
        intros q Hq Hqc Hqx. simpl in Hqc, Hqx.
        destruct (Hrow q Hq Hqc) as (y & Hy & Hw & _).
        simpl. rewrite Hw. apply Hmax; [exact Hy|]. unfold week_lt. lia. }
      split; [eauto|].
      intros q (Hq & Hqc & Hqx & Hqmax). simpl in Hqc, Hqx.
      destruct (Hrow q Hq Hqc) as (y & Hy & Hw & Hd).
      assert (wd_week_start y <= wd_week_start p)
        by (apply Hmax; [exact Hy | unfold week_lt; lia]).
      assert (wd_week_start p <= wd_week_start y).
      { rewrite <- Hw. apply (Hqmax (stat_of now (p, o))); [exact Ho | exact Hpc | exact Hlt]. }
      pose proof (proj1 (Hpart y) Hy) as [Hyc Hyw].
      assert (y = p) by (apply (weekly_docs_unique now db lookback_weeks);
                         [exact Hyw | exact Hpw | lia | congruence]).
      subst y. exact Hd.
    + destruct Hlag as [_ Hmin].
      intros q (Hq & Hqc & Hqx & _). simpl in Hqc, Hqx.
      destruct (Hrow q Hq Hqc) as (y & Hy & Hw & _).
      specialize (Hmin y Hy). lia.
Qed.

Lemma growth_of_row (r : WeeklyThemeStat) :
  r ∈ weekly_theme_stats (compute_weekly_trends now db lookback_weeks).1 ->
  (forall p,
     preceding_week (weekly_theme_stats (compute_weekly_trends now db lookback_weeks).1) r p ->
     growth_pct r =
       if Z.eqb (doc_count p) 0 then None
       else Some (growth_formula (doc_count r) (doc_count p))) /\
  (growth_pct r = None <->
     (forall p,
        ~ preceding_week (weekly_theme_stats (compute_weekly_trends now db lookback_weeks).1)
            r p) \/
     (exists p,
        preceding_week (weekly_theme_stats (compute_weekly_trends now db lookback_weeks).1)
          r p /\ doc_count p = 0)).
Proof.
  rewrite computed_table. intros Hr.
  apply elem_of_table in Hr as (x & prior & -> & Hx & Hin).
  pose proof (prior_is_preceding x prior Hx Hin) as H.
  destruct prior as [d|].
  - destruct H as [[p0 Hp0] Hd]. split.
    + intros p Hp. rewrite (Hd p Hp). reflexivity.
    + simpl. unfold growth. split.
      * intros Hg. right. exists p0. split; [exact Hp0|]. rewrite (Hd p0 Hp0).
        destruct (Z.eqb d 0) eqn:E; [apply Z.eqb_eq; exact E | discriminate].
      * intros [Hno | (p & Hp & Hz)]; [exfalso; apply (Hno p0 Hp0)|].
        rewrite <- (Hd p Hp), Hz. reflexivity.
  - split.
    + intros p Hp. exfalso. apply (H p Hp).
    + simpl. split; [intros _; left; exact H | reflexivity].
Qed.

End Growth.

(** C1. In the table a run computes, the growth of a row is
    [round(((doc_count - prior_count) / prior_count) * 100, 1)] for the
    [doc_count] of the week that immediately precedes it among the rows of
    its cluster, and it is null exactly when there is no such week or the
    count of that week is 0. In particular the counts 10, 5, 20 of one cluster
    over three consecutive weeks give the growths null, -50.0 and 300.0. *)
Theorem growth_pct_week_over_week :
  (forall (now : Z) (db : DB) (lookback_weeks : Z) (r : WeeklyThemeStat),
     let table := weekly_theme_stats (compute_weekly_trends now db lookback_weeks).1 in
     r ∈ table ->
     (forall p,
        preceding_week table r p ->
        growth_pct r =
          if Z.eqb (doc_count p) 0 then None
          else Some (growth_formula (doc_count r) (doc_count p))) /\
     (growth_pct r = None <->
        (forall p, ~ preceding_week table r p) \/
        (exists p, preceding_week table r p /\ doc_count p = 0))) /\
  growth_pct <$>
    weekly_theme_stats (compute_weekly_trends demo_now (counts_db [10; 5; 20]%nat) 12).1
  = [None; Some (-50)%float; Some 300%float].
Proof.
  split; [|vm_compute; reflexivity].
  intros now db lookback_weeks r table. apply growth_of_row.
Qed.

(** In a table of three consecutive weeks of one cluster, the first week
    precedes the second. *)
Lemma three_weeks_preceding (table : list WeeklyThemeStat) (r1 r2 r3 : WeeklyThemeStat) :
  table = [r1; r2; r3] ->
  cluster_id r1 = cluster_id r2 ->
  week_start r1 < week_start r2 ->
  week_start r2 < week_start r3 ->
  r2 ∈ table /\ preceding_week table r2 r1.
Proof.
  intros -> Hc H12 H23. split; [right; left|].
  split; [left|]. split; [exact Hc|]. split; [exact H12|].
  intros q Hq _ Hlt.
  apply elem_of_cons in Hq as [->|Hq]; [lia|].
  apply elem_of_cons in Hq as [->|Hq]; [lia|].
  apply list_elem_of_singleton in Hq as ->. lia.
Qed.

Lemma growth_pct_week_over_week_witness :
  let table :=
    weekly_theme_stats (compute_weekly_trends demo_now (counts_db [10; 5; 20]%nat) 12).1 in
  let r1 := mkWeeklyThemeStat 19996 1 (Some "isa") 10 0%float (Some 1%float) None demo_now in
  let r2 :=
    mkWeeklyThemeStat 20003 1 (Some "isa") 5 0%float (Some 1%float) (Some (-50)%float)
      demo_now in
  r2 ∈ table /\ preceding_week table r2 r1 /\
  growth_pct r2 = Some (growth_formula 5 10).
Proof.
  intros table r1 r2.
  destruct (three_weeks_preceding table r1 r2
              (mkWeeklyThemeStat 20010 1 (Some "isa") 20 0%float (Some 1%float)
                 (Some 300%float) demo_now)) as [H2 P].
  - vm_compute. reflexivity.
  - reflexivity.
  - reflexivity.
  - reflexivity.
  - split; [exact H2|]. split; [exact P|].
    exact (proj1 (proj1 growth_pct_week_over_week demo_now (counts_db [10; 5; 20]%nat) 12
                    r2 H2) r1 P).
Defined.

(** ** More on the rule scorer *)

Lemma lstrip_head (s : string) (c : ascii) (t : string) :
  Text.lstrip s = String c t -> Text.isspace c = false.
Proof.
  induction s as [|d s IH]; simpl; [discriminate|].
  destruct (Text.isspace d) eqn:E; [exact IH|].
  intros [= <- _]. exact E.
Qed.

Lemma lstrip_fixed (c : ascii) (t : string) :
  Text.isspace c = false -> Text.lstrip (String c t) = String c t.
Proof. intros H. simpl. rewrite H. reflexivity. Qed.

Lemma rstrip_head (c : ascii) (t : string) :
  Text.rstrip (String c t) = EmptyString \/
  exists t', Text.rstrip (String c t) = String c t'.
Proof.
  simpl. destruct (Text.rstrip t) as [|d u].
  - destruct (Text.isspace c); eauto.
  - eauto.
Qed.

Lemma rstrip_idempotent (s : string) : Text.rstrip (Text.rstrip s) = Text.rstrip s.
Proof.
  induction s as [|c s IH]; simpl; [reflexivity|].
  destruct (Text.rstrip s) as [|d u] eqn:E.
  - destruct (Text.isspace c) eqn:Hc; simpl; [reflexivity|]. rewrite Hc. reflexivity.
  - simpl. simpl in IH. rewrite IH. reflexivity.
Qed.

Lemma strip_idempotent (s : string) : Text.strip (Text.strip s) = Text.strip s.
Proof.
  unfold Text.strip.
  destruct (Text.lstrip s) as [|c t] eqn:L; [reflexivity|].
  pose proof (lstrip_head s c t L) as Hc.
  destruct (rstrip_head c t) as [E|[t' E]]; rewrite E; [reflexivity|].
  rewrite (lstrip_fixed c t' Hc), <- E. apply rstrip_idempotent.
Qed.

Lemma contains_lstrip (c : ascii) (s : string) :
  Text.isspace c = false -> Text.contains c (Text.lstrip s) = Text.contains c s.
Proof.
  intros Hc. induction s as [|d s IH]; simpl; [reflexivity|].
  destruct (Text.isspace d) eqn:Hd; [|reflexivity].
  rewrite IH. destruct (Ascii.eqb c d) eqn:E; [|reflexivity].
  apply Ascii.eqb_eq in E. congruence.
Qed.

Lemma contains_rstrip (c : ascii) (s : string) :
  Text.isspace c = false -> Text.contains c (Text.rstrip s) = Text.contains c s.
Proof.
  intros Hc. induction s as [|d s IH]; simpl; [reflexivity|].
  destruct (Text.rstrip s) as [|e u].
  - simpl in IH. rewrite <- IH. destruct (Text.isspace d) eqn:Hd; simpl.
    + destruct (Ascii.eqb c d) eqn:E; [|reflexivity].
      apply Ascii.eqb_eq in E. congruence.
    + reflexivity.
  - rewrite <- IH. reflexivity.
Qed.

Lemma contains_strip (c : ascii) (s : string) :
  Text.isspace c = false -> Text.contains c (Text.strip s) = Text.contains c s.
Proof.
  intros Hc. unfold Text.strip. rewrite contains_rstrip, contains_lstrip; auto.
Qed.

(** No pattern of the scorer matches in the empty text. *)
Lemma score_text_norm_empty (c : ascii) (s : string) :
  Text.strip (String c s) = EmptyString -> score_text (Some (String c s)) = blank_result.
Proof. intros H. unfold score_text. rewrite H. vm_compute. reflexivity. Qed.

(** X1. Surrounding whitespace does not change the result of the rule
    scorer. *)
Theorem score_text_strip (s : string) :
  score_text (Some (Text.strip s)) = score_text (Some s).
Proof.
  destruct s as [|c s]; [reflexivity|].
  destruct (Text.strip (String c s)) as [|d t] eqn:E.
  - rewrite (score_text_norm_empty c s E). reflexivity.
  - unfold score_text. rewrite <- E, strip_idempotent. rewrite E. reflexivity.
Qed.

(** X2. A text with a question mark is a question for the rule scorer: the
    flag is set, the keyword is listed first and the score is at least
    0.35. *)
Theorem score_text_question_mark (s : string) :
  Text.contains "?" s = true ->
  let r := score_text (Some s) in
  is_question r = true /\
  head (detected_keywords r) = Some "question" /\
  PrimFloat.leb 0.35 (signal_score r) = true.
Proof.
  intros H r. subst r.
  destruct s as [|c s]; [discriminate|].
  assert (Hn : Text.contains "?" (Text.strip (String c s)) = true)
    by (rewrite contains_strip; [exact H | reflexivity]).
  unfold score_text. cbv zeta. rewrite Hn.
  cbn [is_question detected_keywords signal_score orb append_if].
  split; [reflexivity|]. split.
  - destruct (Re.search _RECOMMEND_PAT _), (Re.search _COST_PAT _),
      (Re.search _PLATFORM_PAT _); reflexivity.
  - destruct (Re.search _RECOMMEND_PAT _), (Re.search _COST_PAT _),
      (Re.search _PLATFORM_PAT _); reflexivity.
Qed.

Lemma score_text_question_mark_witness :
  Text.contains "?" "is it?" = true /\
  is_question (score_text (Some "is it?")) = true.
Proof.
  split; [reflexivity|].
  apply (score_text_question_mark "is it?"). reflexivity.
Defined.

Lemma keywords_of_flags (q a c p : bool) :
  let kw := _keywords_from_flags q a c p in
  NoDup kw /\
  sublist kw ["question"; "recommendation"; "cost"; "platform"] /\
  ("question" ∈ kw <-> q = true) /\
  ("recommendation" ∈ kw <-> a = true) /\
  ("cost" ∈ kw <-> c = true) /\
  ("platform" ∈ kw <-> p = true).
Proof.
  assert (D : forall l : list string, bool_decide (NoDup l) = true -> NoDup l)
    by (intros l Hl; apply bool_decide_eq_true in Hl; exact Hl).
  assert (M : forall (x : string) (l : list string) (b : bool),
            bool_decide (x ∈ l) = b -> (x ∈ l <-> b = true)).
  { intros x l b Hb. split.
    - intros Hx. rewrite <- Hb. apply bool_decide_eq_true. exact Hx.
    - intros ->. apply bool_decide_eq_true in Hb. exact Hb. }
  destruct q, a, c, p; cbv zeta;
    (split; [apply D; vm_compute; reflexivity|]);
    (split; [unfold _keywords_from_flags, append_if; simpl;
             repeat first [apply sublist_skip | apply sublist_cons | apply sublist_nil]|]);
    repeat match goal with |- _ /\ _ => split end;
    apply M; vm_compute; reflexivity.
Qed.

(** X3. The keywords of the rule scorer are the ones [_keywords_from_flags]
    derives from its flags, the rule the LLM path uses for a reply without
    keywords: each label is listed exactly when its flag holds, once, in the
    order question, recommendation, cost, platform. *)
Theorem score_text_keywords (text : option string) :
  let r := score_text text in
  detected_keywords r =
    _keywords_from_flags (is_question r) (asks_recommendation r)
      (mentions_cost r) (mentions_platform r) /\
  NoDup (detected_keywords r) /\
  sublist (detected_keywords r) ["question"; "recommendation"; "cost"; "platform"] /\
  ("question" ∈ detected_keywords r <-> is_question r = true) /\
  ("recommendation" ∈ detected_keywords r <-> asks_recommendation r = true) /\
  ("cost" ∈ detected_keywords r <-> mentions_cost r = true) /\
  ("platform" ∈ detected_keywords r <-> mentions_platform r = true).
Proof.
  intros r.
  assert (E : detected_keywords r =
              _keywords_from_flags (is_question r) (asks_recommendation r)
                (mentions_cost r) (mentions_platform r))
    by (subst r; destruct text as [[|ch s]|]; reflexivity).
  split; [exact E|]. rewrite E. apply keywords_of_flags.
Qed.

(** ** The provider call: attempts, waits and routing *)

Lemma trace_bind {A B : Type} (net : network) (m : io A) (f : A -> io B) :
  forall n : nat,
    trace net n (bind m f) =
      trace net n m ++
      match run net n m with
      | (Ok a, n') => trace net n' (f a)
      | (Err _, _) => []
      end.
Proof.
  induction m as [a|e|rq k IH|secs k IH]; intros n; simpl.
  - reflexivity.
  - reflexivity.
  - f_equal. apply IH.
  - f_equal. apply IH.
Qed.

Section Attempts.

Variable rt : runtime.
Variable settings : Settings.
Variable net : network.

Lemma call_ollama_posts (prompt model : string) (timeout : float) (n : nat) :
  snd (run net n (call_ollama prompt model timeout)) = S n.
Proof.
  unfold call_ollama. simpl.
  destruct (net n _) as [|status ra [c|]]; simpl; try reflexivity;
    destruct (is_success status); reflexivity.
Qed.

Lemma groq_attempts_posts (prompt model : string) (timeout : float) (remaining : nat) :
  forall (attempt : Z) (n : nat),
    (n <= snd (run net n (groq_attempts rt settings remaining attempt prompt model timeout))
       <= n + remaining)%nat.
Proof.
  induction remaining as [|rest IH]; intros attempt n; simpl; [lia|].
  destruct (net n _) as [|status ra content]; simpl; [lia|].
  specialize (IH (attempt + 1) (S n)).
  destruct (Z.eqb status 429).
  - destruct ra as [[|c h]|]; simpl;
      try (destruct (sleep_returns net _); simpl; lia).
    destruct (float_of_str rt (String c h)); simpl; [|lia].
    destruct (sleep_returns net _); simpl; lia.
  - destruct (is_success status); simpl; [|lia].
    destruct content; simpl; lia.
Qed.

Lemma groq_attempts_first_post (prompt model : string) (timeout : float)
  (rest : nat) (attempt : Z) (n : nat) :
  (S n <= snd (run net n (groq_attempts rt settings (S rest) attempt prompt model timeout))
     <= n + S rest)%nat.
Proof.
  simpl. destruct (net n _) as [|status ra content]; simpl; [lia|].
  pose proof (groq_attempts_posts prompt model timeout rest (attempt + 1) (S n)) as P.
  destruct (Z.eqb status 429).
  - destruct ra as [[|c h]|]; simpl;
      try (destruct (sleep_returns net _); simpl; lia).
    destruct (float_of_str rt (String c h)); simpl; [|lia].
    destruct (sleep_returns net _); simpl; lia.
  - destruct (is_success status); simpl; [|lia]. destruct content; simpl; lia.
Qed.

(** X5. One call of [call_llm] posts at least once and at most five times
    (the attempts of [call_groq]); a call that goes to Ollama posts exactly
    once. *)
Theorem call_llm_post_budget (prompt : string) (timeout : float) (n : nat) :
  (S n <= snd (run net n (call_llm rt settings prompt timeout)) <= n + 5)%nat /\
  (forall model, snd (run net n (call_ollama prompt model timeout)) = S n) /\
  (forall model max_retries,
     (snd (run net n (call_groq rt settings prompt model timeout max_retries))
      <= n + Nat.max 1 max_retries)%nat).
Proof.
  split; [|split].
  - unfold call_llm, call_groq.
    destruct (String.eqb (llm_provider settings) "groq");
      [destruct (groq_api_key settings) eqn:K|]; try (rewrite call_ollama_posts; lia).
    apply groq_attempts_first_post.
  - intros model. apply call_ollama_posts.
  - intros model max_retries. unfold call_groq.
    destruct (groq_api_key settings).
    + rewrite call_ollama_posts. lia.
    + match goal with
      | |- context [groq_attempts rt settings ?r ?a ?p ?m ?t] =>
          pose proof (groq_attempts_posts p m t r a n)
      end. lia.
Qed.

Lemma groq_attempts_sleeps (prompt model : string) (timeout : float) (remaining : nat) :
  (forall i rq, no_retry_after (net i rq)) ->
  forall (attempt : Z) (n : nat),
    sleeps (trace net n (groq_attempts rt settings remaining attempt prompt model timeout))
    `prefix_of` backoff_schedule attempt remaining.
Proof.
  intros Hnet. induction remaining as [|rest IH]; intros attempt n; simpl.
  - apply prefix_nil.
  - pose proof (Hnet n (mkRequest Groq (groq_api_key settings) model prompt timeout)) as H.
    destruct (net n _) as [|status ra content]; simpl; [apply prefix_nil|].
    destruct (Z.eqb status 429).
    + destruct ra as [[|c h]|]; simpl in H |- *; try contradiction;
        apply prefix_cons; (destruct (sleep_returns net _); [apply IH | apply prefix_nil]).
    + destruct (is_success status); simpl; [|apply prefix_nil].
      destruct content; apply prefix_nil.
Qed.

(** X6. When no reply carries a [retry-after] header, the waits of one call
    of [call_llm] are a prefix of 2, 4, 8, 16, 32 seconds, and those of
    [call_groq] a prefix of [min(2 ** attempt * 2, 60)] over its attempts. *)
Theorem call_llm_backoff (prompt : string) (timeout : float) (n : nat) :
  (forall i rq, no_retry_after (net i rq)) ->
  sleeps (trace net n (call_llm rt settings prompt timeout))
    `prefix_of` [2; 4; 8; 16; 32]%float /\
  forall model max_retries,
    sleeps (trace net n (call_groq rt settings prompt model timeout max_retries))
      `prefix_of` backoff_schedule 0 max_retries.
Proof.
  intros Hnet.
  assert (O : forall model, sleeps (trace net n (call_ollama prompt model timeout)) = []).
  { intros model. unfold call_ollama. simpl.
    destruct (net n _) as [|status ra [c|]]; simpl; try reflexivity;
      destruct (is_success status); reflexivity. }
  assert (G : forall model max_retries,
            sleeps (trace net n (call_groq rt settings prompt model timeout max_retries))
              `prefix_of` backoff_schedule 0 max_retries).
  { intros model max_retries. unfold call_groq.
    destruct (groq_api_key settings); [rewrite O; apply prefix_nil|].
    apply groq_attempts_sleeps. exact Hnet. }
  split; [|exact G].
  unfold call_llm. destruct (String.eqb (llm_provider settings) "groq").
  - apply (G None 5%nat).
  - rewrite O. apply prefix_nil.
Qed.

End Attempts.

Lemma call_llm_backoff_witness :
  (forall i rq, no_retry_after (rate_limited i rq)) /\
  sleeps (trace rate_limited 0 (call_llm demo_runtime demo_settings "prompt" 30))
    = [2; 4; 8; 16; 32]%float /\
  sleeps (trace rate_limited 0 (call_llm demo_runtime demo_settings "prompt" 30))
    `prefix_of` [2; 4; 8; 16; 32]%float.
Proof.
  split; [intros i rq; exact I|]. split; [vm_compute; reflexivity|].
  apply (call_llm_backoff demo_runtime demo_settings rate_limited "prompt" 30 0).
  intros i rq. exact I.
Defined.

Section Replies.

Variable rt : runtime.
Variable settings : Settings.
Variable net : network.

Lemma call_ollama_content (prompt model : string) (timeout : float) (n n' : nat)
  (v : json) :
  run net n (call_ollama prompt model timeout) = (Ok v, n') ->
  v <> JNull ->
  exists rq status ra,
    n' = S n /\ net n rq = Response status ra (Some v) /\
    is_success status = true.
Proof.
  unfold call_ollama. simpl.
  destruct (net n _) as [|status ra [c|]] eqn:E; simpl;
    try (intros [= <- _] N; contradiction).
  - destruct (is_success status) eqn:Hs; simpl; [|intros [= <- _] N; contradiction].
    intros [= -> <-] _. eexists _, _, _. split; [reflexivity|]. split; [exact E | exact Hs].
  - destruct (is_success status); intros [= <- _] N; contradiction.
Qed.

Lemma groq_attempts_content (prompt model : string) (timeout : float) (v : json)
  (remaining : nat) :
  v <> JNull ->
  forall (attempt : Z) (n n' : nat),
    run net n (groq_attempts rt settings remaining attempt prompt model timeout)
    = (Ok v, n') ->
    exists i rq status ra,
      (n <= i)%nat /\ n' = S i /\ net i rq = Response status ra (Some v) /\
      is_success status = true.
Proof.
  intros N.
  induction remaining as [|rest IH]; intros attempt n n'; simpl;
    [intros [= <- _]; contradiction|].
  destruct (net n _) as [|status ra content] eqn:E; simpl;
    [intros [= <- _]; contradiction|].
  destruct (Z.eqb status 429).
  - assert (Next : forall b : bool,
              run net (S n)
                (if b then groq_attempts rt settings rest (attempt + 1) prompt model timeout
                 else Ret JNull)
              = (Ok v, n') ->
              exists i rq status ra,
                (n <= i)%nat /\ n' = S i /\
                net i rq = Response status ra (Some v) /\
                is_success status = true).
    { intros [|] H; [|injection H as <- _; contradiction].
      destruct (IH _ _ _ H) as (i & rq & st & r & Hi & Hn & Hnet & Hs).
      exists i, rq, st, r. repeat split; auto. lia. }
    destruct ra as [[|c h]|]; simpl; try apply Next.
    destruct (float_of_str rt (String c h)); simpl;
      [apply Next | intros [= <- _]; contradiction].
  - destruct (is_success status) eqn:Hs; simpl; [|intros [= <- _]; contradiction].
    destruct content as [c|]; simpl; [|intros [= <- _]; contradiction].
    intros [= -> <-]. exists n. eexists _, _, _.
    split; [lia|]. split; [reflexivity|]. split; [exact E | exact Hs].
Qed.

(** What [call_llm] returns, when it is not [None], is the completion of
    the last reply it received, and that reply had a success status. *)
Lemma call_llm_value (prompt : string) (timeout : float) (n n' : nat) (v : json) :
  run net n (call_llm rt settings prompt timeout) = (Ok v, n') ->
  v <> JNull ->
  exists i rq status ra,
    (n <= i)%nat /\ n' = S i /\ net i rq = Response status ra (Some v) /\
    is_success status = true.
Proof.
  intros H N. revert H.
  assert (O : forall model,
            run net n (call_ollama prompt model timeout) = (Ok v, n') ->
            exists i rq status ra,
              (n <= i)%nat /\ n' = S i /\
              net i rq = Response status ra (Some v) /\
              is_success status = true).
  { intros model H.
    destruct (call_ollama_content _ _ _ _ _ _ H N) as (rq & st & ra & -> & Hn & Hs).
    exists n, rq, st, ra. auto. }
  unfold call_llm, call_groq.
  destruct (String.eqb (llm_provider settings) "groq");
    [destruct (groq_api_key settings)|]; try apply O.
  apply groq_attempts_content. exact N.
Qed.

(** X7. A text that [call_llm] returns is the completion of the last reply
    it received, and that reply had a success status: the body of a failed or
    rate-limited reply is never returned. *)
Theorem call_llm_content (prompt : string) (timeout : float) (n n' : nat) (text : string) :
  run net n (call_llm rt settings prompt timeout) = (Ok (JStr text), n') ->
  exists i rq status ra,
    (n <= i)%nat /\ n' = S i /\ net i rq = Response status ra (Some (JStr text)) /\
    is_success status = true.
Proof. intros H. apply (call_llm_value _ _ _ _ _ H). discriminate. Qed.

(** X8. Only a rate limit is retried: when the first reply is a failure of
    the call (timeout, transport error) or an error status other than 429,
    [call_llm] returns [None] after that one post. *)
Theorem call_llm_hard_failure (prompt : string) (timeout : float) (n : nat) :
  (forall rq, hard_failure (net n rq)) ->
  run net n (call_llm rt settings prompt timeout) = (Ok JNull, S n).
Proof.
  intros H.
  assert (O : forall model, run net n (call_ollama prompt model timeout) = (Ok JNull, S n)).
  { intros model. unfold call_ollama. simpl.
    specialize (H (mkRequest Ollama "" model prompt timeout)).
    destruct (net n _) as [|status ra content]; simpl; [reflexivity|].
    destruct H as [_ ->]. reflexivity. }
  unfold call_llm, call_groq.
  destruct (String.eqb (llm_provider settings) "groq");
    [destruct (groq_api_key settings) as [|k key] eqn:K|]; try apply O.
  cbn [groq_attempts run].
  specialize (H (mkRequest Groq (groq_api_key settings) (groq_model settings) prompt timeout)).
  destruct (net n _) as [|status ra content]; [reflexivity|].
  destruct H as [H429 Hs]. apply Z.eqb_neq in H429. rewrite H429, Hs. reflexivity.
Qed.

End Replies.

Lemma call_llm_content_witness :
  run (answering full_reply) 0 (call_llm demo_runtime demo_settings "prompt" 30)
    = (Ok (JStr full_reply), 1%nat) /\
  exists i rq status ra,
    answering full_reply i rq = Response status ra (Some (JStr full_reply)) /\
    is_success status = true.
Proof.
  assert (E : run (answering full_reply) 0 (call_llm demo_runtime demo_settings "prompt" 30)
              = (Ok (JStr full_reply), 1%nat)) by (vm_compute; reflexivity).
  split; [exact E|].
  destruct (call_llm_content demo_runtime demo_settings (answering full_reply)
              "prompt" 30 0 1 full_reply E) as (i & rq & st & ra & _ & _ & Hnet & Hs).
  exists i, rq, st, ra. split; assumption.
Defined.

Lemma call_llm_hard_failure_witness :
  (forall rq, hard_failure (unreachable 0%nat rq)) /\
  run unreachable 0 (call_llm demo_runtime demo_settings "prompt" 30) = (Ok JNull, 1%nat).
Proof.
  split; [intros rq; exact I|].
  apply (call_llm_hard_failure demo_runtime demo_settings unreachable "prompt" 30 0).
  intros rq. exact I.
Defined.

(** ** The provider call: what is sent *)

Section Requests.

Variable rt : runtime.
Variable settings : Settings.
Variable net : network.

Lemma call_ollama_requests (prompt model : string) (timeout : float) (n : nat) :
  posted (trace net n (call_ollama prompt model timeout))
  = [mkRequest Ollama "" model prompt timeout].
Proof.
  unfold call_ollama. simpl.
  destruct (net n _) as [|status ra [c|]]; simpl; try reflexivity;
    destruct (is_success status); reflexivity.
Qed.

Lemma groq_attempts_requests (prompt model : string) (timeout : float) (remaining : nat) :
  forall (attempt : Z) (n : nat) (rq : request),
    rq ∈ posted (trace net n (groq_attempts rt settings remaining attempt prompt model timeout)) ->
    rq = mkRequest Groq (groq_api_key settings) model prompt timeout.
Proof.
  induction remaining as [|rest IH]; intros attempt n rq; simpl.
  - intros H. apply elem_of_nil in H. contradiction.
  - intros H. apply elem_of_cons in H as [->|H]; [reflexivity|].
    destruct (net n _) as [|status ra content]; simpl in H.
    + apply elem_of_nil in H. contradiction.
    + destruct (Z.eqb status 429).
      * assert (Next : forall b : bool,
                  rq ∈ posted (trace net (S n)
                                 (if b
                                  then groq_attempts rt settings rest (attempt + 1) prompt
                                         model timeout
                                  else Ret JNull)) ->
                  rq = mkRequest Groq (groq_api_key settings) model prompt timeout).
        { intros [|] Hb; [eapply IH; exact Hb|]. apply elem_of_nil in Hb. contradiction. }
        destruct ra as [[|c h]|]; simpl in H; try (eapply Next; exact H).
        destruct (float_of_str rt (String c h)); simpl in H; [eapply Next; exact H|].
        apply elem_of_nil in H. contradiction.
      * destruct (is_success status); [destruct content|]; simpl in H;
          apply elem_of_nil in H; contradiction.
Qed.

Lemma call_llm_prompt (prompt : string) (timeout : float) (n : nat) (rq : request) :
  rq ∈ posted (trace net n (call_llm rt settings prompt timeout)) ->
  rq_prompt rq = prompt.
Proof.
  unfold call_llm, call_groq.
  destruct (String.eqb (llm_provider settings) "groq");
    [destruct (groq_api_key settings)|];
    try (rewrite call_ollama_requests; intros H; apply list_elem_of_singleton in H;
         rewrite H; reflexivity).
  intros H. rewrite (groq_attempts_requests _ _ _ _ _ _ _ H). reflexivity.
Qed.

(** X9. Where [call_llm] posts: to Groq, with the configured key and model,
    when the provider is [groq] and a key is set, and otherwise to Ollama,
    with the Ollama model and no key. Every post carries the prompt and the
    timeout of the call. *)
Theorem call_llm_routing (prompt : string) (timeout : float) (n : nat) (rq : request) :
  rq ∈ posted (trace net n (call_llm rt settings prompt timeout)) ->
  rq =
    if (String.eqb (llm_provider settings) "groq"
        && negb (String.eqb (groq_api_key settings) ""))%bool
    then mkRequest Groq (groq_api_key settings) (groq_model settings) prompt timeout
    else mkRequest Ollama "" (ollama_model settings) prompt timeout.
Proof.
  unfold call_llm, call_groq.
  destruct (String.eqb (llm_provider settings) "groq").
  - destruct (groq_api_key settings) as [|k key] eqn:K.
    + rewrite call_ollama_requests. intros H. apply list_elem_of_singleton in H.
      rewrite H. reflexivity.
    + intros H. rewrite (groq_attempts_requests _ _ _ _ _ _ _ H), K. reflexivity.
  - rewrite call_ollama_requests. intros H. apply list_elem_of_singleton in H.
    rewrite H. reflexivity.
Qed.

Lemma length_take (m : nat) (s : string) :
  String.length (Text.take m s) = Nat.min m (String.length s).
Proof.
  revert s. induction m as [|m IH]; intros [|c s]; simpl; try reflexivity.
  rewrite IH. reflexivity.
Qed.

Lemma length_append (s t : string) :
  String.length (String.append s t) = (String.length s + String.length t)%nat.
Proof. induction s as [|c s IH]; simpl; [reflexivity|]. rewrite IH. reflexivity. Qed.

(** X10. What [score_text_llm] sends: nothing on a text that is missing or
    blank, whose result is the rule scorer's; otherwise every post carries
    [SIGNAL_PROMPT] filled with the stripped text, which is sent whole when
    it has at most [max_chars] characters and cut to [max_chars] characters
    plus an ellipsis when it is longer. *)
Theorem score_text_llm_requests (text : option string) (max_chars : nat) (n : nat) :
  let t := or_empty text in
  (Text.strip t = "" ->
     trace net n (score_text_llm rt settings text max_chars) = [] /\
     run net n (score_text_llm rt settings text max_chars) = (Ok (score_text text), n)) /\
  (forall rq,
     rq ∈ posted (trace net n (score_text_llm rt settings text max_chars)) ->
     rq_prompt rq = SIGNAL_PROMPT (snippet_of t max_chars)) /\
  (String.length (snippet_of t max_chars) <= max_chars + 3)%nat /\
  ((String.length (Text.strip t) <= max_chars)%nat ->
     snippet_of t max_chars = Text.strip t) /\
  ((max_chars < String.length (Text.strip t))%nat ->
     snippet_of t max_chars = String.append (Text.take max_chars (Text.strip t)) "...").
Proof.
  intros t. split; [|split; [|split; [|split]]].
  - subst t. unfold score_text_llm.
    destruct text as [[|c s]|]; simpl; auto.
    intros ->. auto.
  - subst t. unfold score_text_llm. intros rq.
    destruct text as [[|c s]|]; simpl or_empty;
      try (intros H; apply elem_of_nil in H; contradiction).
    destruct (Text.strip (String c s));
      [intros H; apply elem_of_nil in H; contradiction|].
    rewrite trace_bind. unfold posted. rewrite omap_app. intros H.
    apply elem_of_app in H as [H|H].
    + apply (call_llm_prompt _ _ _ _ H).
    + exfalso. destruct (run net n (call_llm rt settings _ 30)) as [[response|e] n'];
        [|apply elem_of_nil in H; exact H].
      rewrite trace_bind in H.
      destruct (parse_response rt response) as [[p|]|e];
        simpl in H; apply elem_of_nil in H; exact H.
  - unfold snippet_of. destruct (Nat.ltb max_chars _) eqn:E.
    + rewrite length_append, length_take. simpl. lia.
    + apply Nat.ltb_ge in E. lia.
  - intros H. unfold snippet_of. apply Nat.ltb_ge in H. rewrite H. reflexivity.
  - intros H. unfold snippet_of. apply Nat.ltb_lt in H. rewrite H. reflexivity.
Qed.

End Requests.

Lemma call_llm_routing_witness :
  mkRequest Groq "gsk_demo" "llama-3.3-70b-versatile" "prompt" 30
    ∈ posted (trace unreachable 0 (call_llm demo_runtime demo_settings "prompt" 30)) /\
  mkRequest Groq "gsk_demo" "llama-3.3-70b-versatile" "prompt" 30 =
    (if (String.eqb (llm_provider demo_settings) "groq"
         && negb (String.eqb (groq_api_key demo_settings) ""))%bool
     then mkRequest Groq (groq_api_key demo_settings) (groq_model demo_settings) "prompt" 30
     else mkRequest Ollama "" (ollama_model demo_settings) "prompt" 30).
Proof.
  assert (H : mkRequest Groq "gsk_demo" "llama-3.3-70b-versatile" "prompt" 30
                ∈ posted (trace unreachable 0
                            (call_llm demo_runtime demo_settings "prompt" 30)))
    by (vm_compute; left).
  split; [exact H|].
  exact (call_llm_routing demo_runtime demo_settings unreachable "prompt" 30 0 _ H).
Defined.

Lemma score_text_llm_requests_witness :
  Text.strip (or_empty (Some "   ")) = "" /\
  trace unreachable 0 (score_text_llm demo_runtime demo_settings (Some "   ") 1000) = [] /\
  (String.length (Text.strip (or_empty (Some " why? "))) <= 1000)%nat /\
  snippet_of (or_empty (Some " why? ")) 1000 = "why?".
Proof.
  split; [reflexivity|]. split.
  - apply (proj1 (score_text_llm_requests demo_runtime demo_settings unreachable
                    (Some "   ") 1000 0)). reflexivity.
  - split; [vm_compute; lia|].
    rewrite (proj1 (proj2 (proj2 (proj2
               (score_text_llm_requests demo_runtime demo_settings unreachable
                  (Some " why? ") 1000 0))))); [reflexivity | vm_compute; lia].
Defined.

(** ** Reading a reply *)

Lemma contains_remove_fences (c : ascii) (with_json : bool) (s : string) :
  forall skip : nat,
    Text.contains c (remove_fences with_json skip s) = true -> Text.contains c s = true.
Proof.
  induction s as [|d s IH]; intros skip; [destruct skip; simpl; auto|].
  cbn [remove_fences]. destruct skip as [|k].
  - destruct (String.prefix "```" (String d s)).
    + destruct (with_json && _)%bool; intros H; apply IH in H;
        cbn [Text.contains]; rewrite H; apply orb_true_r.
    + cbn [Text.contains]. destruct (Ascii.eqb c d); [reflexivity|]. simpl. apply IH.
  - intros H. apply IH in H. cbn [Text.contains]. rewrite H. apply orb_true_r.
Qed.

Lemma from_first_brace_some (s t : string) :
  from_first_brace s = Some t ->
  String.prefix "{" t = true /\
  forall c, Text.contains c t = true -> Text.contains c s = true.
Proof.
  induction s as [|d s IH]; simpl; [discriminate|].
  destruct (Ascii.eqb d "{") eqn:E.
  - intros [= <-]. apply Ascii.eqb_eq in E. subst d. split; [|auto].
    simpl. destruct s; reflexivity.
  - intros H. destruct (IH H) as [P C]. split; [exact P|].
    intros c Hc. rewrite (C c Hc). apply orb_true_r.
Qed.

Lemma from_first_brace_none (s : string) :
  Text.contains "{" s = false -> from_first_brace s = None.
Proof.
  induction s as [|d s IH]; [reflexivity|].
  cbn [Text.contains from_first_brace]. rewrite (Ascii.eqb_sym d "{").
  intros H. apply orb_false_elim in H as [-> H]. auto.
Qed.

Lemma prefix_head (c d : ascii) (s t : string) :
  String.prefix (String c EmptyString) (String d s) = true ->
  String.prefix (String c EmptyString) (String d t) = true.
Proof.
  cbn [String.prefix]. destruct (ascii_dec c d); [|discriminate].
  intros _. destruct t; reflexivity.
Qed.

Lemma upto_last_brace_some (s p : string) :
  upto_last_brace s = Some p ->
  ends_with "}" p = true /\
  (String.prefix "{" s = true -> String.prefix "{" p = true).
Proof.
  revert p. induction s as [|d s IH]; intros p; [discriminate|].
  cbn [upto_last_brace]. destruct (upto_last_brace s) as [q|].
  - intros [= <-]. destruct (IH q eq_refl) as [E _]. split.
    + cbn [ends_with]. destruct q; [discriminate | exact E].
    + apply prefix_head.
  - destruct (Ascii.eqb d "}") eqn:E; [|discriminate].
    intros [= <-]. split; [cbn [ends_with]; exact E | apply prefix_head].
Qed.

Lemma upto_last_brace_none (s : string) :
  Text.contains "}" s = false -> upto_last_brace s = None.
Proof.
  induction s as [|d s IH]; [reflexivity|].
  cbn [Text.contains upto_last_brace]. rewrite (Ascii.eqb_sym d "}").
  intros H. apply orb_false_elim in H as [-> H].
  rewrite (IH H). reflexivity.
Qed.

Lemma contains_false (c : ascii) (s t : string) :
  (Text.contains c t = true -> Text.contains c s = true) ->
  Text.contains c s = false -> Text.contains c t = false.
Proof. destruct (Text.contains c t); [intros H E; rewrite H in E; auto | auto]. Qed.

(** X11. What [_extract_json] hands to [json.loads] is a text that starts
    with an opening brace and ends with a closing one; a reply with no
    opening brace, or with no closing brace, gives [None] whatever the
    decoder would do. *)
Theorem extract_json_object (rt : runtime) (response : string) :
  (forall data, _extract_json rt response = Ok (Some data) ->
     exists text,
       json_loads rt text = Decoded data /\
       String.prefix "{" text = true /\ ends_with "}" text = true) /\
  (Text.contains "{" response = false \/ Text.contains "}" response = false ->
   _extract_json rt response = Ok None).
Proof.
  unfold _extract_json, search_object.
  destruct response as [|c s]; [split; [discriminate | reflexivity]|].
  set (cleaned := remove_fences false 0 (remove_fences true 0 (Text.strip (String c s)))).
  assert (Sub : forall b, Text.contains b cleaned = true ->
                          Text.contains b (Text.strip (String c s)) = true).
  { intros b H. subst cleaned. apply contains_remove_fences in H.
    apply contains_remove_fences in H. exact H. }
  split.
  - intros data. destruct (from_first_brace cleaned) as [t|] eqn:F; [|discriminate].
    destruct (upto_last_brace t) as [text|] eqn:U; [|discriminate].
    destruct (json_loads rt text) as [d| | |] eqn:L; try discriminate.
    intros [= <-]. exists text. split; [exact L|].
    destruct (from_first_brace_some _ _ F) as [P _].
    destruct (upto_last_brace_some _ _ U) as [E Q]. auto.
  - intros [H|H].
    + rewrite from_first_brace_none; [reflexivity|].
      apply (contains_false _ _ _ (Sub "{"%char)).
      rewrite contains_strip; [exact H | reflexivity].
    + destruct (from_first_brace cleaned) as [t|] eqn:F; [|reflexivity].
      destruct (from_first_brace_some _ _ F) as [_ C].
      rewrite upto_last_brace_none; [reflexivity|].
      apply (contains_false _ _ _ (C "}"%char)).
      apply (contains_false _ _ _ (Sub "}"%char)).
      rewrite contains_strip; [exact H | reflexivity].
Qed.

Lemma extract_json_object_witness :
  exists data text,
    _extract_json demo_runtime (cat ["Sure: ```json"; nl; full_reply; nl; "```"])
    = Ok (Some data) /\
    String.prefix "{" text = true /\ ends_with "}" text = true /\
    json_loads demo_runtime text = Decoded data.
Proof.
  destruct (_extract_json demo_runtime (cat ["Sure: ```json"; nl; full_reply; nl; "```"]))
    as [[data|]|e] eqn:E; try (vm_compute in E; discriminate E).
  destruct (proj1 (extract_json_object demo_runtime
                     (cat ["Sure: ```json"; nl; full_reply; nl; "```"])) data E)
    as (text & L & P & Q).
  exists data, text. auto.
Defined.

(** X12. A normalised payload with a flag set carries at least one keyword:
    its keywords are empty only when all four flags are false. *)
Theorem normalize_payload_keywords_nonempty (rt : runtime) (data : dict) (r : SignalResult) :
  _normalize_payload rt data = Ok r ->
  detected_keywords r = [] ->
  is_question r = false /\ asks_recommendation r = false /\
  mentions_cost r = false /\ mentions_platform r = false.
Proof.
  unfold _normalize_payload.
  destruct (match py_float rt (get data "signal_score") with
            | Ok f => Ok f
            | Err TypeError | Err ValueError => Ok _
            | Err e => Err e
            end) as [f|e]; [|discriminate].
  intros [= <-]. cbn [detected_keywords is_question asks_recommendation
                       mentions_cost mentions_platform].
  destruct (List.map (py_str rt) _) as [|k ks]; [|discriminate].
  destruct (_coerce_bool (get data "is_question")),
    (_coerce_bool (get data "asks_recommendation")),
    (_coerce_bool (get data "mentions_cost")),
    (_coerce_bool (get data "mentions_platform")); try discriminate. auto.
Qed.

Lemma normalize_payload_keywords_nonempty_witness :
  exists r,
    _normalize_payload demo_runtime [("signal_score", JInt 5)] = Ok r /\
    detected_keywords r = [] /\ is_question r = false.
Proof.
  destruct (_normalize_payload demo_runtime [("signal_score", JInt 5)]) as [r|e] eqn:E;
    [|vm_compute in E; discriminate E].
  assert (K : detected_keywords r = [])
    by (vm_compute in E; injection E as <-; reflexivity).
  exists r. split; [reflexivity|]. split; [exact K|].
  apply (normalize_payload_keywords_nonempty demo_runtime _ r E K).
Defined.

(** ** Weekly trends: the rows of the table *)

Lemma fst_lag (l : list WeeklyDoc) :
  forall prior_count : option Z, (lag prior_count l).*1 = l.
Proof. induction l as [|x l IH]; intros p; simpl; [reflexivity | f_equal; apply IH]. Qed.

Lemma fmap_flat_map {A B C : Type} (g : B -> C) (f : A -> list B) (l : list A) :
  g <$> flat_map f l = flat_map (fun x => g <$> f x) l.
Proof.
  induction l as [|x l IH]; [reflexivity|].
  cbn [flat_map]. rewrite fmap_app, IH. reflexivity.
Qed.

Lemma elem_of_flat_map {A B : Type} (f : A -> list B) (l : list A) (y : B) :
  y ∈ flat_map f l <-> exists x, x ∈ l /\ y ∈ f x.
Proof.
  induction l as [|x l IH]; cbn [flat_map].
  - split; [intros H; inversion H | intros (x & H & _); inversion H].
  - rewrite elem_of_app, IH. split.
    + intros [H|(x' & H1 & H2)]; [exists x; split; [left | exact H]|].
      exists x'. split; [right; exact H1 | exact H2].
    + intros (x' & H1 & H2). apply elem_of_cons in H1 as [->|H1]; [left; exact H2|].
      right. exists x'. auto.
Qed.

Lemma NoDup_flat_map {A B : Type} (f : A -> list B) (l : list A) :
  NoDup l ->
  (forall x, x ∈ l -> NoDup (f x)) ->
  (forall x1 x2 y, x1 ∈ l -> x2 ∈ l -> y ∈ f x1 -> y ∈ f x2 -> x1 = x2) ->
  NoDup (flat_map f l).
Proof.
  induction 1 as [|x l Hx Hl IH]; intros Hf Hd; [constructor|].
  cbn [flat_map]. apply NoDup_app. split; [apply Hf; left|]. split.
  - intros y Hy Hy'. apply elem_of_flat_map in Hy' as (x' & Hx' & Hy').
    assert (x = x') by (apply (Hd x x' y); [left | right | |]; auto).
    subst x'. auto.
  - apply IH.
    + intros z Hz. apply Hf. right. exact Hz.
    + intros x1 x2 y H1 H2. apply Hd; right; auto.
Qed.

Lemma insert_by_week_perm (x : WeeklyDoc) (l : list WeeklyDoc) :
  insert_by_week x l ≡ₚ x :: l.
Proof.
  induction l as [|y l IH]; [reflexivity|].
  cbn [insert_by_week]. destruct (Z.ltb _ _); [reflexivity|].
  rewrite IH. apply Permutation_swap.
Qed.

Lemma sort_by_week_perm (l : list WeeklyDoc) : sort_by_week l ≡ₚ l.
Proof.
  induction l as [|x l IH]; [reflexivity|].
  unfold sort_by_week in *. cbn [fold_right]. rewrite insert_by_week_perm, IH. reflexivity.
Qed.

Lemma fst_with_prior (wd : list WeeklyDoc) :
  (with_prior wd).*1 = flat_map (partition_of wd) (remove_dups (wd_cluster_id <$> wd)).
Proof.
  unfold with_prior. rewrite fmap_flat_map.
  induction (remove_dups (wd_cluster_id <$> wd)) as [|c cs IH]; [reflexivity|].
  cbn [flat_map]. rewrite fst_lag, IH. reflexivity.
Qed.

Lemma stat_key_table (now : Z) (rows : list (WeeklyDoc * option Z)) :
  stat_key <$> (stat_of now <$> rows)
  = (fun x => (wd_week_start x, wd_cluster_id x)) <$> rows.*1.
Proof.
  rewrite <- !list_fmap_compose. apply list_fmap_ext. intros _ [x p] _. reflexivity.
Qed.

(** X13. The rows [compute_weekly_trends] inserts have pairwise different
    primary keys [(week_start, cluster_id)]: the grouping by week, cluster
    and label never yields two rows for one week of a cluster, so that the
    [INSERT] cannot violate the key of the table. *)
Theorem weekly_stats_primary_key (now : Z) (db : DB) (lookback_weeks : Z) :
  NoDup (stat_key <$> weekly_theme_stats (compute_weekly_trends now db lookback_weeks).1).
Proof.
  rewrite computed_table, stat_key_table, fst_with_prior, fmap_flat_map.
  set (wd := weekly_docs now lookback_weeks db).
  apply NoDup_flat_map.
  - apply NoDup_remove_dups.
  - intros c _. unfold partition_of.
    apply (NoDup_fmap_1 fst). rewrite <- list_fmap_compose.
    change (NoDup (wd_week_start <$> sort_by_week (filter (fun r => wd_cluster_id r = c) wd))).
    rewrite sort_by_week_perm. apply partition_weeks_NoDup.
  - intros c1 c2 y _ _ H1 H2.
    apply list_elem_of_fmap in H1 as (a & -> & Ha).
    apply list_elem_of_fmap in H2 as (b & E & Hb).
    unfold partition_of in Ha, Hb.
    rewrite elem_of_sort_by_week in Ha, Hb.
    apply list_elem_of_filter in Ha as [<- _]. apply list_elem_of_filter in Hb as [<- _].
    congruence.
Qed.
Lemma week_of_monday (ts : Z) : weekday (week_of ts) = 0.
Proof.
  unfold weekday, week_of. set (day := ts / usec_per_day).
  replace (day - (day + 3) mod 7 + 3) with (7 * ((day + 3) / 7))
    by (pose proof (Z.div_mod (day + 3) 7); lia).
  rewrite Z.mul_comm. apply Z_mod_mult.
Qed.

Lemma week_of_bounds (ts : Z) :
  week_of ts * usec_per_day <= ts < (week_of ts + 7) * usec_per_day.
Proof.
  unfold week_of, usec_per_day.
  pose proof (Z.div_mod ts 86400000000).
  pose proof (Z.mod_pos_bound ts 86400000000).
  pose proof (Z.mod_pos_bound (ts / 86400000000 + 3) 7). lia.
Qed.

Lemma join_row_some (now lookback_weeks : Z) (db : DB) (cm : Membership) (j : Joined) :
  join_row now lookback_weeks db cm = Some j ->
  cm_content_type cm = "post" /\
  exists p created_utc,
    posts db !! cm_content_id cm = Some p /\
    p_created_utc p = Some created_utc /\
    weeks_before now lookback_weeks <= created_utc /\
    0 <= cm_cluster_id cm /\
    is_Some (clusters db !! cm_cluster_id cm) /\
    j_week j = week_of created_utc /\ j_cluster j = cm_cluster_id cm.
Proof.
  unfold join_row.
  destruct (String.eqb _ _) eqn:T; [|discriminate]. apply String.eqb_eq in T.
  destruct (posts db !! _) as [p|]; [|discriminate].
  destruct (clusters db !! cm_cluster_id cm) as [c|]; [|discriminate].
  destruct (p_created_utc p) as [t|] eqn:Ht; [|discriminate].
  destruct (_ && _)%bool eqn:W; [|discriminate].
  apply andb_true_iff in W as [W1 W2]. apply Z.leb_le in W1, W2.
  intros [= <-]. split; [exact T|]. exists p, t. simpl. eauto 10.
Qed.

Lemma elem_of_weekly_docs (now lookback_weeks : Z) (db : DB) (x : WeeklyDoc) :
  x ∈ weekly_docs now lookback_weeks db ->
  exists j, j ∈ joined now lookback_weeks db /\
    wd_week_start x = j_week j /\ wd_cluster_id x = j_cluster j /\
    1 <= wd_doc_count x.
Proof.
  unfold weekly_docs. rewrite list_elem_of_fmap. intros (k & -> & Hk).
  apply elem_of_remove_dups, list_elem_of_fmap in Hk as (j & -> & Hj).
  exists j. split; [exact Hj|]. split; [reflexivity|]. split; [reflexivity|].
  cbn [aggregate wd_doc_count].
  assert (M : j ∈ filter (fun j' => group_key j' = group_key j)
                      (joined now lookback_weeks db))
    by (apply list_elem_of_filter; auto).
  destruct (filter _ _) as [|a l]; [inversion M|]. cbn [length]. lia.
Qed.

(** X14. Every row of the table [compute_weekly_trends] writes stands for at
    least one post: its cluster is not the noise cluster and exists, its
    [week_start] is a Monday, its [doc_count] is at least 1, its label is the
    one the table [clusters] has, its [computed_at] is the instant of the
    run, and a post of that cluster, created in that week and inside the
    lookback window, is a member of the cluster. *)
Theorem weekly_stats_rows (now : Z) (db : DB) (lookback_weeks : Z) (r : WeeklyThemeStat) :
  r ∈ weekly_theme_stats (compute_weekly_trends now db lookback_weeks).1 ->
  0 <= cluster_id r /\
  is_Some (clusters db !! cluster_id r) /\
  cluster_label r = label_of db (cluster_id r) /\
  weekday (week_start r) = 0 /\
  1 <= doc_count r /\
  computed_at r = now /\
  exists cm p created_utc,
    cm ∈ cluster_membership db /\
    cm_content_type cm = "post" /\ cm_cluster_id cm = cluster_id r /\
    posts db !! cm_content_id cm = Some p /\
    p_created_utc p = Some created_utc /\
    weeks_before now lookback_weeks <= created_utc /\
    week_start r * usec_per_day <= created_utc < (week_start r + 7) * usec_per_day.
Proof.
  rewrite computed_table, list_elem_of_fmap. intros ([x prior] & -> & Hx).
  apply elem_of_with_prior in Hx as [Hx _]. cbn [stat_of cluster_id cluster_label
    week_start doc_count computed_at].
  pose proof (weekly_docs_label now db lookback_weeks x Hx) as L.
  apply elem_of_weekly_docs in Hx as (j & Hj & Ew & Ec & D).
  unfold joined in Hj. apply list_elem_of_omap in Hj as (cm & Hcm & J).
  apply join_row_some in J as (T & p & t & P & C & W & N & K & Jw & Jc).
  rewrite Ew, Ec, Jw, Jc in *.
  split; [exact N|]. split; [exact K|]. split; [exact L|].
  split; [apply week_of_monday|]. split; [exact D|]. split; [reflexivity|].
  exists cm, p, t. pose proof (week_of_bounds t). auto 10.
Qed.

Lemma weekly_stats_rows_witness :
  let r := mkWeeklyThemeStat 20003 1 (Some "isa") 5 0%float (Some 1%float) (Some (-50)%float)
             demo_now in
  r ∈ weekly_theme_stats (compute_weekly_trends demo_now (counts_db [10; 5; 20]%nat) 12).1 /\
  weekday (week_start r) = 0 /\ 1 <= doc_count r.
Proof.
  intros r.
  assert (M : r ∈ weekly_theme_stats
                    (compute_weekly_trends demo_now (counts_db [10; 5; 20]%nat) 12).1)
    by (apply list_elem_of_In; vm_compute; auto).
  split; [exact M|].
  destruct (weekly_stats_rows demo_now (counts_db [10; 5; 20]%nat) 12 r M)
    as (_ & _ & _ & W & D & _).
  split; [exact W | exact D].
Defined.
(** ** Weekly trends: every post is counted once *)

Lemma fold_left_add (l : list Z) : forall a, fold_left Z.add l a = a + sum_Z l.
Proof.
  unfold sum_Z. induction l as [|x l IH]; intros a; cbn [fold_left]; [lia|].
  rewrite (IH (a + x)), (IH (0 + x)). lia.
Qed.

Lemma sum_Z_cons (x : Z) (l : list Z) : sum_Z (x :: l) = x + sum_Z l.
Proof. unfold sum_Z at 1. cbn [fold_left]. rewrite fold_left_add. lia. Qed.

Lemma sum_Z_app (l l' : list Z) : sum_Z (l ++ l') = sum_Z l + sum_Z l'.
Proof.
  induction l as [|x l IH]; [reflexivity|].
  cbn [app]. rewrite !sum_Z_cons, IH. lia.
Qed.

Lemma sum_Z_perm (l l' : list Z) : l ≡ₚ l' -> sum_Z l = sum_Z l'.
Proof.
  induction 1 as [|x l l' _ IH|x y l|l l' l'' _ IH1 _ IH2];
    rewrite ?sum_Z_cons; lia.
Qed.

Lemma sum_Z_flat_map {A : Type} (f : A -> list Z) (l : list A) :
  sum_Z (flat_map f l) = sum_Z ((fun x => sum_Z (f x)) <$> l).
Proof.
  induction l as [|x l IH]; [reflexivity|].
  cbn [flat_map]. rewrite fmap_cons, sum_Z_cons, sum_Z_app, IH. reflexivity.
Qed.

Lemma sum_Z_ones {A : Type} (l : list A) : sum_Z ((fun _ => 1) <$> l) = Z.of_nat (length l).
Proof.
  induction l as [|x l IH]; [reflexivity|].
  rewrite fmap_cons, sum_Z_cons, IH. cbn [length]. lia.
Qed.

(** Each element of [l] is in the group of exactly one key. *)
Lemma sum_Z_one_group {A K : Type} `{EqDecision K} (f : A -> K) (g : A -> Z) (x : A)
  (ks : list K) :
  NoDup ks ->
  sum_Z ((fun k => if decide (f x = k) then g x else 0) <$> ks)
  = if decide (f x ∈ ks) then g x else 0.
Proof.
  induction 1 as [|k ks Hk Hks IH]; [reflexivity|].
  rewrite fmap_cons, sum_Z_cons, IH.
  destruct (decide (f x = k)) as [<-|N].
  - destruct (decide (f x ∈ ks)); [contradiction|].
    destruct (decide (f x ∈ f x :: ks)) as [|N']; [lia | exfalso; apply N'; left].
  - destruct (decide (f x ∈ ks)) as [I|I];
      destruct (decide (f x ∈ k :: ks)) as [I'|I']; try lia.
    + exfalso. apply I'. right. exact I.
    + exfalso. apply elem_of_cons in I' as [?|?]; auto.
Qed.

Lemma sum_Z_pointwise {A : Type} (f g h : A -> Z) (l : list A) :
  (forall x, f x = g x + h x) -> sum_Z (f <$> l) = sum_Z (g <$> l) + sum_Z (h <$> l).
Proof.
  intros E. induction l as [|x l IH]; [reflexivity|].
  rewrite !fmap_cons, !sum_Z_cons, IH, E. lia.
Qed.

Lemma sum_Z_groups {A K : Type} `{EqDecision K} (f : A -> K) (g : A -> Z) (ks : list K)
  (l : list A) :
  NoDup ks ->
  (forall x, x ∈ l -> f x ∈ ks) ->
  sum_Z ((fun k => sum_Z (g <$> filter (fun x => f x = k) l)) <$> ks) = sum_Z (g <$> l).
Proof.
  intros Hks. induction l as [|x l IH]; intros Hl.
  - clear Hl Hks. induction ks as [|k ks IHk]; [reflexivity|].
    rewrite fmap_cons, sum_Z_cons, IHk. reflexivity.
  - rewrite (sum_Z_pointwise _ (fun k => if decide (f x = k) then g x else 0)
               (fun k => sum_Z (g <$> filter (fun x => f x = k) l))).
    + rewrite sum_Z_one_group by exact Hks.
      rewrite IH by (intros y Hy; apply Hl; right; exact Hy).
      rewrite fmap_cons, sum_Z_cons.
      destruct (decide (f x ∈ ks)) as [|N]; [reflexivity|].
      exfalso. apply N, Hl. left.
    + intros k. rewrite filter_cons.
      destruct (decide (f x = k)); [rewrite fmap_cons, sum_Z_cons|]; lia.
Qed.

Lemma sum_Z_with_prior (g : WeeklyDoc -> Z) (wd : list WeeklyDoc) :
  sum_Z (g <$> (with_prior wd).*1) = sum_Z (g <$> wd).
Proof.
  rewrite fst_with_prior, fmap_flat_map, sum_Z_flat_map.
  rewrite <- (sum_Z_groups wd_cluster_id g (remove_dups (wd_cluster_id <$> wd)) wd).
  - f_equal. apply list_fmap_ext. intros _ c _.
    apply sum_Z_perm. unfold partition_of. rewrite sort_by_week_perm. reflexivity.
  - apply NoDup_remove_dups.
  - intros x Hx. apply elem_of_remove_dups, list_elem_of_fmap. eauto.
Qed.

Lemma sum_Z_weekly_docs (now lookback_weeks : Z) (db : DB) :
  sum_Z (wd_doc_count <$> weekly_docs now lookback_weeks db)
  = Z.of_nat (length (joined now lookback_weeks db)).
Proof.
  unfold weekly_docs. set (rows := joined now lookback_weeks db).
  rewrite <- list_fmap_compose, <- sum_Z_ones.
  rewrite <- (sum_Z_groups group_key (fun _ => 1) (remove_dups (group_key <$> rows)) rows).
  - f_equal. apply list_fmap_ext. intros _ k _. cbn. rewrite sum_Z_ones. reflexivity.
  - apply NoDup_remove_dups.
  - intros x Hx. apply elem_of_remove_dups, list_elem_of_fmap. eauto.
Qed.

Lemma length_remove_dups {A : Type} `{EqDecision A} (l : list A) :
  (length (remove_dups l) <= length l)%nat.
Proof.
  induction l as [|x l IH]; [reflexivity|].
  cbn [remove_dups]. destruct (decide_rel _ _ _); cbn [length]; lia.
Qed.

(** X15. The [doc_count]s of the table [compute_weekly_trends] writes add up
    to the number of rows of [cluster_membership] that pass the join and the
    [WHERE] clause: every such membership is counted in exactly one row.
    [rows_inserted] is the number of rows of the table and is at most that
    number, and [weeks_computed] is at most [rows_inserted]. *)
Theorem weekly_stats_count_each_post_once (now : Z) (db : DB) (lookback_weeks : Z) :
  let run := compute_weekly_trends now db lookback_weeks in
  sum_Z (doc_count <$> weekly_theme_stats run.1)
    = Z.of_nat (length (joined now lookback_weeks db)) /\
  rows_inserted run.2 = Z.of_nat (length (weekly_theme_stats run.1)) /\
  0 <= weeks_computed run.2 <= rows_inserted run.2 /\
  rows_inserted run.2 <= Z.of_nat (length (joined now lookback_weeks db)).
Proof.
  intros run.
  assert (T : weekly_theme_stats run.1
              = stat_of now <$> with_prior (weekly_docs now lookback_weeks db))
    by apply computed_table.
  assert (R : rows_inserted run.2 = Z.of_nat (length (weekly_theme_stats run.1)))
    by (rewrite T; reflexivity).
  assert (W : weeks_computed run.2
              = Z.of_nat (length (remove_dups (week_start <$> weekly_theme_stats run.1))))
    by (rewrite T; reflexivity).
  split; [|split; [exact R|split]].
  - rewrite T, <- sum_Z_weekly_docs, <- (sum_Z_with_prior wd_doc_count).
    f_equal. rewrite <- !list_fmap_compose. apply list_fmap_ext. intros _ [x p] _. reflexivity.
  - rewrite W, R. pose proof (length_remove_dups (week_start <$> weekly_theme_stats run.1)) as L.
    rewrite length_fmap in L. lia.
  - rewrite R, T, length_fmap.
    rewrite <- (length_fmap fst), <- sum_Z_ones.
    rewrite (sum_Z_with_prior (fun _ => 1)), sum_Z_ones.
    unfold weekly_docs. rewrite length_fmap.
    pose proof (length_remove_dups (group_key <$> joined now lookback_weeks db)) as L.
    rewrite length_fmap in L. lia.
Qed.

(** ** The Monday of a week *)

Lemma weekday_range (d : Z) : 0 <= weekday d < 7.
Proof. unfold weekday. apply Z.mod_pos_bound. lia. Qed.

Lemma weekday_sub (d : Z) : weekday (d - weekday d) = 0.
Proof.
  unfold weekday.
  replace (d - (d + 3) mod 7 + 3) with (((d + 3) / 7) * 7)
    by (pose proof (Z.div_mod (d + 3) 7); lia).
  apply Z_mod_mult.
Qed.

(** X16. [_monday_of_week] never raises on a date: the first day of [date],
    0001-01-01, is itself a Monday, so the subtraction stays in range. Its
    result is a Monday, is the date itself or one of the six days before it,
    is left unchanged by a second application, and is the day
    [date_trunc('week', ...)] gives for every instant of the date. *)
Theorem monday_of_week_in_range (d : Z) :
  date_min <= d <= date_max ->
  exists m,
    _monday_of_week d = Ok m /\
    weekday m = 0 /\ m <= d < m + 7 /\
    _monday_of_week m = Ok m /\
    forall t, 0 <= t < usec_per_day -> week_of (d * usec_per_day + t) = m.
Proof.
  intros R. exists (d - weekday d).
  pose proof (weekday_range d) as W. pose proof (weekday_sub d) as M.
  assert (L : date_min <= d - weekday d).
  { unfold weekday, date_min in *. pose proof (Z.div_mod (d + 3) 7). lia. }
  assert (E : forall x, date_min <= x <= date_max -> date_sub_days x 0 = Ok x).
  { intros x X. unfold date_sub_days. rewrite Z.sub_0_r.
    destruct (Z.leb_spec date_min x), (Z.leb_spec x date_max); try lia. reflexivity. }
  split.
  { unfold _monday_of_week, date_sub_days.
    destruct (Z.leb_spec date_min (d - weekday d)),
      (Z.leb_spec (d - weekday d) date_max); try lia. reflexivity. }
  split; [exact M|]. split; [lia|]. split.
  { unfold _monday_of_week. rewrite M. apply E. lia. }
  intros t T. unfold week_of.
  rewrite Z.div_add_l by (unfold usec_per_day; lia).
  rewrite (Z.div_small t) by lia. rewrite Z.add_0_r. reflexivity.
Qed.

Lemma monday_of_week_in_range_witness :
  exists m, _monday_of_week date_min = Ok m /\ m = date_min /\ weekday m = 0.
Proof.
  destruct (monday_of_week_in_range date_min) as (m & E & W & _);
    [unfold date_min, date_max; lia|].
  exists m. split; [exact E|]. split; [|exact W].
  vm_compute in E. injection E as <-. reflexivity.
Defined.

(** ** The signal store keeps its constraints *)

Lemma upsert_signal_ok (now : Z) (db db' : DB)
  (content_type content_id post_id : string) (result : SignalResult) :
  _upsert_signal now db content_type content_id post_id result = Ok db' ->
  (content_type = "post" \/ content_type = "comment") /\
  exists row,
    signals db' = <[(content_type, content_id) := row]> (signals db) /\
    match signals db !! (content_type, content_id) with
    | Some old => s_post_id row = s_post_id old
    | None => s_post_id row = post_id /\ is_Some (posts db !! post_id)
    end /\
    mkSignalResult (s_is_question row) (s_asks_recommendation row) (s_mentions_cost row)
      (s_mentions_platform row) (s_signal_score row) (s_detected_keywords row) = result /\
    s_collected_at row = now /\
    posts db' = posts db /\ clusters db' = clusters db /\
    cluster_membership db' = cluster_membership db /\
    weekly_theme_stats db' = weekly_theme_stats db.
Proof.
  unfold _upsert_signal.
  destruct (String.eqb content_type "post" || String.eqb content_type "comment")%bool
    eqn:T; [|discriminate].
  cbn [negb].
  assert (T' : content_type = "post" \/ content_type = "comment")
    by (apply orb_true_iff in T as [T|T]; apply String.eqb_eq in T; auto).
  intros H. split; [exact T'|]. revert H.
  destruct (signals db !! (content_type, content_id)) as [old|].
  - intros [= <-]. eexists. cbn. split; [reflexivity|]. destruct result; cbn. auto 10.
  - destruct (posts db !! post_id) eqn:Hp; [|discriminate].
    intros [= <-]. eexists. cbn. split; [reflexivity|]. destruct result; cbn. eauto 10.
Qed.

Lemma upsert_consistent (now : Z) (db db' : DB)
  (content_type content_id post_id : string) (result : SignalResult) :
  signals_consistent db ->
  _upsert_signal now db content_type content_id post_id result = Ok db' ->
  signals_consistent db'.
Proof.
  intros I H. apply upsert_signal_ok in H as (T & row & S & P & _ & _ & Hp & _).
  intros ct cid r L. rewrite S in L. rewrite Hp.
  destruct (decide ((content_type, content_id) = (ct, cid))) as [E|N].
  - rewrite E in L. rewrite lookup_insert_eq in L. injection L as <-.
    injection E as <- <-. split; [exact T|].
    destruct (signals db !! (content_type, content_id)) as [old|] eqn:O.
    + rewrite P. apply (I _ _ _ O).
    + destruct P as [-> Q]. exact Q.
  - rewrite lookup_insert_ne in L by exact N. apply (I _ _ _ L).
Qed.

(** X17. An upsert that succeeds keeps the constraints of [signals]: every
    row still has content type [post] or [comment] and names a post that
    exists. It removes no row, adds at most the row of its key, and never
    changes the [post_id] of a row that was there, whatever [post_id] it is
    called with. *)
Theorem upsert_keeps_constraints (now : Z) (db db' : DB)
  (content_type content_id post_id : string) (result : SignalResult) :
  signals_consistent db ->
  _upsert_signal now db content_type content_id post_id result = Ok db' ->
  signals_consistent db' /\
  (forall k row, signals db !! k = Some row ->
     exists row', signals db' !! k = Some row' /\ s_post_id row' = s_post_id row) /\
  (forall k, is_Some (signals db' !! k) <->
             k = (content_type, content_id) \/ is_Some (signals db !! k)).
Proof.
  intros I H. split; [exact (upsert_consistent _ _ _ _ _ _ _ I H)|].
  apply upsert_signal_ok in H as (T & row & S & P & _ & _ & Hp & _).
  split.
  - intros k r L. rewrite S.
    destruct (decide ((content_type, content_id) = k)) as [<-|N].
    + rewrite lookup_insert_eq. exists row. rewrite L in P. auto.
    + rewrite lookup_insert_ne by exact N. eauto.
  - intros k. rewrite S.
    destruct (decide ((content_type, content_id) = k)) as [<-|N].
    + rewrite lookup_insert_eq. split; [auto | eauto].
    + rewrite lookup_insert_ne by exact N. split; [auto|].
      intros [E|?]; [congruence | assumption].
Qed.

Lemma empty_signals_consistent (db : DB) : signals db = ∅ -> signals_consistent db.
Proof. intros E ct cid row L. rewrite E, lookup_empty in L. discriminate. Qed.

Lemma upsert_keeps_constraints_witness :
  exists db',
    _upsert_signal 100 (counts_db [1%nat]) "post" "Aa" "Aa" (score_text (Some "why?"))
      = Ok db' /\
    signals_consistent db'.
Proof.
  destruct (_upsert_signal 100 (counts_db [1%nat]) "post" "Aa" "Aa" (score_text (Some "why?")))
    as [db'|e] eqn:E; [|vm_compute in E; discriminate E].
  exists db'. split; [reflexivity|].
  apply (upsert_keeps_constraints 100 (counts_db [1%nat]) db' "post" "Aa" "Aa"
           (score_text (Some "why?")) (empty_signals_consistent (counts_db [1%nat]) eq_refl) E).
Defined.

(** ** The batch of score_signals.py *)

Lemma insert_by_created_perm (x : ToScore) (l : list ToScore) :
  insert_by_created x l ≡ₚ x :: l.
Proof.
  induction l as [|y l IH]; [reflexivity|].
  cbn [insert_by_created]. destruct (newer _ _); [reflexivity|].
  rewrite IH. apply Permutation_swap.
Qed.

Lemma sort_by_created_perm (l : list ToScore) : sort_by_created l ≡ₚ l.
Proof.
  induction l as [|x l IH]; [reflexivity|].
  unfold sort_by_created in *. cbn [fold_right].
  rewrite insert_by_created_perm, IH. reflexivity.
Qed.

Lemma omap_ids_sublist {A : Type} (f : string * A -> option ToScore)
  (l : list (string * A)) :
  (forall kv r, f kv = Some r -> ts_content_id r = kv.1) ->
  sublist (ts_content_id <$> omap f l) l.*1.
Proof.
  intros F. induction l as [|kv l IH]; [constructor|].
  cbn [omap list_omap]. destruct (f kv) as [r|] eqn:E.
  - rewrite !fmap_cons, (F kv r E). apply sublist_skip. exact IH.
  - rewrite fmap_cons. apply sublist_cons. exact IH.
Qed.

Lemma post_to_score_some (db : DB) (subreddit : string) (force : bool)
  (kv : string * Post) (r : ToScore) :
  post_to_score db subreddit force kv = Some r ->
  ts_content_id r = kv.1 /\ ts_post_id r = kv.1 /\
  p_subreddit kv.2 = subreddit /\
  (force = false -> signals db !! ("post", kv.1) = None).
Proof.
  unfold post_to_score, unscored.
  destruct (String.eqb _ _) eqn:S; [|discriminate]. apply String.eqb_eq in S.
  destruct force; cbn [orb andb].
  - intros [= <-]. cbn. split; [reflexivity|]. split; [reflexivity|]. split; [exact S|].
    discriminate.
  - destruct (signals db !! ("post", kv.1)); [discriminate|].
    intros [= <-]. cbn. auto.
Qed.

Lemma comment_to_score_some (db : DB) (subreddit : string) (force : bool)
  (kv : string * Comment) (r : ToScore) :
  comment_to_score db subreddit force kv = Some r ->
  ts_content_id r = kv.1 /\ ts_post_id r = cmt_post_id kv.2 /\
  (exists p, posts db !! cmt_post_id kv.2 = Some p /\ p_subreddit p = subreddit) /\
  (force = false -> signals db !! ("comment", kv.1) = None).
Proof.
  unfold comment_to_score, unscored.
  destruct (posts db !! cmt_post_id kv.2) as [p|]; [|discriminate].
  destruct (String.eqb _ _) eqn:S; [|discriminate]. apply String.eqb_eq in S.
  destruct force; cbn [orb andb].
  - intros [= <-]. cbn. split; [reflexivity|]. split; [reflexivity|].
    split; [eauto | discriminate].
  - destruct (signals db !! ("comment", kv.1)); [discriminate|].
    intros [= <-]. cbn. eauto 10.
Qed.

Lemma elem_of_post_rows (db : DB) (subreddit : string) (force : bool) (r : ToScore) :
  r ∈ post_rows db subreddit force <->
  exists post_id p,
    posts db !! post_id = Some p /\ post_to_score db subreddit force (post_id, p) = Some r.
Proof.
  unfold post_rows. rewrite sort_by_created_perm, list_elem_of_omap. split.
  - intros ([k p] & H & E). apply elem_of_map_to_list in H. eauto.
  - intros (k & p & H & E). exists (k, p). split; [apply elem_of_map_to_list; exact H | exact E].
Qed.

Lemma elem_of_comment_rows (db : DB) (comments : gmap string Comment) (subreddit : string)
  (force : bool) (r : ToScore) :
  r ∈ comment_rows db comments subreddit force <->
  exists comment_id c,
    comments !! comment_id = Some c /\
    comment_to_score db subreddit force (comment_id, c) = Some r.
Proof.
  unfold comment_rows. rewrite sort_by_created_perm, list_elem_of_omap. split.
  - intros ([k c] & H & E). apply elem_of_map_to_list in H. eauto.
  - intros (k & c & H & E). exists (k, c). split; [apply elem_of_map_to_list; exact H | exact E].
Qed.

Lemma post_rows_NoDup (db : DB) (subreddit : string) (force : bool) :
  NoDup (ts_content_id <$> post_rows db subreddit force).
Proof.
  unfold post_rows. rewrite sort_by_created_perm.
  apply (sublist_NoDup _ (map_to_list (posts db)).*1);
    [apply (NoDup_fst_map_to_list (posts db))|].
  apply omap_ids_sublist. intros kv r H. apply post_to_score_some in H. tauto.
Qed.

Lemma comment_rows_NoDup (db : DB) (comments : gmap string Comment) (subreddit : string)
  (force : bool) :
  NoDup (ts_content_id <$> comment_rows db comments subreddit force).
Proof.
  unfold comment_rows. rewrite sort_by_created_perm.
  apply (sublist_NoDup _ (map_to_list comments).*1);
    [apply (NoDup_fst_map_to_list comments)|].
  apply omap_ids_sublist. intros kv r H. apply comment_to_score_some in H. tauto.
Qed.
Lemma upsert_signal_succeeds (now : Z) (db : DB)
  (content_type content_id post_id : string) (result : SignalResult) :
  content_type = "post" \/ content_type = "comment" ->
  is_Some (posts db !! post_id) ->
  exists db', _upsert_signal now db content_type content_id post_id result = Ok db'.
Proof.
  intros T [p P]. unfold _upsert_signal.
  assert (E : (String.eqb content_type "post" || String.eqb content_type "comment")%bool
              = true)
    by (destruct T as [-> | ->]; reflexivity).
  rewrite E, P. cbn [negb]. destruct (signals db !! _); eauto.
Qed.

Section BatchRuns.

Variable rt : runtime.
Variable settings : Settings.
Variable net : network.

(** The classifier raises no error of the store. *)
Lemma score_text_llm_err (text : option string) (max_chars n n' : nat) (e : exn) :
  run net n (score_text_llm rt settings text max_chars) = (Err e, n') ->
  e <> IntegrityError.
Proof.
  unfold score_text_llm.
  destruct text as [[|c t]|]; try discriminate.
  destruct (Text.strip (String c t)); [discriminate|].
  rewrite run_bind.
  destruct (call_llm_returns rt settings net
              (SIGNAL_PROMPT (snippet_of (String c t) max_chars)) 30 n)
    as (response & n1 & ->).
  rewrite run_bind.
  destruct (parse_response rt response) as [[r|]|e'] eqn:P;
    cbn [lift run]; try discriminate.
  intros [= <- _]. unfold parse_response in P.
  destruct (or_empty_text response); try (injection P as <-; discriminate).
  destruct (parse_err_cases rt _ _ P) as [[_ [-> | ->]]|[_ ->]]; discriminate.
Qed.

Lemma score_with_method_err (text_body : option string) (method : string)
  (hybrid_min_score : float) (n n' : nat) (e : exn) :
  run net n (_score_text_with_method rt settings text_body method hybrid_min_score)
  = (Err e, n') ->
  e <> IntegrityError.
Proof.
  unfold _score_text_with_method.
  destruct (String.eqb method "rules"); [discriminate|].
  destruct (String.eqb method "llm"); [apply score_text_llm_err|].
  destruct (String.eqb method "hybrid").
  { destruct (_ || _)%bool; [discriminate | apply score_text_llm_err]. }
  intros [= <- _]. discriminate.
Qed.

End BatchRuns.
Section ScoreRows.

Variable rt : runtime.
Variable settings : Settings.
Variable net : network.
Variable now : Z.
Variable content_type method : string.
Variable hybrid_min_score : float.

Lemma run_score_rows_step (row : ToScore) (rows : list ToScore) (db db' : DB) (n n' : nat) :
  run net n (score_rows rt settings now content_type method hybrid_min_score
               (row :: rows) db) = (Ok db', n') ->
  exists result n1 db1,
    run net n (_score_text_with_method rt settings (ts_text row) method hybrid_min_score)
      = (Ok result, n1) /\
    _upsert_signal now db content_type (ts_content_id row) (ts_post_id row) result
      = Ok db1 /\
    run net n1 (score_rows rt settings now content_type method hybrid_min_score rows db1)
      = (Ok db', n').
Proof.
  cbn [score_rows]. rewrite run_bind.
  destruct (run net n (_score_text_with_method rt settings (ts_text row) method
                         hybrid_min_score)) as [[result|e] n1] eqn:R; [|discriminate].
  rewrite run_bind.
  destruct (_upsert_signal now db content_type (ts_content_id row) (ts_post_id row) result)
    as [db1|e] eqn:U; cbn [lift run]; [|discriminate].
  intros H. exists result, n1, db1. auto.
Qed.

Lemma run_score_rows (rows : list ToScore) :
  forall (db db' : DB) (n n' : nat),
    run net n (score_rows rt settings now content_type method hybrid_min_score rows db)
    = (Ok db', n') ->
    posts db' = posts db /\ clusters db' = clusters db /\
    cluster_membership db' = cluster_membership db /\
    weekly_theme_stats db' = weekly_theme_stats db /\
    (signals_consistent db -> signals_consistent db') /\
    (forall k, k ∉ signal_key content_type <$> rows ->
               signals db' !! k = signals db !! k) /\
    (forall k, k ∈ signal_key content_type <$> rows ->
               exists row, signals db' !! k = Some row /\ s_collected_at row = now).
Proof.
  induction rows as [|row rows IH]; intros db db' n n' H.
  - injection H as <- _. do 4 (split; [reflexivity|]). split; [auto|].
    split; [reflexivity|]. intros k Hk. inversion Hk.
  - apply run_score_rows_step in H as (result & n1 & db1 & _ & U & H).
    apply IH in H as (P & C & M & W & I & O & K).
    pose proof (upsert_consistent now db db1 content_type (ts_content_id row)
                  (ts_post_id row) result) as A.
    specialize (fun J => A J U).
    apply upsert_signal_ok in U as (T & r & S & Q & _ & At & P1 & C1 & M1 & W1).
    split; [congruence|]. split; [congruence|]. split; [congruence|].
    split; [congruence|]. split; [|split].
    + intros J. apply I, A, J.
    + intros k Hk. rewrite fmap_cons in Hk. apply not_elem_of_cons in Hk as [N Hk].
      rewrite (O k Hk), S. apply lookup_insert_ne. unfold signal_key in N. congruence.
    + intros k Hk. rewrite fmap_cons in Hk.
      destruct (decide (k ∈ signal_key content_type <$> rows)) as [D|D]; [auto|].
      apply elem_of_cons in Hk as [->|Hk]; [|contradiction].
      rewrite (O _ D), S. unfold signal_key. rewrite lookup_insert_eq. eauto.
Qed.


Lemma run_score_rows_size (rows : list ToScore) :
  forall (db db' : DB) (n n' : nat),
    run net n (score_rows rt settings now content_type method hybrid_min_score rows db)
    = (Ok db', n') ->
    NoDup (ts_content_id <$> rows) ->
    (forall r, r ∈ rows -> signals db !! signal_key content_type r = None) ->
    size (signals db') = (size (signals db) + length rows)%nat.
Proof.
  induction rows as [|row rows IH]; intros db db' n n' H D F.
  - injection H as <- _. cbn [length]. lia.
  - apply run_score_rows_step in H as (result & n1 & db1 & _ & U & H).
    apply upsert_signal_ok in U as (_ & r & S & _).
    rewrite fmap_cons in D. apply NoDup_cons in D as [D1 D2].
    rewrite (IH _ _ _ _ H D2).
    + rewrite S, map_size_insert_None by (apply F; left). cbn [length]. lia.
    + intros r' Hr'. rewrite S, lookup_insert_ne; [apply F; right; exact Hr'|].
      unfold signal_key. intros [= E]. apply D1. rewrite E.
      apply list_elem_of_fmap. eauto.
Qed.

Lemma run_score_rows_err (rows : list ToScore) :
  forall (db : DB) (n n' : nat) (e : exn),
    content_type = "post" \/ content_type = "comment" ->
    (forall r, r ∈ rows -> is_Some (posts db !! ts_post_id r)) ->
    run net n (score_rows rt settings now content_type method hybrid_min_score rows db)
    = (Err e, n') ->
    e <> IntegrityError.
Proof.
  induction rows as [|row rows IH]; intros db n n' e T P; [discriminate|].
  cbn [score_rows]. rewrite run_bind.
  destruct (run net n (_score_text_with_method rt settings (ts_text row) method
                         hybrid_min_score)) as [[result|e'] n1] eqn:R.
  - rewrite run_bind.
    destruct (upsert_signal_succeeds now db content_type (ts_content_id row)
                (ts_post_id row) result T (P row ltac:(left))) as [db1 U].
    rewrite U. cbn [lift run]. apply IH; [exact T|].
    apply upsert_signal_ok in U as (_ & r & _ & _ & _ & _ & -> & _).
    intros r' Hr'. apply P. right. exact Hr'.
  - intros [= <- _]. apply (score_with_method_err rt settings net _ _ _ _ _ _ R).
Qed.

End ScoreRows.
Lemma run_score_rows_rules (rt : runtime) (settings : Settings)
  (net : network) (now : Z) (content_type : string)
  (hybrid_min_score : float) (rows : list ToScore) :
  content_type = "post" \/ content_type = "comment" ->
  NoDup (ts_content_id <$> rows) ->
  forall (db : DB) (n : nat),
    (forall r, r ∈ rows -> is_Some (posts db !! ts_post_id r)) ->
    exists db',
      run net n (score_rows rt settings now content_type "rules" hybrid_min_score rows db)
      = (Ok db', n) /\
      trace net n (score_rows rt settings now content_type "rules" hybrid_min_score rows db)
      = [] /\
      forall r, r ∈ rows ->
        exists row, signals db' !! signal_key content_type r = Some row /\
                    stored_result row = score_text (ts_text r).
Proof.
  intros T. induction rows as [|row rows IH]; intros D db n P.
  - exists db. split; [reflexivity|]. split; [reflexivity|]. intros r Hr. inversion Hr.
  - rewrite fmap_cons in D. apply NoDup_cons in D as [D1 D2].
    destruct (upsert_signal_succeeds now db content_type (ts_content_id row)
                (ts_post_id row) (score_text (ts_text row)) T (P row ltac:(left)))
      as [db1 U].
    cbn [score_rows].
    change (_score_text_with_method rt settings (ts_text row) "rules" hybrid_min_score)
      with (@Ret SignalResult (score_text (ts_text row))).
    cbn [bind]. rewrite U. cbn [lift bind].
    pose proof (upsert_signal_ok _ _ _ _ _ _ _ U)
      as (_ & r1 & S & _ & R1 & _ & P1 & _).
    destruct (IH D2 db1 n) as (db' & R & Tr & K).
    { intros r Hr. rewrite P1. apply P. right. exact Hr. }
    exists db'. split; [exact R|]. split; [exact Tr|].
    intros r Hr. apply elem_of_cons in Hr as [->|Hr]; [|apply K; exact Hr].
    pose proof (run_score_rows rt settings net now content_type "rules" hybrid_min_score
                  rows db1 db' n n R) as (_ & _ & _ & _ & _ & O & _).
    rewrite O.
    + rewrite S. unfold signal_key. rewrite lookup_insert_eq. eauto.
    + intros M. apply list_elem_of_fmap in M as (r' & E & Hr').
      apply D1. unfold signal_key in E. injection E as ->.
      apply list_elem_of_fmap. eauto.
Qed.
Lemma valid_limit_accepted (limit : Z) : valid_limit limit -> limit_rejected limit = false.
Proof.
  unfold valid_limit, limit_rejected. intros H.
  destruct (Z.ltb_spec limit 0), (Z.ltb_spec bigint_max limit); first [lia | reflexivity].
Qed.

Section ScoreSignals.

Variable rt : runtime.
Variable settings : Settings.
Variable net : network.
Variable now : Z.
Variable comments : gmap string Comment.
Variable subreddit scope : string.
Variable limit_posts limit_comments : Z.
Variable force : bool.
Variable method : string.
Variable hybrid_min_score : float.

(** The run of [score_signals], phase by phase. *)
Lemma run_score_signals (db : DB) (n : nat) :
  run net n (score_signals rt settings now db comments subreddit scope limit_posts
               limit_comments force method hybrid_min_score) =
  let prows := posts_to_score db subreddit scope limit_posts force in
  if (has_posts scope && limit_rejected limit_posts)%bool then (Err DataError, n)
  else
    match run net n (score_rows rt settings now "post" method hybrid_min_score prows db) with
    | (Err e, n1) => (Err e, n1)
    | (Ok db1, n1) =>
        let crows := comments_to_score db1 comments subreddit scope limit_comments force in
        if (has_comments scope && limit_rejected limit_comments)%bool
        then (Err DataError, n1)
        else
          match run net n1 (score_rows rt settings now "comment" method hybrid_min_score
                              crows db1) with
          | (Err e, n2) => (Err e, n2)
          | (Ok db2, n2) =>
              (Ok (db2, mkScoreSignalsResult (Z.of_nat (length prows))
                          (Z.of_nat (length crows))), n2)
          end
    end.
Proof.
  unfold score_signals, posts_to_score, comments_to_score, has_posts, has_comments, limited.
  rewrite run_bind.
  destruct (String.eqb scope "posts" || String.eqb scope "both")%bool; cbn [andb].
  - destruct (limit_rejected limit_posts); cbn [bind]; [reflexivity|].
    rewrite run_bind.
    destruct (run net n (score_rows rt settings now "post" method hybrid_min_score _ db))
      as [[db1|e] n1]; [|reflexivity].
    cbn [run]. rewrite run_bind.
    destruct (String.eqb scope "comments" || String.eqb scope "both")%bool; cbn [andb fst snd].
    + destruct (limit_rejected limit_comments); cbn [bind]; [reflexivity|].
      rewrite run_bind.
      destruct (run net n1 (score_rows rt settings now "comment" method hybrid_min_score _
                              db1)) as [[db2|e] n2]; reflexivity.
    + reflexivity.
  - cbn [run score_rows]. rewrite run_bind.
    destruct (String.eqb scope "comments" || String.eqb scope "both")%bool; cbn [andb fst snd].
    + destruct (limit_rejected limit_comments); cbn [bind]; [reflexivity|].
      rewrite run_bind.
      destruct (run net n (score_rows rt settings now "comment" method hybrid_min_score _
                             db)) as [[db2|e] n2]; reflexivity.
    + reflexivity.
Qed.


Lemma posts_to_score_elem (db : DB) (r : ToScore) :
  r ∈ posts_to_score db subreddit scope limit_posts force ->
  ts_post_id r = ts_content_id r /\
  (exists p, posts db !! ts_post_id r = Some p /\ p_subreddit p = subreddit) /\
  (force = false -> signals db !! signal_key "post" r = None).
Proof.
  unfold posts_to_score. destruct (_ || _)%bool; [|intros H; inversion H].
  intros H. apply subseteq_take, elem_of_post_rows in H as (post_id & p & L & E).
  apply post_to_score_some in E as (E1 & E2 & E3 & E4). cbn [fst snd] in *.
  unfold signal_key. rewrite E1, E2. eauto 10.
Qed.

Lemma comments_to_score_elem (db : DB) (r : ToScore) :
  r ∈ comments_to_score db comments subreddit scope limit_comments force ->
  (exists p, posts db !! ts_post_id r = Some p /\ p_subreddit p = subreddit) /\
  (force = false -> signals db !! signal_key "comment" r = None).
Proof.
  unfold comments_to_score. destruct (_ || _)%bool; [|intros H; inversion H].
  intros H. apply subseteq_take, elem_of_comment_rows in H as (comment_id & c & L & E).
  apply comment_to_score_some in E as (E1 & E2 & E3 & E4). cbn [fst snd] in *.
  unfold signal_key. rewrite E1, E2. eauto 10.
Qed.

Lemma posts_to_score_NoDup (db : DB) :
  NoDup (ts_content_id <$> posts_to_score db subreddit scope limit_posts force).
Proof.
  unfold posts_to_score. destruct (_ || _)%bool; [|constructor].
  apply (sublist_NoDup _ (ts_content_id <$> post_rows db subreddit force));
    [apply post_rows_NoDup | apply fmap_sublist, sublist_take].
Qed.

Lemma comments_to_score_NoDup (db : DB) :
  NoDup (ts_content_id <$> comments_to_score db comments subreddit scope limit_comments force).
Proof.
  unfold comments_to_score. destruct (_ || _)%bool; [|constructor].
  apply (sublist_NoDup _ (ts_content_id <$> comment_rows db comments subreddit force));
    [apply comment_rows_NoDup | apply fmap_sublist, sublist_take].
Qed.

(** The comments to score do not depend on the signals of posts. *)
Lemma comments_to_score_ext (db db1 : DB) :
  posts db1 = posts db ->
  (forall comment_id,
     signals db1 !! ("comment", comment_id) = signals db !! ("comment", comment_id)) ->
  comments_to_score db1 comments subreddit scope limit_comments force
  = comments_to_score db comments subreddit scope limit_comments force.
Proof.
  intros P S. unfold comments_to_score, comment_rows.
  assert (E : forall kv, comment_to_score db1 subreddit force kv
                         = comment_to_score db subreddit force kv)
    by (intros kv; unfold comment_to_score, unscored; rewrite P, S; reflexivity).
  assert (O : forall l : list (string * Comment),
             omap (comment_to_score db1 subreddit force) l
             = omap (comment_to_score db subreddit force) l).
  { induction l as [|kv l IH]; [reflexivity|]. cbn. rewrite E.
    destruct (comment_to_score db subreddit force kv); [f_equal|]; exact IH. }
  rewrite O. reflexivity.
Qed.

Lemma not_comment_key (rows : list ToScore) (comment_id : string) :
  ("comment", comment_id) ∉ signal_key "post" <$> rows.
Proof. intros H. apply list_elem_of_fmap in H as (r & E & _). discriminate E. Qed.

Lemma not_post_key (rows : list ToScore) (post_id : string) :
  ("post", post_id) ∉ signal_key "comment" <$> rows.
Proof. intros H. apply list_elem_of_fmap in H as (r & E & _). discriminate E. Qed.

(** A run that returns went through the two loops. *)
Lemma score_signals_phases (db db' : DB) (res : ScoreSignalsResult) (n n' : nat) :
  run net n (score_signals rt settings now db comments subreddit scope limit_posts
               limit_comments force method hybrid_min_score) = (Ok (db', res), n') ->
  let prows := posts_to_score db subreddit scope limit_posts force in
  let crows := comments_to_score db comments subreddit scope limit_comments force in
  exists db1 n1,
    run net n (score_rows rt settings now "post" method hybrid_min_score prows db)
      = (Ok db1, n1) /\
    run net n1 (score_rows rt settings now "comment" method hybrid_min_score crows db1)
      = (Ok db', n') /\
    res = mkScoreSignalsResult (Z.of_nat (length prows)) (Z.of_nat (length crows)) /\
    (has_posts scope = true -> valid_limit limit_posts) /\
    (has_comments scope = true -> valid_limit limit_comments).
Proof.
  rewrite run_score_signals. cbv zeta.
  destruct (has_posts scope && limit_rejected limit_posts)%bool eqn:LP; [discriminate|].
  destruct (run net n (score_rows rt settings now "post" method hybrid_min_score _ db))
    as [[db1|e] n1] eqn:R1; [|discriminate].
  destruct (has_comments scope && limit_rejected limit_comments)%bool eqn:LC; [discriminate|].
  assert (X : comments_to_score db1 comments subreddit scope limit_comments force
              = comments_to_score db comments subreddit scope limit_comments force).
  { pose proof (run_score_rows _ _ _ _ _ _ _ _ _ _ _ _ R1) as (P & _ & _ & _ & _ & O & _).
    apply comments_to_score_ext; [exact P|].
    intros c. apply O, not_comment_key. }
  rewrite X.
  destruct (run net n1 (score_rows rt settings now "comment" method hybrid_min_score _ db1))
    as [[db2|e] n2] eqn:R2; [|discriminate].
  intros [= <- <- <-]. exists db1, n1.
  split; [reflexivity|]. split; [exact R2|]. split; [reflexivity|].
  unfold valid_limit, limit_rejected in *.
  split; intros H; rewrite H in *; cbn [andb] in *.
  - apply orb_false_elim in LP as [A B]. apply Z.ltb_ge in A, B. lia.
  - apply orb_false_elim in LC as [A B]. apply Z.ltb_ge in A, B. lia.
Qed.

Lemma limit_rejected_invalid (limit : Z) : limit_rejected limit = true -> ~ valid_limit limit.
Proof.
  unfold valid_limit, limit_rejected. intros H V.
  apply orb_true_iff in H as [H|H]; apply Z.ltb_lt in H; lia.
Qed.

(** X18. [score_signals] never fails on a constraint of the store: the rows
    it fetches are of posts that exist and carry one of the two content
    types, so that no upsert of a run is rejected, and no exception that a
    run raises is an [IntegrityError]. *)
Theorem score_signals_errors (db : DB) (n n' : nat) (e : exn) :
  run net n (score_signals rt settings now db comments subreddit scope limit_posts
               limit_comments force method hybrid_min_score) = (Err e, n') ->
  e <> IntegrityError.
Proof.
  rewrite run_score_signals. cbv zeta.
  destruct (has_posts scope && limit_rejected limit_posts)%bool;
    [intros [= <- _]; discriminate|].
  destruct (run net n (score_rows rt settings now "post" method hybrid_min_score _ db))
    as [[db1|e1] n1] eqn:R1.
  - destruct (has_comments scope && limit_rejected limit_comments)%bool;
      [intros [= <- _]; discriminate|].
    destruct (run net n1 (score_rows rt settings now "comment" method hybrid_min_score _
                            db1)) as [[db2|e2] n2] eqn:R2; [discriminate|].
    intros [= <- _].
    apply (run_score_rows_err _ _ _ _ _ _ _ _ _ _ _ _ (or_intror eq_refl)) in R2;
      [exact R2|].
    intros r Hr. apply comments_to_score_elem in Hr as [(p & -> & _) _]. eauto.
  - intros [= <- _].
    apply (run_score_rows_err _ _ _ _ _ _ _ _ _ _ _ _ (or_introl eq_refl)) in R1;
      [exact R1|].
    intros r Hr. apply posts_to_score_elem in Hr as (_ & (p & -> & _) & _). eauto.
Qed.

(** X19. What a run of [score_signals] that returns has done. Only
    [signals] has changed, and it still meets its constraints. The counts
    returned are the numbers of rows fetched, each within its limit. Every
    fetched post and comment has a row written in this transaction, and no
    other key has changed. Without [force], no row that was there has
    changed, and the table has grown by exactly the two counts. *)
Theorem score_signals_effect (db db' : DB) (res : ScoreSignalsResult) (n n' : nat) :
  run net n (score_signals rt settings now db comments subreddit scope limit_posts
               limit_comments force method hybrid_min_score) = (Ok (db', res), n') ->
  let prows := posts_to_score db subreddit scope limit_posts force in
  let crows := comments_to_score db comments subreddit scope limit_comments force in
  (posts db' = posts db /\ clusters db' = clusters db /\
   cluster_membership db' = cluster_membership db /\
   weekly_theme_stats db' = weekly_theme_stats db) /\
  (signals_consistent db -> signals_consistent db') /\
  (posts_scored res = Z.of_nat (length prows) /\
   comments_scored res = Z.of_nat (length crows) /\
   (has_posts scope = true -> posts_scored res <= limit_posts) /\
   (has_comments scope = true -> comments_scored res <= limit_comments)) /\
  (forall k, k ∈ (signal_key "post" <$> prows) ++ (signal_key "comment" <$> crows) ->
     exists row, signals db' !! k = Some row /\ s_collected_at row = now) /\
  (forall k, k ∉ (signal_key "post" <$> prows) ++ (signal_key "comment" <$> crows) ->
     signals db' !! k = signals db !! k) /\
  (force = false ->
   (forall k row, signals db !! k = Some row -> signals db' !! k = Some row) /\
   Z.of_nat (size (signals db'))
   = Z.of_nat (size (signals db)) + posts_scored res + comments_scored res).
Proof.
  intros H prows crows.
  apply score_signals_phases in H as (db1 & n1 & R1 & R2 & -> & VP & VC).
  fold prows in R1. fold crows in R2.
  pose proof (run_score_rows _ _ _ _ _ _ _ _ _ _ _ _ R1)
    as (P1 & C1 & M1 & W1 & I1 & O1 & K1).
  pose proof (run_score_rows _ _ _ _ _ _ _ _ _ _ _ _ R2)
    as (P2 & C2 & M2 & W2 & I2 & O2 & K2).
  assert (U : forall k, k ∉ (signal_key "post" <$> prows) ++ (signal_key "comment" <$> crows) ->
                        signals db' !! k = signals db !! k).
  { intros k Hk. apply not_elem_of_app in Hk as [Hp Hc]. rewrite (O2 k Hc). apply O1, Hp. }
  split; [repeat split; congruence|]. split; [auto|]. split.
  { cbn [posts_scored comments_scored]. split; [reflexivity|]. split; [reflexivity|].
    split; intros S.
    - specialize (VP S). unfold valid_limit in VP. subst prows. unfold posts_to_score.
      destruct (_ || _)%bool; [|cbn; lia].
      pose proof (List.firstn_le_length (Z.to_nat limit_posts)
                    (post_rows db subreddit force)). lia.
    - specialize (VC S). unfold valid_limit in VC. subst crows. unfold comments_to_score.
      destruct (_ || _)%bool; [|cbn; lia].
      pose proof (List.firstn_le_length (Z.to_nat limit_comments)
                    (comment_rows db comments subreddit force)). lia. }
  split.
  { intros k Hk.
    destruct (decide (k ∈ signal_key "comment" <$> crows)) as [D|D]; [auto|].
    apply elem_of_app in Hk as [Hk|Hk]; [|contradiction].
    rewrite (O2 k D). auto. }
  split; [exact U|].
  intros F.
  assert (Np : forall r, r ∈ prows -> signals db !! signal_key "post" r = None)
    by (intros r Hr; apply posts_to_score_elem in Hr as (_ & _ & X); auto).
  assert (Nc : forall r, r ∈ crows -> signals db !! signal_key "comment" r = None)
    by (intros r Hr; apply comments_to_score_elem in Hr as (_ & X); auto).
  split.
  - intros k row L. rewrite U; [exact L|].
    intros Hk. apply elem_of_app in Hk as [Hk|Hk];
      apply list_elem_of_fmap in Hk as (r & -> & Hr);
      [rewrite (Np r Hr) in L | rewrite (Nc r Hr) in L]; discriminate.
  - cbn [posts_scored comments_scored].
    rewrite (run_score_rows_size _ _ _ _ _ _ _ _ _ _ _ _ R2
               (comments_to_score_NoDup db)).
    + rewrite (run_score_rows_size _ _ _ _ _ _ _ _ _ _ _ _ R1
                 (posts_to_score_NoDup db) Np). subst prows crows. lia.
    + intros r Hr. rewrite O1; [apply Nc, Hr|].
      unfold signal_key. apply not_comment_key.
Qed.

End ScoreSignals.

Lemma length_omap_le {A B : Type} (f : A -> option B) (l : list A) :
  (length (omap f l) <= length l)%nat.
Proof.
  induction l as [|x l IH]; [reflexivity|].
  cbn. destruct (f x); cbn [length]; lia.
Qed.

Lemma omap_nil {A B : Type} (f : A -> option B) (l : list A) :
  (forall x, x ∈ l -> f x = None) -> omap f l = [].
Proof.
  induction l as [|x l IH]; intros H; [reflexivity|].
  cbn. rewrite (H x) by left. apply IH. intros y Hy. apply H. right. exact Hy.
Qed.

Lemma post_rows_length (db : DB) (subreddit : string) (force : bool) :
  (length (post_rows db subreddit force) <= size (posts db))%nat.
Proof.
  unfold post_rows. rewrite sort_by_created_perm, <- length_map_to_list.
  apply length_omap_le.
Qed.

Lemma comment_rows_length (db : DB) (comments : gmap string Comment) (subreddit : string)
  (force : bool) :
  (length (comment_rows db comments subreddit force) <= size comments)%nat.
Proof.
  unfold comment_rows. rewrite sort_by_created_perm, <- length_map_to_list.
  apply length_omap_le.
Qed.

(** X20. With the method [rules], [score_signals] returns whenever its
    limits are ones the database accepts, and posts nothing to a provider.
    The row it stores for every fetched post and comment carries the result
    of the rule scorer on the text of that row. *)
Theorem score_signals_rules (rt : runtime) (settings : Settings)
  (net : network) (now : Z) (db : DB) (comments : gmap string Comment)
  (subreddit scope : string) (limit_posts limit_comments : Z) (force : bool)
  (hybrid_min_score : float) (n : nat) :
  (has_posts scope = true -> valid_limit limit_posts) ->
  (has_comments scope = true -> valid_limit limit_comments) ->
  let prows := posts_to_score db subreddit scope limit_posts force in
  let crows := comments_to_score db comments subreddit scope limit_comments force in
  exists db',
    run net n (score_signals rt settings now db comments subreddit scope limit_posts
                 limit_comments force "rules" hybrid_min_score)
    = (Ok (db', mkScoreSignalsResult (Z.of_nat (length prows)) (Z.of_nat (length crows))),
       n) /\
    (forall r, r ∈ prows ->
       exists row, signals db' !! ("post", ts_content_id r) = Some row /\
                   stored_result row = score_text (ts_text r)) /\
    (forall r, r ∈ crows ->
       exists row, signals db' !! ("comment", ts_content_id r) = Some row /\
                   stored_result row = score_text (ts_text r)).
Proof.
  intros VP VC prows crows. rewrite run_score_signals. cbv zeta.
  assert (LP : (has_posts scope && limit_rejected limit_posts)%bool = false)
    by (destruct (has_posts scope); [rewrite valid_limit_accepted; auto | reflexivity]).
  assert (LC : (has_comments scope && limit_rejected limit_comments)%bool = false)
    by (destruct (has_comments scope); [rewrite valid_limit_accepted; auto | reflexivity]).
  rewrite LP.
  destruct (run_score_rows_rules rt settings net now "post" hybrid_min_score prows
              (or_introl eq_refl)
              (posts_to_score_NoDup subreddit scope limit_posts force db) db n)
    as (db1 & R1 & _ & K1).
  { intros r Hr. apply posts_to_score_elem in Hr as (_ & (p & -> & _) & _). eauto. }
  fold prows. rewrite R1, LC.
  pose proof (run_score_rows _ _ _ _ _ _ _ _ _ _ _ _ R1) as (P1 & _ & _ & _ & _ & O1 & _).
  assert (X : comments_to_score db1 comments subreddit scope limit_comments force = crows)
    by (apply comments_to_score_ext; [exact P1 | intros c; apply O1, not_comment_key]).
  rewrite X.
  destruct (run_score_rows_rules rt settings net now "comment" hybrid_min_score crows
              (or_intror eq_refl)
              (comments_to_score_NoDup comments subreddit scope limit_comments force db)
              db1 n)
    as (db2 & R2 & _ & K2).
  { intros r Hr. apply comments_to_score_elem in Hr as [(p & E & _) _].
    rewrite P1, E. eauto. }
  rewrite R2. exists db2. split; [reflexivity|]. split; [|exact K2].
  intros r Hr. destruct (K1 r Hr) as (row & L & S). exists row. split; [|exact S].
  pose proof (run_score_rows _ _ _ _ _ _ _ _ _ _ _ _ R2) as (_ & _ & _ & _ & _ & O2 & _).
  rewrite O2; [exact L | apply not_post_key].
Qed.

Lemma score_signals_rules_witness :
  exists db',
    run unreachable 0 (score_signals demo_runtime demo_settings 500 forum_db forum_comments
                         "UKPersonalFinance" "both" 500 2000 false "rules" 0.2)
    = (Ok (db', mkScoreSignalsResult 2 1), 0%nat) /\
    stored_result <$> signals db' !! ("post", "p1")
    = Some (score_text (Some (cat ["Which ISA?"; nl; nl; "Fees matter."]))).
Proof.
  destruct (score_signals_rules demo_runtime demo_settings unreachable 500 forum_db
              forum_comments "UKPersonalFinance" "both" 500 2000 false 0.2 0)
    as (db' & R & K & _);
    [unfold valid_limit, bigint_max; lia | unfold valid_limit, bigint_max; lia |].
  exists db'. split; [exact R|].
  destruct (K (mkToScore "p1" "p1" (Some (cat ["Which ISA?"; nl; nl; "Fees matter."]))
                 (Some 200))) as (row & L & S).
  { apply list_elem_of_In. vm_compute. auto. }
  cbn [ts_content_id ts_text] in L, S. rewrite L. cbn. rewrite S. reflexivity.
Defined.

Lemma score_signals_errors_witness :
  run (answering (score_only big_int_digits)) 0
    (score_signals demo_runtime demo_settings 500 forum_db forum_comments
       "UKPersonalFinance" "posts" 500 2000 false "llm" 0.2)
  = (Err OverflowError, 1%nat) /\
  OverflowError <> IntegrityError.
Proof.
  assert (E : run (answering (score_only big_int_digits)) 0
                (score_signals demo_runtime demo_settings 500 forum_db forum_comments
                   "UKPersonalFinance" "posts" 500 2000 false "llm" 0.2)
              = (Err OverflowError, 1%nat)) by (vm_compute; reflexivity).
  split; [exact E|].
  exact (score_signals_errors demo_runtime demo_settings (answering (score_only big_int_digits))
           500 forum_comments "UKPersonalFinance" "posts" 500 2000 false "llm" 0.2
           forum_db 0 1 OverflowError E).
Defined.

Lemma score_signals_effect_witness :
  exists db',
    run (answering full_reply) 0
      (score_signals demo_runtime demo_settings 500 forum_db forum_comments
         "UKPersonalFinance" "both" 1 2000 false "llm" 0.2)
    = (Ok (db', mkScoreSignalsResult 1 1), 2%nat) /\
    Z.of_nat (size (signals db')) = 2 /\ posts db' = posts forum_db.
Proof.
  destruct (run (answering full_reply) 0
              (score_signals demo_runtime demo_settings 500 forum_db forum_comments
                 "UKPersonalFinance" "both" 1 2000 false "llm" 0.2))
    as [[[db' res]|e] n'] eqn:R; [|vm_compute in R; discriminate R].
  assert (E : (res, n') = (mkScoreSignalsResult 1 1, 2%nat))
    by (vm_compute in R; injection R as _ <- <-; reflexivity).
  injection E as -> ->.
  exists db'. split; [reflexivity|].
  destruct (score_signals_effect demo_runtime demo_settings (answering full_reply) 500
              forum_comments "UKPersonalFinance" "both" 1 2000 false "llm" 0.2
              forum_db db' (mkScoreSignalsResult 1 1) 0 2 R)
    as ((P & _) & _ & _ & _ & _ & F).
  destruct (F eq_refl) as [_ S]. split; [|exact P].
  rewrite S. reflexivity.
Defined.

(** X21. A second run without [force] scores nothing: after a run that
    returned, with limits that cover the tables, every post and comment of
    the subreddit has its row, so that a further run, whatever its method,
    provider and instant, fetches no row, leaves the database as it is and
    posts nothing. *)
Theorem score_signals_rerun (rt : runtime) (settings : Settings)
  (net : network) (now : Z) (db db1 : DB) (comments : gmap string Comment)
  (subreddit scope : string) (limit_posts limit_comments : Z)
  (method : string) (hybrid_min_score : float) (res1 : ScoreSignalsResult) (n n1 : nat) :
  run net n (score_signals rt settings now db comments subreddit scope limit_posts
               limit_comments false method hybrid_min_score) = (Ok (db1, res1), n1) ->
  Z.of_nat (size (posts db)) <= limit_posts ->
  Z.of_nat (size comments) <= limit_comments ->
  forall (net' : network) (now' : Z) (method' : string)
         (hybrid_min_score' : float) (n2 : nat),
    run net' n2 (score_signals rt settings now' db1 comments subreddit scope limit_posts
                   limit_comments false method' hybrid_min_score')
    = (Ok (db1, mkScoreSignalsResult 0 0), n2).
Proof.
  intros H SP SC net' now' method' h' n2.
  apply score_signals_phases in H as (db0 & n0 & R1 & R2 & _ & VP & VC).
  pose proof (run_score_rows _ _ _ _ _ _ _ _ _ _ _ _ R1)
    as (P1 & _ & _ & _ & _ & O1 & K1).
  pose proof (run_score_rows _ _ _ _ _ _ _ _ _ _ _ _ R2)
    as (P2 & _ & _ & _ & _ & O2 & K2).
  assert (Ep : posts_to_score db1 subreddit scope limit_posts false = []).
  { unfold posts_to_score in *. destruct (_ || _)%bool; [|reflexivity].
    unfold post_rows at 1. rewrite omap_nil; [apply take_nil|].
    intros [post_id p] Hp. apply elem_of_map_to_list in Hp.
    destruct (post_to_score db1 subreddit false (post_id, p)) as [r|] eqn:E; [|reflexivity].
    exfalso. apply post_to_score_some in E as (_ & _ & Es & En). cbn [fst snd] in *.
    specialize (En eq_refl). rewrite O2 in En by apply not_post_key.
    rewrite P2, P1 in Hp.
    destruct (signals db !! ("post", post_id)) as [old|] eqn:Old.
    - destruct (decide (("post", post_id) ∈ signal_key "post" <$>
                          take (Z.to_nat limit_posts) (post_rows db subreddit false)))
        as [D|D].
      + destruct (K1 _ D) as (row & L & _). congruence.
      + rewrite (O1 _ D) in En. congruence.
    - assert (M : mkToScore post_id post_id
                    (Some (cat [or_empty (p_title p); nl; nl; or_empty (p_body p)]))
                    (p_created_utc p) ∈ post_rows db subreddit false).
      { apply elem_of_post_rows. exists post_id, p. split; [exact Hp|].
        unfold post_to_score, unscored. cbn [fst snd]. rewrite Old, Es, String.eqb_refl.
        reflexivity. }
      rewrite <- (take_ge (post_rows db subreddit false) (Z.to_nat limit_posts)) in M
        by (pose proof (post_rows_length db subreddit false); lia).
      destruct (K1 ("post", post_id)) as (row & L & _); [|congruence].
      apply list_elem_of_fmap. eexists. split; [|exact M]. reflexivity. }
  assert (Ec : comments_to_score db1 comments subreddit scope limit_comments false = []).
  { unfold comments_to_score in *. destruct (_ || _)%bool; [|reflexivity].
    unfold comment_rows at 1. rewrite omap_nil; [apply take_nil|].
    intros [comment_id c] Hc. apply elem_of_map_to_list in Hc.
    destruct (comment_to_score db1 subreddit false (comment_id, c)) as [r|] eqn:E;
      [|reflexivity].
    exfalso. apply comment_to_score_some in E as (_ & _ & (p & Lp & Es) & En).
    cbn [fst snd] in *. specialize (En eq_refl). rewrite P2, P1 in Lp.
    destruct (signals db !! ("comment", comment_id)) as [old|] eqn:Old.
    - destruct (decide (("comment", comment_id) ∈ signal_key "comment" <$>
                          take (Z.to_nat limit_comments)
                            (comment_rows db comments subreddit false))) as [D|D].
      + destruct (K2 _ D) as (row & L & _). congruence.
      + rewrite (O2 _ D), O1 in En by apply not_comment_key. congruence.
    - assert (M : mkToScore comment_id (cmt_post_id c) (cmt_body c) (cmt_created_utc c)
                  ∈ comment_rows db comments subreddit false).
      { apply elem_of_comment_rows. exists comment_id, c. split; [exact Hc|].
        unfold comment_to_score, unscored. cbn [fst snd].
        rewrite Lp, Old, Es, String.eqb_refl. reflexivity. }
      rewrite <- (take_ge (comment_rows db comments subreddit false)
                    (Z.to_nat limit_comments)) in M
        by (pose proof (comment_rows_length db comments subreddit false); lia).
      destruct (K2 ("comment", comment_id)) as (row & L & _); [|congruence].
      apply list_elem_of_fmap. eexists. split; [|exact M]. reflexivity. }
  rewrite run_score_signals. cbv zeta. rewrite Ep.
  assert (LP : (has_posts scope && limit_rejected limit_posts)%bool = false)
    by (destruct (has_posts scope); [rewrite valid_limit_accepted; auto | reflexivity]).
  assert (LC : (has_comments scope && limit_rejected limit_comments)%bool = false)
    by (destruct (has_comments scope); [rewrite valid_limit_accepted; auto | reflexivity]).
  rewrite LP. cbn [score_rows run]. rewrite Ec, LC. reflexivity.
Qed.

Lemma score_signals_rerun_witness :
  exists db1,
    run unreachable 0 (score_signals demo_runtime demo_settings 500 forum_db forum_comments
                         "UKPersonalFinance" "both" 500 2000 false "rules" 0.2)
    = (Ok (db1, mkScoreSignalsResult 2 1), 0%nat) /\
    run (answering full_reply) 7
      (score_signals demo_runtime demo_settings 900 db1 forum_comments
         "UKPersonalFinance" "both" 500 2000 false "llm" 0.5)
    = (Ok (db1, mkScoreSignalsResult 0 0), 7%nat).
Proof.
  destruct (run unreachable 0
              (score_signals demo_runtime demo_settings 500 forum_db forum_comments
                 "UKPersonalFinance" "both" 500 2000 false "rules" 0.2))
    as [[[db1 res]|e] n1] eqn:R; [|vm_compute in R; discriminate R].
  assert (E : (res, n1) = (mkScoreSignalsResult 2 1, 0%nat))
    by (vm_compute in R; injection R as _ <- <-; reflexivity).
  injection E as -> ->.
  exists db1. split; [reflexivity|].
  apply (score_signals_rerun demo_runtime demo_settings unreachable 500 forum_db db1
           forum_comments "UKPersonalFinance" "both" 500 2000 "rules" 0.2
           (mkScoreSignalsResult 2 1) 0 0 R); vm_compute; discriminate.
Defined.

(** ** Trending themes of a computed table *)

Lemma table_row_basic (now : Z) (db : DB) (lookback_weeks : Z) (r : WeeklyThemeStat) :
  r ∈ weekly_theme_stats (compute_weekly_trends now db lookback_weeks).1 ->
  0 <= cluster_id r /\ cluster_label r = label_of db (cluster_id r) /\ 1 <= doc_count r.
Proof.
  rewrite computed_table, list_elem_of_fmap. intros ([x prior] & -> & Hx).
  apply elem_of_with_prior in Hx as [Hx _].
  cbn [stat_of cluster_id cluster_label doc_count].
  pose proof (weekly_docs_label now db lookback_weeks x Hx) as L.
  apply elem_of_weekly_docs in Hx as (j & Hj & _ & Ec & D).
  unfold joined in Hj. apply list_elem_of_omap in Hj as (cm & _ & J).
  apply join_row_some in J as (_ & p & t & _ & _ & _ & N & _ & _ & Jc).
  rewrite Ec, Jc. rewrite Ec, Jc in L. auto.
Qed.

Lemma insert_by_score_perm (x : RecentRow) (l : list RecentRow) :
  insert_by_score x l ≡ₚ x :: l.
Proof.
  induction l as [|y l IH]; [reflexivity|].
  cbn [insert_by_score]. destruct (float8_lt _ _); [reflexivity|].
  rewrite IH. apply Permutation_swap.
Qed.

Lemma sort_by_score_perm (l : list RecentRow) : sort_by_score l ≡ₚ l.
Proof.
  induction l as [|x l IH]; [reflexivity|].
  unfold sort_by_score in *. cbn [fold_right]. rewrite insert_by_score_perm, IH. reflexivity.
Qed.

Lemma sum_Z_at_least (l : list Z) :
  (forall x, x ∈ l -> 1 <= x) -> Z.of_nat (length l) <= sum_Z l.
Proof.
  induction l as [|x l IH]; intros H; [reflexivity|].
  rewrite sum_Z_cons. cbn [length].
  pose proof (H x ltac:(left)). pose proof (IH (fun y Hy => H y ltac:(right; exact Hy))). lia.
Qed.

(** X22. The trending themes of a table that [compute_weekly_trends] wrote
    list every cluster at most once, although the query groups by cluster
    and label: the label of a row is the one of its cluster. Every theme
    listed is a cluster other than the noise cluster, with the label the
    table [clusters] has for it and a [total_docs] of at least 1 and at least
    [min_docs]. *)
Theorem trending_one_entry_per_cluster (now now' : Z) (db : DB)
  (lookback_weeks weeks min_docs limit : Z) (themes : list TrendingTheme) :
  get_trending_themes now' (compute_weekly_trends now db lookback_weeks).1
    weeks min_docs limit = Ok themes ->
  NoDup (t_cluster_id <$> themes) /\
  forall t, t ∈ themes ->
    0 <= t_cluster_id t /\ t_label t = label_of db (t_cluster_id t) /\
    1 <= t_total_docs t /\ min_docs <= t_total_docs t.
Proof.
  set (db' := (compute_weekly_trends now db lookback_weeks).1).
  assert (B : forall s, s ∈ weekly_theme_stats db' ->
                0 <= cluster_id s /\ cluster_label s = label_of db (cluster_id s) /\
                1 <= doc_count s) by apply table_row_basic.
  clearbody db'.
  unfold get_trending_themes. destruct (Z.ltb limit 0); [discriminate|]. intros [= <-].
  unfold trending_rows.
  set (rows := filter (fun s => weeks_before now' weeks <= week_start s * usec_per_day)
                 (weekly_theme_stats db')).
  assert (R : forall s, s ∈ rows -> s ∈ weekly_theme_stats db')
    by (intros s Hs; apply list_elem_of_filter in Hs as [_ Hs]; exact Hs).
  set (ks := remove_dups (theme_key <$> rows)).
  assert (K : forall k, k ∈ ks -> exists s, s ∈ rows /\ theme_key s = k).
  { intros k Hk. apply elem_of_remove_dups, list_elem_of_fmap in Hk as (s & -> & Hs). eauto. }
  assert (D : NoDup ks) by apply NoDup_remove_dups.
  clearbody ks rows.
  split.
  - rewrite <- list_fmap_compose.
    change (t_cluster_id ∘ trending_theme) with r_cluster_id.
    apply (sublist_NoDup _ (r_cluster_id <$> sort_by_score
             (filter (fun r => min_docs <= r_total_docs r) (recent_row rows <$> ks))));
      [|apply fmap_sublist, sublist_take].
    rewrite sort_by_score_perm.
    apply (sublist_NoDup _ (r_cluster_id <$> (recent_row rows <$> ks)));
      [|apply fmap_sublist, sublist_filter].
    rewrite <- list_fmap_compose.
    apply NoDup_fmap_2_strong; [|exact D].
    intros k1 k2 H1 H2 E. cbn in E.
    destruct (K k1 H1) as (s1 & S1 & <-). destruct (K k2 H2) as (s2 & S2 & <-).
    destruct (B s1 (R s1 S1)) as (_ & L1 & _). destruct (B s2 (R s2 S2)) as (_ & L2 & _).
    unfold theme_key in *. cbn in E. rewrite L1, L2, E. reflexivity.
  - intros t Ht. apply list_elem_of_fmap in Ht as (r & -> & Hr).
    apply subseteq_take in Hr. rewrite sort_by_score_perm in Hr.
    apply list_elem_of_filter in Hr as [M Hr].
    apply list_elem_of_fmap in Hr as (k & -> & Hk).
    destruct (K k Hk) as (s & Hs & <-).
    destruct (B s (R s Hs)) as (N & L & _).
    cbn [trending_theme t_cluster_id t_label t_total_docs recent_row r_cluster_id
           r_cluster_label r_total_docs theme_key fst snd] in M |- *.
    split; [exact N|]. split; [exact L|]. split; [|exact M].
    change (fold_left Z.add ?l 0) with (sum_Z l).
    set (members := filter _ rows).
    assert (Hm : s ∈ members) by (apply list_elem_of_filter; auto).
    assert (G : Z.of_nat (length (doc_count <$> members)) <= sum_Z (doc_count <$> members)).
    { apply sum_Z_at_least. intros x Hx. apply list_elem_of_fmap in Hx as (s' & -> & Hs').
      apply list_elem_of_filter in Hs' as [_ Hs']. apply (B s' (R s' Hs')). }
    rewrite length_fmap in G. destruct members; [inversion Hm|]. cbn [length] in G. lia.
Qed.

Lemma trending_one_entry_per_cluster_witness :
  exists themes,
    get_trending_themes demo_now
      (compute_weekly_trends demo_now (counts_db [10; 5; 20]%nat) 12).1 4 2 10 = Ok themes /\
    t_cluster_id <$> themes = [1] /\ NoDup (t_cluster_id <$> themes).
Proof.
  destruct (get_trending_themes demo_now
              (compute_weekly_trends demo_now (counts_db [10; 5; 20]%nat) 12).1 4 2 10)
    as [themes|e] eqn:E; [|vm_compute in E; discriminate E].
  exists themes. split; [reflexivity|].
  split; [vm_compute in E; injection E as <-; reflexivity|].
  apply (trending_one_entry_per_cluster demo_now demo_now (counts_db [10; 5; 20]%nat)
           12 4 2 10 themes E).
Defined.

(** ** The hybrid policy and the provider *)

Section Hybrid.

Variable rt : runtime.
Variable settings : Settings.

Lemma call_llm_first_post (net : network) (prompt : string) (timeout : float) (n : nat) :
  exists rq rest, trace net n (call_llm rt settings prompt timeout) = Posted rq :: rest.
Proof.
  unfold call_llm, call_groq, call_ollama.
  destruct (String.eqb (llm_provider settings) "groq");
    [destruct (groq_api_key settings)|]; cbn [groq_attempts trace]; eauto.
Qed.

(** The classifier posts to the provider exactly when the text is not
    blank. *)
Lemma score_text_llm_posts (net : network) (text : option string) (max_chars n : nat) :
  posted (trace net n (score_text_llm rt settings text max_chars)) = [] <->
  Text.strip (or_empty text) = "".
Proof.
  unfold score_text_llm.
  destruct text as [[|c s]|]; cbn [or_empty]; try (split; reflexivity).
  destruct (Text.strip (String c s)) as [|c' s'] eqn:St; [split; reflexivity|].
  split; [|discriminate].
  rewrite trace_bind.
  destruct (call_llm_first_post net (SIGNAL_PROMPT (snippet_of (String c s) max_chars)) 30 n)
    as (rq & rest & ->).
  discriminate.
Qed.

(** C3 (amended). With method [hybrid] the rule scorer runs first. When its
    score reaches [hybrid_min_score], or it finds a question or a request for
    a recommendation, its result is returned as it is and the provider is not
    called. Otherwise the run is that of the LLM classifier on the same text,
    whose result may again be the rule scorer's. The provider is called
    exactly when the condition fails and the text is not blank. *)
Theorem hybrid_decision (text_body : option string) (hybrid_min_score : float) :
  let rule_result := score_text text_body in
  let confident :=
    (PrimFloat.leb hybrid_min_score (signal_score rule_result)
     || is_question rule_result || asks_recommendation rule_result)%bool in
  let hybrid := _score_text_with_method rt settings text_body "hybrid" hybrid_min_score in
  (confident = true ->
     forall net n, run net n hybrid = (Ok rule_result, n) /\ trace net n hybrid = []) /\
  (confident = false ->
     forall net n,
       run net n hybrid = run net n (score_text_llm rt settings text_body 1000) /\
       trace net n hybrid = trace net n (score_text_llm rt settings text_body 1000)) /\
  (forall net n,
     posted (trace net n hybrid) = [] <->
     confident = true \/ Text.strip (or_empty text_body) = "").
Proof.
  intros rule_result confident hybrid.
  assert (E : hybrid = if confident then Ret rule_result
                       else score_text_llm rt settings text_body 1000)
    by apply hybrid_policy.
  rewrite E. clearbody hybrid confident. clear E.
  split; [intros -> net n; split; reflexivity|].
  split; [intros -> net n; split; reflexivity|].
  intros net n. destruct confident.
  - split; [auto | reflexivity].
  - rewrite score_text_llm_posts. split; [auto|]. intros [H|H]; [discriminate | exact H].
Qed.

End Hybrid.

Lemma hybrid_decision_witness :
  let text := Some (String.append "What's the best broker? " (String pound "10 fee")) in
  let walk := Some "I went for a walk today" in
  is_question (score_text text) = true /\
  run unreachable 0 (_score_text_with_method demo_runtime demo_settings text "hybrid" 0.2)
    = (Ok (score_text text), 0%nat) /\
  PrimFloat.leb 0.9 (signal_score (score_text walk)) = false /\
  run (answering full_reply) 0
    (_score_text_with_method demo_runtime demo_settings walk "hybrid" 0.9)
    = run (answering full_reply) 0 (score_text_llm demo_runtime demo_settings walk 1000).
Proof.
  intros text walk. split; [vm_compute; reflexivity|]. split.
  - apply (proj1 (hybrid_decision demo_runtime demo_settings text 0.2)).
    vm_compute. reflexivity.
  - split; [vm_compute; reflexivity|].
    apply (proj1 (proj2 (hybrid_decision demo_runtime demo_settings walk 0.9))).
    vm_compute. reflexivity.
Defined.

(** C3 (as stated) fails in its "only if": the rule result is also what
    comes back when the condition does not hold and the classifier, called
    with a provider that cannot be reached, falls back to the rule scorer. *)
Lemma hybrid_rule_result_unconfident :
  let walk := Some "I went for a walk today" in
  (PrimFloat.leb 0.2 (signal_score (score_text walk))
   || is_question (score_text walk) || asks_recommendation (score_text walk))%bool = false /\
  run unreachable 0 (_score_text_with_method demo_runtime demo_settings walk "hybrid" 0.2)
    = (Ok (score_text walk), 1%nat).
Proof. split; vm_compute; reflexivity. Qed.
